(** * pysteps.utils.dimension and pysteps.verification.ensscores

    A shallow embedding of [pysteps/utils/dimension.py]:
    [aggregate_fields], [aggregate_fields_time], [aggregate_fields_space],
    [adjust_domain] and [square_domain], together with the part of numpy
    they rely on (row-major n-dimensional arrays, [swapaxes], [reshape],
    basic slicing, [squeeze], reductions along an axis), and of the rank
    histogram of [pysteps/verification/ensscores.py]: [rankhist_init],
    [rankhist_accum] and [rankhist_compute].

    Conventions of the embedding:
    - an array is its shape and its elements in row-major (C) order;
    - a float is the rational it stands for. The scalars that the two
      aggregators and [square_domain] compute from the metadata are
      binary64 numbers: each operation rounds its exact result to 53
      bits, to the nearest, ties to even ([b64]); magnitudes beyond the
      range of binary64 are not modelled, so no operation overflows. The
      elements of an array, with NaN, and the grid arithmetic of
      [adjust_domain] are idealised: exact rationals;
    - a Python exception is a value of [exn]; a function that may raise
      returns a [result];
    - a metadata dictionary is a finite map from key strings to values;
    - a random draw is a number given to the function that draws. *)

From Stdlib Require Import QArith Qround Qabs ZArith Lia Lqa Ascii String.
From stdpp Require Import gmap strings list fin_maps sorting.

Local Open Scope Z_scope.
Local Open Scope string_scope.
Local Open Scope nat_scope.

(** ** Exceptions and results *)

(** A Python value held in a metadata dictionary: a string, an integer,
    a float, a [datetime] (in whole seconds) or a list or tuple. *)
#[warnings="-register-all"]
Inductive value :=
| VStr (s : string)
| VInt (z : Z)
| VNum (q : Q)
| VTime (seconds : Z)
| VSeq (items : list value).

Inductive fmtarg :=
| AInt (z : Z)
| AStr (s : string)
| AVal (v : value).

(** [ValueError tmpl args] is [ValueError(tmpl % args)]. *)
Inductive exn :=
| ValueError (tmpl : string) (args : list fmtarg)
| IndexError
| KeyError (key : string)
| TypeError
| ZeroDivisionError
| OverflowError.

Inductive result (A : Type) :=
| Ok (a : A)
| Raise (e : exn).
Arguments Ok {A} a.
Arguments Raise {A} e.

#[global] Instance result_ret : MRet result := @Ok.
#[global] Instance result_bind : MBind result := fun A B f m =>
  match m with
  | Ok a => f a
  | Raise e => Raise e
  end.

Definition is_ok {A} (r : result A) : bool :=
  match r with Ok _ => true | Raise _ => false end.

(** ** Numbers *)

(** An array element: a finite value or NaN. *)
Inductive num :=
| Fin (q : Q)
| NaN.

Definition nzero : num := Fin 0.
Definition none_ : num := Fin 1.

Definition nadd (a b : num) : num :=
  match a, b with
  | Fin x, Fin y => Fin (x + y)
  | _, _ => NaN
  end.

Definition nmul (a b : num) : num :=
  match a, b with
  | Fin x, Fin y => Fin (x * y)
  | _, _ => NaN
  end.

(** Division by a count; 0/0 is NaN. *)
Definition ndivn (a : num) (n : nat) : num :=
  match a, n with
  | Fin x, S _ => Fin (x / inject_Z (Z.of_nat n))
  | _, _ => NaN
  end.

(** [np.minimum]: NaN propagates. *)
Definition nmin (a b : num) : num :=
  match a, b with
  | Fin x, Fin y => if Qle_bool x y then Fin x else Fin y
  | _, _ => NaN
  end.

Definition isnan (a : num) : bool :=
  match a with NaN => true | Fin _ => false end.

(** [int(q)]: truncation toward zero. *)
Definition int_of_Q (q : Q) : Z := Z.quot (Qnum q) (Zpos (Qden q)).

(** *** Binary64 *)

(** [2 ** e] *)
Definition pow2 (e : Z) : Q :=
  if (0 <=? e)%Z then inject_Z (2 ^ e) else (/ inject_Z (2 ^ (- e)))%Q.

(** The exponent of the leading bit of [q], for [q] other than zero. *)
Definition ilog2 (q : Q) : Z :=
  let k := (Z.log2 (Z.abs (Qnum q)) - Z.log2 (Zpos (Qden q)))%Z in
  if Qle_bool (pow2 k) (Qabs q) then k else (k - 1)%Z.

(** The nearest integer, the even one of two that are equally near. *)
Definition rne (q : Q) : Z :=
  let f := Qfloor q in
  match (q - inject_Z f ?= 1 # 2)%Q with
  | Lt => f
  | Gt => (f + 1)%Z
  | Eq => if Z.even f then f else (f + 1)%Z
  end.

(** The binary64 number nearest to [q]: 53 significant bits, and no bit
    below [2 ** -1074]. *)
Definition b64 (q : Q) : Q :=
  if Qeq_bool q 0 then 0%Q
  else
    let e := Z.max (ilog2 q - 52) (-1074) in
    Qred (inject_Z (rne (q / pow2 e)) * pow2 e).

(** [float(z)] for an integer *)
Definition float_of_int (z : Z) : Q := b64 (inject_Z z).

(** [x * y] on floats *)
Definition float_mul (x y : Q) : Q := b64 (x * y).

Definition Qlt_bool (x y : Q) : bool := negb (Qle_bool y x).

(** Python's [x % y] on floats: the remainder of C's [fmod], which is
    exact and has the sign of [x], with [y] added to it when it is not
    zero and its sign is not that of [y]. *)
Definition float_mod (x y : Q) : result Q :=
  if Qeq_bool y 0 then Raise ZeroDivisionError
  else
    let r := (x - inject_Z (int_of_Q (x / y)) * y)%Q in
    if Qeq_bool r 0 then Ok 0%Q
    else if negb (Bool.eqb (Qlt_bool y 0) (Qlt_bool r 0)) then Ok (b64 (r + y))
    else Ok r.

(** Python's [x / y] on floats. *)
Definition float_div (x y : Q) : result Q :=
  if Qeq_bool y 0 then Raise ZeroDivisionError else Ok (b64 (x / y)).

(** Python's [a % b] on integers. *)
Definition int_mod (a b : Z) : result Z :=
  if (b =? 0)%Z then Raise ZeroDivisionError else Ok (a mod b)%Z.

(** [int(a / b)] on integers: true division, then truncation. *)
Definition int_truediv (a b : Z) : Z := Z.quot a b.

(** ** Strings *)

Definition lower_ascii (c : ascii) : ascii :=
  let n := nat_of_ascii c in
  if (65 <=? n) && (n <=? 90) then ascii_of_nat (n + 32) else c.

Fixpoint lower (s : string) : string :=
  match s with
  | EmptyString => EmptyString
  | String c r => String (lower_ascii c) (lower r)
  end.

(** ** n-dimensional arrays, row-major *)

Record ndarray := NDArray { shape : list nat; data : list num }.

Definition size_of (s : list nat) : nat := fold_right Nat.mul 1 s.

(** What every numpy array satisfies. *)
Definition wf (R : ndarray) : Prop := length (data R) = size_of (shape R).

(** Row-major offset of a multi-index. *)
Fixpoint ravel (s idx : list nat) : nat :=
  match s, idx with
  | _ :: s', i :: idx' => i * size_of s' + ravel s' idx'
  | _, _ => 0
  end.

Fixpoint unravel (s : list nat) (p : nat) : list nat :=
  match s with
  | [] => []
  | _ :: s' => (p / size_of s') :: unravel s' (p mod size_of s')
  end.

(** [idx] is a valid multi-index of an array of shape [s]. *)
Definition inbounds (s idx : list nat) : Prop := Forall2 (fun n i => i < n) s idx.

(** The elements of the array of shape [s] whose element at [idx] is [f idx]. *)
Fixpoint tabulate (s : list nat) (f : list nat -> num) : list num :=
  match s with
  | [] => [f []]
  | n :: s' => flat_map (fun i => tabulate s' (fun idx => f (i :: idx))) (seq 0 n)
  end.

Definition build (s : list nat) (f : list nat -> num) : ndarray :=
  NDArray s (tabulate s f).

(** [R[idx]] for a full multi-index. *)
Definition item (R : ndarray) (idx : list nat) : num :=
  nth (ravel (shape R) idx) (data R) NaN.

(** [R.shape[axis]] *)
Definition shape_at (R : ndarray) (axis : nat) : result nat :=
  match shape R !! axis with
  | Some n => Ok n
  | None => Raise IndexError
  end.

Definition swap {A} (i j : nat) (l : list A) : list A :=
  match l !! i, l !! j with
  | Some x, Some y => <[i := y]> (<[j := x]> l)
  | _, _ => l
  end.

(** [R.swapaxes(a1, a2)], for axes of [R] (the callers have read
    [R.shape[axis]] before). The elements are laid out again in the
    row-major order of the swapped view, as [reshape] on it does. *)
Definition swapaxes (a1 a2 : nat) (R : ndarray) : ndarray :=
  build (swap a1 a2 (shape R)) (fun idx => item R (swap a1 a2 idx)).

(** [R.reshape(newshape)]: a negative entry is the unknown extent; numpy
    accepts one, and refuses to infer it when the known extents multiply
    to zero or do not divide the size. *)
Definition reshape (R : ndarray) (newshape : list Z) : result ndarray :=
  let total := size_of (shape R) in
  let known := size_of (Z.to_nat <$> filter (fun d => 0 <= d)%Z newshape) in
  match length (filter (fun d => d < 0)%Z newshape) with
  | 0 =>
      if known =? total then Ok (NDArray (Z.to_nat <$> newshape) (data R))
      else Raise (ValueError "cannot reshape array" [])
  | 1 =>
      if (known =? 0) || negb (total mod known =? 0)
      then Raise (ValueError "cannot reshape array" [])
      else Ok (NDArray ((fun d => if (d <? 0)%Z then total / known else Z.to_nat d)
                          <$> newshape) (data R))
  | _ => Raise (ValueError "can only specify one unknown dimension" [])
  end.

(** [R.squeeze()]: every axis of extent 1 is removed. *)
Definition squeeze (R : ndarray) : ndarray :=
  NDArray (filter (fun n => n ≠ 1) (shape R)) (data R).

(** [R[None, :]]: a new leading axis of extent 1. *)
Definition newaxis (R : ndarray) : ndarray := NDArray (1 :: shape R) (data R).

(** [np.ones(s) * v] *)
Definition ones_times (s : list nat) (v : num) : ndarray :=
  build s (fun _ => nmul none_ v).

(** [np.zeros(s)] *)
Definition zeros (s : list nat) : ndarray := build s (fun _ => nzero).

(** [R.min()] *)
Definition amin (R : ndarray) : result num :=
  match data R with
  | [] => Raise (ValueError "zero-size array to reduction operation minimum which has no identity" [])
  | x :: r => Ok (fold_left nmin r x)
  end.

(** *** Reductions *)

Definition np_sum (l : list num) : num :=
  match l with
  | [] => nzero
  | x :: r => fold_left nadd r x
  end.

Definition np_mean (l : list num) : num := ndivn (np_sum l) (length l).

Definition nan_to_zero (x : num) : num := if isnan x then nzero else x.

Definition np_nansum (l : list num) : num := np_sum (nan_to_zero <$> l).

Definition np_nanmean (l : list num) : num :=
  ndivn (np_nansum l) (length (filter (fun x => isnan x = false) l)).

(** [idx] with [u] put in at position [ax]. *)
Definition put_in {A} (ax : nat) (u : A) (idx : list A) : list A :=
  take ax idx ++ u :: drop ax idx.

(** [f(R, axis=ax)] for a reduction [f]: the axis is removed, and the
    element at [idx] reduces the elements along it in index order. *)
Definition reduce_axis (f : list num -> num) (ax : nat) (R : ndarray) : result ndarray :=
  match shape R !! ax with
  | Some w =>
      Ok (build (delete ax (shape R))
                (fun idx => f ((fun u => item R (put_in ax u idx)) <$> seq 0 w)))
  | None => Raise (ValueError "axis out of bounds" [])
  end.

(** ** aggregate_fields *)

Definition aggregate_fields (R : ndarray) (window_size : Z) (axis : nat)
    (method : string) : result ndarray :=
  N ← shape_at R axis;
  r ← int_mod (Z.of_nat N) window_size;
  if negb (r =? 0)%Z then
    Raise (ValueError "window_size %i does not equally split R.shape[axis] %i"
                      [AInt window_size; AInt (Z.of_nat N)])
  else
    let R := swapaxes axis 0 R in
    let shape_ := Z.of_nat <$> shape R in
    R_ ← reshape R [Z.of_nat N; (-1)%Z];
    M ← shape_at R_ 1;
    let blocks := [int_truediv (Z.of_nat N) window_size; window_size; Z.of_nat M] in
    R__ ← (if String.eqb (lower method) "sum" then
             R3 ← reshape R_ blocks; reduce_axis np_sum 1 R3
           else if String.eqb (lower method) "mean" then
             R3 ← reshape R_ blocks; reduce_axis np_mean 1 R3
           else if String.eqb (lower method) "nansum" then
             R3 ← reshape R_ blocks; reduce_axis np_nansum 1 R3
           else if String.eqb (lower method) "nanmean" then
             R3 ← reshape R_ blocks; reduce_axis np_nanmean 1 R3
           else Raise (ValueError "unknown method %s" [AStr method]));
    let shape_ := <[0 := int_truediv (Z.of_nat N) window_size]> shape_ in
    R ← reshape R__ shape_;
    Ok (swapaxes axis 0 R).

(** The reduction a method name stands for. *)
Definition reduction_of (method : string) : option (list num -> num) :=
  if String.eqb (lower method) "sum" then Some np_sum
  else if String.eqb (lower method) "mean" then Some np_mean
  else if String.eqb (lower method) "nansum" then Some np_nansum
  else if String.eqb (lower method) "nanmean" then Some np_nanmean
  else None.


(** ** Metadata dictionaries *)

(** [metadata[k]] *)
Definition dget (metadata : gmap string value) (k : string) : result value :=
  match metadata !! k with
  | Some v => Ok v
  | None => Raise (KeyError k)
  end.

(** The value of a number. *)
Definition as_float (v : value) : result Q :=
  match v with
  | VInt z => Ok (inject_Z z)
  | VNum q => Ok q
  | _ => Raise TypeError
  end.

(** [float(v)]: the float that arithmetic with a float turns a number
    into. *)
Definition to_float (v : value) : result Q :=
  match v with
  | VInt z => Ok (float_of_int z)
  | VNum q => Ok q
  | _ => Raise TypeError
  end.

(** Python arithmetic on numbers: integers stay integers and are exact;
    with a float the operation is that of floats. *)
Definition arith (fz : Z -> Z -> Z) (fq : Q -> Q -> Q) (a b : value) : result value :=
  match a, b with
  | VInt x, VInt y => Ok (VInt (fz x y))
  | VInt x, VNum y => Ok (VNum (b64 (fq (float_of_int x) y)))
  | VNum x, VInt y => Ok (VNum (b64 (fq x (float_of_int y))))
  | VNum x, VNum y => Ok (VNum (b64 (fq x y)))
  | _, _ => Raise TypeError
  end.

Definition vadd := arith Z.add Qplus.
Definition vsub := arith Z.sub Qminus.
Definition vmul := arith Z.mul Qmult.

(** [n == v] for an extent [n]. *)
Definition veq_nat (n : nat) (v : value) : bool :=
  match v with
  | VInt z => (Z.of_nat n =? z)%Z
  | VNum q => Qeq_bool (inject_Z (Z.of_nat n)) q
  | _ => false
  end.

(** [v == w] for a float [w] *)
Definition veq_float (v : value) (w : Q) : bool :=
  match v with
  | VInt z => Qeq_bool (inject_Z z) w
  | VNum q => Qeq_bool q w
  | _ => false
  end.

(** [unit == s] *)
Definition veq_str (v : value) (s : string) : bool :=
  match v with
  | VStr s' => String.eqb s' s
  | _ => false
  end.

Fixpoint chars (s : string) : list ascii :=
  match s with
  | EmptyString => []
  | String c r => c :: chars r
  end.

Fixpoint unchars (l : list ascii) : string :=
  match l with
  | [] => EmptyString
  | c :: r => String c (unchars r)
  end.

(** The items of a sequence. *)
Definition as_seq (v : value) : result (list value) :=
  match v with
  | VSeq l => Ok l
  | VStr s => Ok ((fun c => VStr (String c EmptyString)) <$> chars s)
  | _ => Raise TypeError
  end.

(** [len(v)] *)
Definition vlen (v : value) : result nat := l ← as_seq v; Ok (length l).

(** [v[i]] for [0 <= i] *)
Definition vitem (v : value) (i : nat) : result value :=
  l ← as_seq v;
  match l !! i with
  | Some x => Ok x
  | None => Raise IndexError
  end.

(** [(a - b).seconds]: the seconds field of a [timedelta], which is
    normalised into [0, 86400) with the days kept apart. *)
Definition delta_seconds (a b : value) : result Z :=
  match a, b with
  | VTime x, VTime y => Ok ((x - y) mod 86400)%Z
  | _, _ => Raise TypeError
  end.

(** The elements of [l] at positions [k], [k + step], ... *)
Fixpoint every {A} (step k : nat) (l : list A) : list A :=
  match l with
  | [] => []
  | x :: r =>
      match k with
      | 0 => x :: every step (step - 1) r
      | S k' => every step k' r
      end
  end.

(** [l[start::step]] *)
Definition slice_step {A} (start step : Z) (l : list A) : result (list A) :=
  let n := Z.of_nat (length l) in
  if (step =? 0)%Z then Raise (ValueError "slice step cannot be zero" [])
  else if (0 <? step)%Z then
    let s := if (start <? 0)%Z then Z.max (start + n) 0 else Z.min start n in
    Ok (every (Z.to_nat step) (Z.to_nat s) l)
  else
    let s := if (start <? 0)%Z then Z.max (start + n) (-1) else Z.min start (n - 1) in
    Ok (every (Z.to_nat (- step)) 0 (rev (take (Z.to_nat (s + 1)) l))).

(** [v[start::step]] *)
Definition vslice_step (start step : Z) (v : value) : result value :=
  match v with
  | VSeq l => l' ← slice_step start step l; Ok (VSeq l')
  | VStr s => l' ← slice_step start step (chars s); Ok (VStr (unchars l'))
  | _ => Raise TypeError
  end.

(** The reduction chosen from the unit, shared by the two aggregators. *)
Definition method_of_unit (unit_ : value) : result string :=
  if veq_str unit_ "mm/h" then Ok "mean"
  else if veq_str unit_ "mm" then Ok "sum"
  else Raise (ValueError "can only aggregate units of 'mm/h' or 'mm' not %s" [AVal unit_]).

(** ** aggregate_fields_time *)

Definition aggregate_fields_time (R : ndarray) (metadata : gmap string value)
    (time_window_min : option Q) : result (ndarray * gmap string value) :=
  match time_window_min with
  | None => Ok (R, metadata)
  | Some time_window_min =>
      unit_ ← dget metadata "unit";
      timestamps ← dget metadata "timestamps";
      let rank := length (shape R) in
      if rank <? 3 then Raise (ValueError "The number of dimension must be > 2" [])
      else if 4 <? rank then Raise (ValueError "The number of dimension must be <= 4" [])
      else
        let axis := if rank =? 3 then 0 else 1 in
        N ← shape_at R axis;
        n_ts ← vlen timestamps;
        if negb (N =? n_ts) then
          Raise (ValueError "The list of timestamps has length %i, but R contains %i frames"
                            [AInt (Z.of_nat n_ts); AInt (Z.of_nat N)])
        else
          t1 ← vitem timestamps 1;
          t0 ← vitem timestamps 0;
          secs ← delta_seconds t1 t0;
          (* the true division of two integers is correctly rounded *)
          let delta := b64 (inject_Z secs / 60) in
          if Qeq_bool delta time_window_min then Ok (R, metadata)
          else
            r ← float_mod (float_mul (float_of_int (Z.of_nat N)) delta) time_window_min;
            if negb (Qeq_bool r 0) then
              Raise (ValueError "time_window_size does not equally split R" [])
            else
              q ← float_div time_window_min delta;
              let nframes := int_of_Q q in
              method ← method_of_unit unit_;
              R ← aggregate_fields R nframes axis method;
              let metadata := <["accutime" := VNum time_window_min]> metadata in
              ts ← vslice_step (nframes - 1) nframes timestamps;
              let metadata := <["timestamps" := ts]> metadata in
              (* [leadtimes] was read at the start; its key is not written
                 in between *)
              match metadata !! "leadtimes" with
              | Some leadtimes =>
                  lt ← vslice_step (nframes - 1) nframes leadtimes;
                  Ok (R, <["leadtimes" := lt]> metadata)
              | None => Ok (R, metadata)
              end
  end.

(** ** aggregate_fields_space *)

Definition aggregate_fields_space (R : ndarray) (metadata : gmap string value)
    (space_window_m : option Q) : result (ndarray * gmap string value) :=
  match space_window_m with
  | None => Ok (R, metadata)
  | Some space_window_m =>
      unit_ ← dget metadata "unit";
      ypixelsize ← dget metadata "ypixelsize";
      xpixelsize ← dget metadata "xpixelsize";
      let rank := length (shape R) in
      if rank <? 3 then Raise (ValueError "The number of dimension must be > 2" [])
      else if 4 <? rank then Raise (ValueError "The number of dimension must be <= 4" [])
      else
        let axes := if rank =? 3 then (1, 2) else (2, 3) in
        if veq_float ypixelsize space_window_m && veq_float xpixelsize space_window_m
        then Ok (R, metadata)
        else
          Ny ← shape_at R axes.1;
          sy ← vmul (VInt (Z.of_nat Ny)) ypixelsize;
          sy ← to_float sy;
          ry ← float_mod sy space_window_m;
          uneven ← (if negb (Qeq_bool ry 0) then Ok true
                    else
                      Nx ← shape_at R axes.2;
                      sx ← vmul (VInt (Z.of_nat Nx)) xpixelsize;
                      sx ← to_float sx;
                      rx ← float_mod sx space_window_m;
                      Ok (negb (Qeq_bool rx 0)));
          if (uneven : bool) then
            Raise (ValueError "space_window_m does not equally split R" [])
          else
            ypixelsize ← to_float ypixelsize;
            qy ← float_div space_window_m ypixelsize;
            xpixelsize ← to_float xpixelsize;
            qx ← float_div space_window_m xpixelsize;
            method ← method_of_unit unit_;
            R ← aggregate_fields R (int_of_Q qy) axes.1 method;
            R ← aggregate_fields R (int_of_Q qx) axes.2 method;
            let metadata := <["ypixelsize" := VNum space_window_m]> metadata in
            let metadata := <["xpixelsize" := VNum space_window_m]> metadata in
            Ok (R, metadata)
  end.

(** ** Basic slicing of 4-d arrays on the two spatial axes *)

(** [:] or [start:stop] *)
Inductive slice :=
| All
| Range (start stop : Z).

(** First index and length of a slice of an axis of extent [n]: negative
    bounds count from the end, and bounds are clipped to the axis. *)
Definition span (sl : slice) (n : nat) : nat * nat :=
  match sl with
  | All => (0, n)
  | Range start stop =>
      let clip i := if (i <? 0)%Z then Z.max (i + Z.of_nat n) 0
                    else Z.min i (Z.of_nat n) in
      (Z.to_nat (clip start), Z.to_nat (clip stop - clip start))
  end.

(** [R[:, :, sy, sx]] *)
Definition getitem_yx (R : ndarray) (sy sx : slice) : result ndarray :=
  match shape R with
  | [n; t; Y; X] =>
      let '(y0, ly) := span sy Y in
      let '(x0, lx) := span sx X in
      Ok (build [n; t; ly; lx]
            (fun idx =>
               match idx with
               | [i; j; y; x] => item R [i; j; y0 + y; x0 + x]
               | _ => NaN
               end))
  | _ => Raise IndexError
  end.

(** Index into a broadcast axis of extent [n]. *)
Definition bcast (n i : nat) : nat := if n =? 1 then 0 else i.

(** [R_[:, :, sy, sx] = src]: [src] is broadcast to the selected window,
    which numpy refuses unless each of its extents is the window's or 1. *)
Definition setitem_yx (R_ : ndarray) (sy sx : slice) (src : ndarray) : result ndarray :=
  match shape R_, shape src with
  | [n; t; Y; X], [n'; t'; Y'; X'] =>
      let '(y0, ly) := span sy Y in
      let '(x0, lx) := span sx X in
      if forallb (fun p => (p.1 =? p.2) || (p.1 =? 1))
                 [(n', n); (t', t); (Y', ly); (X', lx)]
      then
        Ok (build [n; t; Y; X]
              (fun idx =>
                 match idx with
                 | [i; j; y; x] =>
                     if (y0 <=? y) && (y <? y0 + ly) && (x0 <=? x) && (x <? x0 + lx)
                     then item src [bcast n' i; bcast t' j; bcast Y' (y - y0); bcast X' (x - x0)]
                     else item R_ idx
                 | _ => NaN
                 end))
      else Raise (ValueError "could not broadcast input array" [])
  | _, _ => Raise IndexError
  end.

(** The rank checks and the promotion to rank 4 that [adjust_domain] and
    [square_domain] start with; [msg] is the message for a rank below 2. *)
Definition promote (msg : string) (R : ndarray) : result ndarray :=
  if length (shape R) <? 2 then Raise (ValueError msg [])
  else
    let R := if length (shape R) =? 2 then newaxis (newaxis R) else R in
    let R := if length (shape R) =? 3 then newaxis R else R in
    if 4 <? length (shape R) then
      Raise (ValueError "The number of dimension must be <= 4" [])
    else Ok R.

(** ** adjust_domain *)

(** [np.linspace(start, stop, num)] *)
Definition linspace (start stop : Q) (num : nat) : list Q :=
  match num with
  | 0 => []
  | 1 => [start]
  | _ =>
      let step := ((stop - start) / inject_Z (Z.of_nat (num - 1)))%Q in
      (fun i => (inject_Z (Z.of_nat i) * step + start)%Q) <$> seq 0 num
  end.

(** [np.where(np.logical_and(c < hi, c > lo))[0]] *)
Definition where_between (lo hi : Q) (c : list Q) : list nat :=
  filter (fun i => match c !! i with
                   | Some v => Qlt_bool v hi && Qlt_bool lo v
                   | None => false
                   end = true) (seq 0 (length c)).

(** [idx[0]] *)
Definition first_of (idx : list nat) : result nat :=
  match idx with
  | i :: _ => Ok i
  | [] => Raise IndexError
  end.

(** [idx[-1]] *)
Definition last_of (idx : list nat) : result nat :=
  match last idx with
  | Some i => Ok i
  | None => Raise IndexError
  end.

(** [int(d / pixelsize)] for a numpy float [d]: dividing by zero gives
    an infinity or NaN, which [int] refuses. *)
Definition int_quotient (d pixelsize : Q) : result Z :=
  if Qeq_bool pixelsize 0 then
    if Qeq_bool d 0 then Raise (ValueError "cannot convert float NaN to integer" [])
    else Raise OverflowError
  else Ok (int_of_Q (d / pixelsize)).

(** An extent given to [np.ones] or [np.zeros]. *)
Definition extent (z : Z) : result nat :=
  if (z <? 0)%Z then Raise (ValueError "negative dimensions are not allowed" [])
  else Ok (Z.to_nat z).

(** [np.array(lim).astype(float)] for a pair of limits. *)
Definition astype_float (lim : value * value) : result (Q * Q) :=
  a ← as_float lim.1; b ← as_float lim.2; Ok (a, b).

Definition qmin (p : Q * Q) : Q := if Qle_bool p.1 p.2 then p.1 else p.2.
Definition qmax (p : Q * Q) : Q := if Qle_bool p.1 p.2 then p.2 else p.1.

Definition adjust_domain (R : ndarray) (metadata : gmap string value)
    (xlim ylim : option (Q * Q)) : result (ndarray * gmap string value) :=
  match xlim, ylim with
  | None, None => Ok (R, metadata)
  | _, _ =>
      ylim ← match ylim with
             | Some l => Ok (VNum l.1, VNum l.2)
             | None => y1 ← dget metadata "y1"; y2 ← dget metadata "y2"; Ok (y1, y2)
             end;
      xlim ← match xlim with
             | Some l => Ok (VNum l.1, VNum l.2)
             | None => x1 ← dget metadata "x1"; x2 ← dget metadata "x2"; Ok (x1, x2)
             end;
      R ← promote "The number of dimension must be > 1" R;
      match shape R with
      | [n; t; Y; X] =>
          xlim ← astype_float xlim;
          ylim ← astype_float ylim;
          xpixelsize ← dget metadata "xpixelsize"; xpixelsize ← as_float xpixelsize;
          new_dim_x ← int_quotient (qmax xlim - qmin xlim) xpixelsize;
          ypixelsize ← dget metadata "ypixelsize"; ypixelsize ← as_float ypixelsize;
          new_dim_y ← int_quotient (qmax ylim - qmin ylim) ypixelsize;
          new_dim_y ← extent new_dim_y;
          new_dim_x ← extent new_dim_x;
          zerovalue ← dget metadata "zerovalue"; zerovalue ← as_float zerovalue;
          let R_ := ones_times [n; t; new_dim_y; new_dim_x] (Fin zerovalue) in
          y1 ← dget metadata "y1"; y1 ← as_float y1;
          y2 ← dget metadata "y2"; y2 ← as_float y2;
          let y_coord := (fun c => c + ypixelsize / 2)%Q <$> linspace y1 (y2 - ypixelsize) Y in
          x1 ← dget metadata "x1"; x1 ← as_float x1;
          x2 ← dget metadata "x2"; x2 ← as_float x2;
          let x_coord := (fun c => c + xpixelsize / 2)%Q <$> linspace x1 (x2 - xpixelsize) X in
          let y_coord_ := (fun c => c + ypixelsize / 2)%Q
                            <$> linspace (qmin ylim) (qmax ylim - ypixelsize) new_dim_y in
          let x_coord_ := (fun c => c + xpixelsize / 2)%Q
                            <$> linspace (qmin xlim) (qmax xlim - xpixelsize) new_dim_x in
          let idx_y := where_between (qmin ylim) (qmax ylim) y_coord in
          let idx_x := where_between (qmin xlim) (qmax xlim) x_coord in
          let idx_y_ := where_between y1 y2 y_coord_ in
          let idx_x_ := where_between x1 x2 x_coord_ in
          ya ← first_of idx_y; yb ← last_of idx_y;
          xa ← first_of idx_x; xb ← last_of idx_x;
          src ← getitem_yx R (Range (Z.of_nat ya) (Z.of_nat yb))
                             (Range (Z.of_nat xa) (Z.of_nat xb));
          ya_ ← first_of idx_y_; yb_ ← last_of idx_y_;
          xa_ ← first_of idx_x_; xb_ ← last_of idx_x_;
          R_ ← setitem_yx R_ (Range (Z.of_nat ya_) (Z.of_nat yb_))
                             (Range (Z.of_nat xa_) (Z.of_nat xb_)) src;
          let metadata := <["y1" := VNum (qmin ylim)]> metadata in
          let metadata := <["y2" := VNum (qmax ylim)]> metadata in
          let metadata := <["x1" := VNum (qmin xlim)]> metadata in
          let metadata := <["x2" := VNum (qmax xlim)]> metadata in
          Ok (squeeze R_, metadata)
      | _ => Raise IndexError
      end
  end.

(** ** square_domain *)

(** What a call returns: the array alone, or the array and the metadata. *)
Inductive returned :=
| JustArray (R : ndarray)
| Pair (R : ndarray) (metadata : gmap string value).

(** [metadata[k] op= idx_buffer * metadata[pixelsize]] *)
Definition shift_bound (op : value -> value -> result value) (k pixelsize : string)
    (idx_buffer : Z) (metadata : gmap string value) : result (gmap string value) :=
  b ← dget metadata k;
  p ← dget metadata pixelsize;
  d ← vmul (VInt idx_buffer) p;
  v ← op b d;
  Ok (<[k := v]> metadata).

(** An extent taken from the metadata by [np.zeros]. *)
Definition extent_of (v : value) : result nat :=
  match v with
  | VInt z => extent z
  | _ => Raise TypeError
  end.

(** [int((a - b) / 2.)] *)
Definition half_diff (a b : Z) : Z := Z.quot (a - b) 2.

Definition square_domain (R : ndarray) (metadata : gmap string value)
    (method : string) (inverse : bool) : result returned :=
  if negb inverse then
    R ← promote "The number of dimension must be > 1" R;
    match shape R with
    | [orig_dim_n; orig_dim_t; orig_dim_y; orig_dim_x] =>
        if orig_dim_y =? orig_dim_x then Ok (JustArray (squeeze R))
        else
          '(R_, metadata) ←
            (if String.eqb method "pad" then
               let new_dim := Nat.max orig_dim_y orig_dim_x in
               m ← amin R;
               let R_ := ones_times [orig_dim_n; orig_dim_t; new_dim; new_dim] m in
               if orig_dim_x <? new_dim then
                 let idx_buffer := half_diff (Z.of_nat new_dim) (Z.of_nat orig_dim_x) in
                 R_ ← setitem_yx R_ All
                        (Range idx_buffer (idx_buffer + Z.of_nat orig_dim_x)) R;
                 metadata ← shift_bound vsub "x1" "xpixelsize" idx_buffer metadata;
                 metadata ← shift_bound vadd "x2" "xpixelsize" idx_buffer metadata;
                 Ok (R_, metadata)
               else if orig_dim_y <? new_dim then
                 let idx_buffer := half_diff (Z.of_nat new_dim) (Z.of_nat orig_dim_y) in
                 R_ ← setitem_yx R_ (Range idx_buffer (idx_buffer + Z.of_nat orig_dim_y))
                        All R;
                 metadata ← shift_bound vsub "y1" "ypixelsize" idx_buffer metadata;
                 metadata ← shift_bound vadd "y2" "ypixelsize" idx_buffer metadata;
                 Ok (R_, metadata)
               else Ok (R_, metadata)
             else if String.eqb method "crop" then
               let new_dim := Nat.min orig_dim_y orig_dim_x in
               let R_ := zeros [orig_dim_n; orig_dim_t; new_dim; new_dim] in
               if new_dim <? orig_dim_x then
                 let idx_buffer := half_diff (Z.of_nat orig_dim_x) (Z.of_nat new_dim) in
                 R_ ← getitem_yx R All (Range idx_buffer (idx_buffer + Z.of_nat new_dim));
                 metadata ← shift_bound vadd "x1" "xpixelsize" idx_buffer metadata;
                 metadata ← shift_bound vsub "x2" "xpixelsize" idx_buffer metadata;
                 Ok (R_, metadata)
               else if new_dim <? orig_dim_y then
                 let idx_buffer := half_diff (Z.of_nat orig_dim_y) (Z.of_nat new_dim) in
                 R_ ← getitem_yx R (Range idx_buffer (idx_buffer + Z.of_nat new_dim)) All;
                 metadata ← shift_bound vadd "y1" "ypixelsize" idx_buffer metadata;
                 metadata ← shift_bound vsub "y2" "ypixelsize" idx_buffer metadata;
                 Ok (R_, metadata)
               else Ok (R_, metadata)
             else Raise (ValueError "Unknown type" []));
          let metadata :=
            <["orig_domain" := VSeq [VInt (Z.of_nat orig_dim_y); VInt (Z.of_nat orig_dim_x)]]>
              metadata in
          let metadata := <["square_method" := VStr method]> metadata in
          Ok (Pair (squeeze R_) metadata)
    | _ => Raise IndexError
    end
  else
    R ← promote "The number of dimension must be > 2" R;
    match shape R with
    | [n; t; Y; X] =>
        method ← dget metadata "square_method";
        let metadata := delete "square_method" metadata in
        shape_ ← dget metadata "orig_domain";
        let metadata := delete "orig_domain" metadata in
        shape0 ← vitem shape_ 0;
        shape1 ← vitem shape_ 1;
        if veq_nat Y shape0 && veq_nat X shape1 then Ok (JustArray (squeeze R))
        else
          s0 ← extent_of shape0;
          s1 ← extent_of shape1;
          let R_ := zeros [n; t; s0; s1] in
          '(R_, metadata) ←
            (if veq_str method "pad" then
               if Y =? s0 then
                 let idx_buffer := half_diff (Z.of_nat X) (Z.of_nat s1) in
                 R_ ← getitem_yx R All (Range idx_buffer (idx_buffer + Z.of_nat s1));
                 metadata ← shift_bound vadd "x1" "xpixelsize" idx_buffer metadata;
                 metadata ← shift_bound vsub "x2" "xpixelsize" idx_buffer metadata;
                 Ok (R_, metadata)
               else if X =? s1 then
                 let idx_buffer := half_diff (Z.of_nat Y) (Z.of_nat s0) in
                 R_ ← getitem_yx R (Range idx_buffer (idx_buffer + Z.of_nat s0)) All;
                 metadata ← shift_bound vadd "y1" "ypixelsize" idx_buffer metadata;
                 metadata ← shift_bound vsub "y2" "ypixelsize" idx_buffer metadata;
                 Ok (R_, metadata)
               else Ok (R_, metadata)
             else if veq_str method "crop" then
               if Y =? s0 then
                 let idx_buffer := half_diff (Z.of_nat s1) (Z.of_nat X) in
                 R_ ← setitem_yx R_ All (Range idx_buffer (idx_buffer + Z.of_nat X)) R;
                 metadata ← shift_bound vsub "x1" "xpixelsize" idx_buffer metadata;
                 metadata ← shift_bound vadd "x2" "xpixelsize" idx_buffer metadata;
                 Ok (R_, metadata)
               else if X =? s1 then
                 let idx_buffer := half_diff (Z.of_nat s0) (Z.of_nat Y) in
                 R_ ← setitem_yx R_ (Range idx_buffer (idx_buffer + Z.of_nat Y)) All R;
                 metadata ← shift_bound vsub "y1" "ypixelsize" idx_buffer metadata;
                 metadata ← shift_bound vadd "y2" "ypixelsize" idx_buffer metadata;
                 Ok (R_, metadata)
               else Ok (R_, metadata)
             else Ok (R_, metadata));
          Ok (Pair (squeeze R_) metadata)
    | _ => Raise IndexError
    end.

(** ** Vocabulary of the statements *)

(** The axis [aggregate_fields_time] aggregates. *)
Definition time_axis (R : ndarray) : nat := if length (shape R) =? 3 then 0 else 1.

(** The sampling interval [delta], in minutes, as [aggregate_fields_time]
    derives it from the first two timestamps. *)
Definition sampling_interval (metadata : gmap string value) : result Q :=
  timestamps ← dget metadata "timestamps";
  t1 ← vitem timestamps 1;
  t0 ← vitem timestamps 0;
  secs ← delta_seconds t1 t0;
  Ok (b64 (inject_Z secs / 60)).

(** The time span [N * delta] of [N] frames, as [aggregate_fields_time]
    computes it. *)
Definition time_span (N : nat) (delta : Q) : Q :=
  float_mul (float_of_int (Z.of_nat N)) delta.

(** The block size [int(window / delta)], as the two aggregators compute
    it. *)
Definition block_size (w delta : Q) : Z := int_of_Q (b64 (w / delta)).


(** The axes [aggregate_fields_space] aggregates, y then x. *)
Definition space_axes (R : ndarray) : nat * nat :=
  if length (shape R) =? 3 then (1, 2) else (2, 3).

(** The reduction that goes with a unit. *)
Definition unit_method (unit_ : value) (method : string) : Prop :=
  (unit_ = VStr "mm/h" /\ method = "mean") \/ (unit_ = VStr "mm" /\ method = "sum").

(** The leading two extents after [squeeze] and promotion back to rank 4
    of an array of shape [[n; t; Y; X]] whose spatial extents are not 1:
    an ensemble of single-step series comes back as one series. *)
Definition lead_after_squeeze (n t : nat) : nat * nat :=
  if decide (n <> 1 /\ t = 1) then (1, n) else (n, t).

Definition is_number (v : value) : bool :=
  match v with
  | VInt _ | VNum _ => true
  | _ => false
  end.

(** The metadata holds a number under key [k]. *)
Definition numeric (metadata : gmap string value) (k : string) : Prop :=
  exists v, metadata !! k = Some v /\ is_number v = true.

(** The bounds and the pixel size along x, and along y. *)
Definition georeferenced_x (metadata : gmap string value) : Prop :=
  numeric metadata "x1" /\ numeric metadata "x2" /\ numeric metadata "xpixelsize".
Definition georeferenced_y (metadata : gmap string value) : Prop :=
  numeric metadata "y1" /\ numeric metadata "y2" /\ numeric metadata "ypixelsize".

(** The array of a result. *)
Definition array_of (r : returned) : ndarray :=
  match r with
  | JustArray R => R
  | Pair R _ => R
  end.

(** The multi-index into [R.squeeze()] of the element at [idx] of [R]. *)
Fixpoint squeeze_index (s idx : list nat) : list nat :=
  match s, idx with
  | n :: s', i :: idx' =>
      if decide (n = 1) then squeeze_index s' idx' else i :: squeeze_index s' idx'
  | _, _ => []
  end.

(** The leading two indices, after [squeeze] and promotion, of the
    element at leading indices [i], [j]. *)
Definition lead_index (n t i j : nat) : list nat :=
  if decide (n <> 1 /\ t = 1) then [0; i] else [i; j].

(** The window of the padded square that holds the field of spatial
    extents [oy], [ox]. *)
Definition pad_window (oy ox : nat) : slice * slice :=
  if ox <? oy then
    let b := half_diff (Z.of_nat oy) (Z.of_nat ox) in (All, Range b (b + Z.of_nat ox))
  else
    let b := half_diff (Z.of_nat ox) (Z.of_nat oy) in (Range b (b + Z.of_nat oy), All).

(** The window of a field of spatial extents [oy], [ox] that cropping keeps. *)
Definition crop_window (oy ox : nat) : slice * slice :=
  if oy <? ox then
    let b := half_diff (Z.of_nat ox) (Z.of_nat oy) in (All, Range b (b + Z.of_nat oy))
  else
    let b := half_diff (Z.of_nat oy) (Z.of_nat ox) in (Range b (b + Z.of_nat ox), All).

(** Position [(y, x)] of an array of spatial extents [Y], [X] lies in the
    window [(sy, sx)]. *)
Definition in_window (w : slice * slice) (Y X y x : nat) : bool :=
  ((span w.1 Y).1 <=? y) && (y <? (span w.1 Y).1 + (span w.1 Y).2)
  && ((span w.2 X).1 <=? x) && (x <? (span w.2 X).1 + (span w.2 X).2).

(** The extents of the two spatial axes. *)
Definition spatial_shape (R : ndarray) : list nat :=
  drop (length (shape R) - 2) (shape R).

(** ** Sample fields and metadata *)

(** Bounds, pixel sizes and zerovalue of a 2 x 3 grid of unit pixels. *)
Definition sample_bounds : gmap string value :=
  <["x1" := VNum 0]> (<["x2" := VNum 3]> (<["y1" := VNum 0]> (<["y2" := VNum 2]>
  (<["xpixelsize" := VNum 1]> (<["ypixelsize" := VNum 1]>
  (<["zerovalue" := VNum 0]> ∅)))))).

(** The same with integers for the bounds and the pixel sizes. *)
Definition integer_bounds : gmap string value :=
  <["x1" := VInt 0]> (<["x2" := VInt 3]> (<["y1" := VInt 0]> (<["y2" := VInt 2]>
  (<["xpixelsize" := VInt 1]> (<["ypixelsize" := VInt 1]>
  (<["zerovalue" := VNum 0]> ∅)))))).

(** The same for a 1 x 3 grid. *)
Definition row_bounds : gmap string value := <["y2" := VNum 1]> sample_bounds.

Definition field_2x3 : ndarray := NDArray [2; 3] (Fin <$> [1; 2; 3; 4; 5; 6]%Q).
Definition field_1x3 : ndarray := NDArray [1; 3] (Fin <$> [5; 6; 7]%Q).
Definition field_2x4 : ndarray := NDArray [2; 4] (Fin <$> [1; 2; 3; 4; 5; 6; 7; 8]%Q).

(** A time series with a single time step. *)
Definition series_1x2x3 : ndarray := NDArray [1; 2; 3] (Fin <$> [1; 2; 3; 4; 5; 6]%Q).

(** Four frames of 1 x 2 pixels, five minutes apart. *)
Definition series_4x1x2 : ndarray := NDArray [4; 1; 2] (Fin <$> [1; 2; 3; 4; 5; 6; 7; 8]%Q).

(** One frame of 2 x 2 pixels. *)
Definition series_1x2x2 : ndarray := NDArray [1; 2; 2] (Fin <$> [1; 2; 3; 4]%Q).

Definition rain_metadata (unit_ : string) : gmap string value :=
  <["unit" := VStr unit_]>
    (<["timestamps" := VSeq [VTime 0; VTime 300; VTime 600; VTime 900]]>
    (<["leadtimes" := VSeq [VNum 5; VNum 10; VNum 15; VNum 20]]>
    (<["xpixelsize" := VNum 1]> (<["ypixelsize" := VNum 1]> ∅)))).

(** Three frames of one pixel, two minutes apart. *)
Definition series_3x1x1 : ndarray := NDArray [3; 1; 1] (Fin <$> [1; 2; 3]%Q).

Definition two_minute_metadata : gmap string value :=
  <["unit" := VStr "mm"]> (<["timestamps" := VSeq [VTime 0; VTime 120; VTime 240]]> ∅).

(** Five frames of one pixel, four minutes apart. *)
Definition series_5x1x1 : ndarray := NDArray [5; 1; 1] (Fin <$> [1; 2; 3; 4; 5]%Q).

Definition four_minute_metadata : gmap string value :=
  <["unit" := VStr "mm"]>
    (<["timestamps" := VSeq [VTime 0; VTime 240; VTime 480; VTime 720; VTime 960]]> ∅).



(** The pair a call returned, or the given pair when it raised. *)
Definition returned_or {A} (r : result A) (d : A) : A :=
  match r with
  | Ok a => a
  | Raise _ => d
  end.

(** Where position [p] of a list goes when positions [i] and [j] are
    swapped. *)
Definition swapped (i j p : nat) : nat :=
  if decide (p = i) then j else if decide (p = j) then i else p.

(** [op] maps numbers to a number, without raising. *)
Definition closed_on_numbers (op : value -> value -> result value) : Prop :=
  forall a b, is_number a = true -> is_number b = true ->
              exists v, op a b = Ok v /\ is_number v = true.

(** The window is the sampling interval: the no-op of
    [aggregate_fields_time]. *)
Definition time_noop (metadata : gmap string value) (w : Q) : Prop :=
  exists delta, sampling_interval metadata = Ok delta /\ Qeq_bool delta w = true.

(** The window is the pixel size in both directions: the no-op of
    [aggregate_fields_space]. *)
Definition space_noop (metadata : gmap string value) (w : Q) : Prop :=
  exists py px y x,
    metadata !! "ypixelsize" = Some py /\ metadata !! "xpixelsize" = Some px /\
    as_float py = Ok y /\ as_float px = Ok x /\
    Qeq_bool y w = true /\ Qeq_bool x w = true.

(** ** Further vocabulary *)

(** Three frames one day apart. *)
Definition daily_metadata : gmap string value :=
  <["unit" := VStr "mm"]>
    (<["timestamps" := VSeq [VTime 0; VTime 86400; VTime 172800]]> ∅).

(** The number under key [k]. *)
Definition number_at (metadata : gmap string value) (k : string) : result Q :=
  v ← dget metadata k; as_float v.

(** The limits [adjust_domain] works with along one direction: the ones
    given, or the bounds under keys [k1], [k2]. *)
Definition limits (metadata : gmap string value) (lim : option (Q * Q))
    (k1 k2 : string) : result (Q * Q) :=
  match lim with
  | Some l => Ok l
  | None => v1 ← dget metadata k1; v2 ← dget metadata k2; astype_float (v1, v2)
  end.

(** The number of pixels of size [pixelsize] that [adjust_domain] gives to
    the limits [lim]. *)
Definition grid_extent (lim : Q * Q) (pixelsize : Q) : result nat :=
  z ← int_quotient (qmax lim - qmin lim) pixelsize; extent z.

(** The extents before the two spatial axes. *)
Definition leading_shape (R : ndarray) : list nat :=
  take (length (shape R) - 2) (shape R).

(** The two updates of [square_domain] to the bounds along one direction:
    [metadata[k1]] and [metadata[k2]] moved by [idx_buffer] pixels, with
    [op1] and [op2]. *)
Definition shift_bounds (op1 op2 : value -> value -> result value)
    (k1 k2 pixelsize : string) (idx_buffer : Z) (metadata : gmap string value)
    : result (gmap string value) :=
  metadata ← shift_bound op1 k1 pixelsize idx_buffer metadata;
  shift_bound op2 k2 pixelsize idx_buffer metadata.

(** [idx_buffer] for spatial extents [oy], [ox]: half the difference of
    the two, rounded down. *)
Definition idx_buffer_of (oy ox : nat) : Z :=
  half_diff (Z.of_nat (Nat.max oy ox)) (Z.of_nat (Nat.min oy ox)).

(** The leading two indices, in the array promoted to rank 4, of the
    element at leading indices [l]. *)
Definition promoted_lead (l : list nat) : nat * nat :=
  match l with
  | [] => (0, 0)
  | [j] => (0, j)
  | i :: j :: _ => (i, j)
  end.

Definition is_int (v : value) : bool :=
  match v with VInt _ => true | _ => false end.

(** The bounds and pixel sizes that the metadata hold are integers. *)
Definition integer_georeference (metadata : gmap string value) : Prop :=
  forall k v, k ∈ ["x1"; "x2"; "y1"; "y2"; "xpixelsize"; "ypixelsize"] ->
              metadata !! k = Some v -> is_int v = true.

(** [op'] applies to what [op] gave, and undoes [op] on integers. *)
Definition undoes (op op' : value -> value -> result value) : Prop :=
  forall v d v', op v d = Ok v' ->
    exists v'', op' v' d = Ok v'' /\
                (is_int v = true -> is_int d = true -> v'' = v).

(** ** pysteps.verification.ensscores: rank histograms *)

Module ensscores.

(** The rank histogram object, the dictionary that [rankhist_init] makes:
    the number of members, the counts of the bins and the threshold. The
    counts are never negative. *)
Record rankhist := RankHist { num_ens_members : Z; n : list nat; X_min : Q }.

(** The forecasts [X_f] of [rankhist_accum]: an array of shape (n, m), held
    by its n rows. *)
Record forecasts := Forecasts { members : nat; rows : list (list num) }.

(** What every array of shape (n, m) satisfies. *)
Definition wf_forecasts (X_f : forecasts) : Prop :=
  Forall (fun f => length f = members X_f) (rows X_f).

Definition rankhist_init (num_ens_members : Z) (X_min : Q) : result rankhist :=
  bins ← extent (num_ens_members + 1);
  Ok (RankHist num_ens_members (replicate bins 0) X_min).

(** [np.isfinite] *)
Definition isfinite (a : num) : bool := negb (isnan a).

(** [a >= x] and [a < x] for an element and a float: False on NaN. *)
Definition nge (a : num) (x : Q) : bool :=
  match a with Fin q => Qle_bool x q | NaN => false end.
Definition nlt (a : num) (x : Q) : bool :=
  match a with Fin q => Qlt_bool q x | NaN => false end.

(** The order of [sort] and [searchsorted]: NaN comes last. *)
Definition nle (a b : num) : bool :=
  match a, b with
  | Fin x, Fin y => Qle_bool x y
  | _, NaN => true
  | NaN, Fin _ => false
  end.

Fixpoint insert_sorted (x : num) (l : list num) : list num :=
  match l with
  | [] => [x]
  | y :: r => if nle x y then x :: l else y :: insert_sorted x r
  end.

(** A row after [X_f.sort(axis=1)]: ascending. *)
Definition sort_row (f : list num) : list num := foldr insert_sorted [] f.

(** [np.digitize([v], f)[0]] for ascending [f], which is
    [np.searchsorted(f, v, side='right')]: the first position whose
    element is above [v]. *)
Fixpoint digitize (v : num) (f : list num) : nat :=
  match f with
  | [] => 0
  | b :: r => if nle b v then S (digitize v r) else 0
  end.

(** [np.where(f < x)[0]] *)
Definition where_below (x : Q) (f : list num) : list nat :=
  filter (fun j => match f !! j with Some a => nlt a x | None => false end = true)
         (seq 0 (length f)).

(** [np.min] and [np.max] of a list of indices. *)
Definition index_min (l : list nat) : result nat :=
  match l with
  | [] => Raise (ValueError "zero-size array to reduction operation minimum which has no identity" [])
  | x :: r => Ok (fold_left Nat.min r x)
  end.
Definition index_max (l : list nat) : result nat :=
  match l with
  | [] => Raise (ValueError "zero-size array to reduction operation maximum which has no identity" [])
  | x :: r => Ok (fold_left Nat.max r x)
  end.

(** [np.random.randint(low, high)]: some integer from [low] up to
    [high - 1], chosen here by the number [draw]. *)
Definition randint (draw low high : nat) : result nat :=
  if high <=? low then Raise (ValueError "low >= high" [])
  else Ok (low + draw mod (high - low)).

(** [for bi in bin_idx: n[bi] += 1] *)
Fixpoint increment (bin_idx : list nat) (n : list nat) : result (list nat) :=
  match bin_idx with
  | [] => Ok n
  | bi :: r =>
      match n !! bi with
      | Some c => increment r (<[bi := S c]> n)
      | None => Raise IndexError
      end
  end.

(** The bins of the ties: the loop over the pairs outside [mask_nz], each
    given with its position [i] among the finite pairs. The draw of
    position [i] is [draws i]. *)
Fixpoint tie_bins (draws : nat -> nat) (X_min : Q)
    (pairs : list (nat * (num * list num))) : result (list nat) :=
  match pairs with
  | [] => Ok []
  | (i, (v, f)) :: r =>
      here ← (if existsb (fun a => nge a X_min) f then
                let i_eq := where_below X_min f in
                if (1 <? length i_eq) && nlt v X_min then
                  low ← index_min i_eq;
                  high ← index_max i_eq;
                  bi ← randint (draws i) low (high + 1);
                  Ok [bi]
                else Ok []
              else Ok []);
      rest ← tie_bins draws X_min r;
      Ok (here ++ rest)%list
  end.

(** [rankhist_accum], for forecasts of shape (n, m) and observations of
    shape (n'): the histogram after the call, which updates it in place. *)
Definition rankhist_accum (draws : nat -> nat) (rankhist : rankhist)
    (X_f : forecasts) (X_o : list num) : result ensscores.rankhist :=
  if negb (Z.of_nat (members X_f) =? num_ens_members rankhist)%Z then
    Raise (ValueError "the number of ensemble members in X_f does not match the number of members in the rank histogram (%d!=%d)"
                      [AInt (Z.of_nat (members X_f)); AInt (num_ens_members rankhist)])
  else
    let X_min := X_min rankhist in
    let n_f := length (rows X_f) in
    let n_o := length X_o in
    if negb (n_f =? n_o) then
      (* the two masks broadcast only when one of them has a single
         element; their conjunction then has the other length, and indexes
         the array of one element only when it is empty: numpy does not
         compare the length of an empty mask with that of the array *)
      if (n_f =? 1) || (n_o =? 1) then
        if (n_f =? 0) || (n_o =? 0) then
          Ok (RankHist (num_ens_members rankhist) (n rankhist) X_min)
        else Raise IndexError
      else Raise (ValueError "operands could not be broadcast together" [])
    else
      let mask := fun p : num * list num => isfinite p.1 && forallb isfinite p.2 in
      let finite := filter (fun p => mask p = true) (zip X_o (rows X_f)) in
      let mask_nz := fun p : num * list num =>
                       nge p.1 X_min || forallb (fun a => nge a X_min) p.2 in
      let sorted := (fun p => (mask_nz p, (p.1, sort_row p.2))) <$> finite in
      let bin_idx := (fun q => digitize q.2.1 q.2.2) <$> filter (fun q => q.1 = true) sorted in
      ties ← tie_bins draws X_min
               ((fun q => (q.1, q.2.2)) <$>
                  filter (fun q => q.2.1 = false) (zip (seq 0 (length sorted)) sorted));
      n ← increment (bin_idx ++ ties)%list (n rankhist);
      Ok (RankHist (num_ens_members rankhist) n X_min).

(** What [rankhist_compute] returns: the counts, or floats. *)
Inductive histogram :=
| Counts (n : list nat)
| Frequencies (f : list num).

(** [1.0*n / sum(n)]: with no count at all every bin is 0/0. *)
Definition rankhist_compute (rankhist : rankhist) (normalize : bool) : histogram :=
  if normalize then
    let total := foldr Nat.add 0 (n rankhist) in
    Frequencies ((fun c => ndivn (Fin (inject_Z (Z.of_nat c))) total) <$> n rankhist)
  else Counts (n rankhist).

End ensscores.

(** The histogram has one bin more than members. *)
Definition wf_rankhist (rh : ensscores.rankhist) : Prop :=
  Z.of_nat (length (ensscores.n rh)) = (ensscores.num_ens_members rh + 1)%Z.

(** The number of pairs counted so far. *)
Definition total (rh : ensscores.rankhist) : nat := foldr Nat.add 0 (ensscores.n rh).

(** The pairs that [rankhist_accum] keeps: those without a NaN. *)
Definition finite_pairs (X_f : ensscores.forecasts) (X_o : list num)
    : list (num * list num) :=
  filter (fun p => ensscores.isfinite p.1 && forallb ensscores.isfinite p.2 = true)
         (zip X_o (ensscores.rows X_f)).

(** The bin that a pair of an observation and the members of a forecast is
    counted in, if it is counted at all. With the observation or every
    member at the threshold or above, it is the number of members that are
    not above the observation. Otherwise the pair is counted only when a
    member reaches the threshold and two members or more are below it, and
    then in a bin drawn among the first that many. *)
Definition pair_bin (X_min : Q) (draw : nat) (p : num * list num) : option nat :=
  let below := length (filter (fun a => ensscores.nlt a X_min = true) p.2) in
  if ensscores.nge p.1 X_min || (below =? 0) then
    Some (length (filter (fun a => ensscores.nle a p.1 = true) p.2))
  else if (1 <? below) && (below <? length p.2) then Some (draw mod below)
  else None.

(** The bins of a list of pairs, the pair at position [i] with draw
    [draws i]. *)
Definition batch_bins (draws : nat -> nat) (X_min : Q) (pairs : list (num * list num))
    : list nat :=
  omap (fun q => pair_bin X_min (draws q.1) q.2) (zip (seq 0 (length pairs)) pairs).

(** A histogram for two members, three forecasts of two members, one of
    them with a NaN, and their observations. *)
Definition sample_rankhist : ensscores.rankhist :=
  ensscores.RankHist 2 [0; 0; 0] (1 # 10).
Definition sample_forecasts : ensscores.forecasts :=
  ensscores.Forecasts 2 [[Fin 3; Fin 1]; [NaN; Fin 1]; [Fin 0; Fin 0]].
Definition sample_observations : list num := [Fin 2; Fin 1; Fin 0].

(** A histogram with three pairs counted. *)
Definition counted_rankhist : ensscores.rankhist :=
  ensscores.RankHist 2 [1; 0; 2] (1 # 10).

(** * Properties *)

(** ** Row-major layout *)

Lemma flat_map_seq_length {A} (g : nat -> list A) L a n :
  (forall x, length (g x) = L) -> length (flat_map g (seq a n)) = n * L.
Proof.
  intros HL. revert a. induction n as [|n IH]; intros a; simpl; [done|].
  rewrite length_app, HL, IH. done.
Qed.

Lemma flat_map_seq_lookup {A} (g : nat -> list A) L a n i r :
  (forall x, length (g x) = L) -> i < n -> r < L ->
  flat_map g (seq a n) !! (i * L + r) = g (a + i) !! r.
Proof.
  intros HL. revert a i. induction n as [|n IH]; intros a i Hi Hr; [lia|].
  simpl. destruct i as [|i].
  - rewrite lookup_app_l by (rewrite HL; lia). by rewrite Nat.add_0_r.
  - rewrite lookup_app_r by (rewrite HL; lia). rewrite HL.
    replace (S i * L + r - L) with (i * L + r) by lia.
    rewrite IH by lia. f_equal. f_equal. lia.
Qed.

Lemma length_tabulate s f : length (tabulate s f) = size_of s.
Proof.
  revert f. induction s as [|n s IH]; intros f; simpl; [done|].
  apply flat_map_seq_length. intros x. apply IH.
Qed.

Lemma ravel_lt s idx : inbounds s idx -> ravel s idx < size_of s.
Proof.
  induction 1 as [|n i s idx Hi _ IH]; simpl; [lia|].
  fold (size_of s). nia.
Qed.

Lemma tabulate_lookup s f idx :
  inbounds s idx -> tabulate s f !! ravel s idx = Some (f idx).
Proof.
  intros H. revert f. induction H as [|n i s idx Hi Hb IH]; intros f; simpl; [done|].
  rewrite (flat_map_seq_lookup _ (size_of s)).
  - apply IH.
  - intros x. apply length_tabulate.
  - done.
  - by apply ravel_lt.
Qed.

Lemma unravel_inbounds s p : p < size_of s -> inbounds s (unravel s p).
Proof.
  revert p. induction s as [|n s IH]; intros p Hp; simpl in *; [constructor|].
  fold (size_of s) in *.
  assert (0 < size_of s) by (destruct (size_of s); lia).
  constructor.
  - apply Nat.Div0.div_lt_upper_bound. lia.
  - apply IH. apply Nat.mod_upper_bound. lia.
Qed.

Lemma ravel_unravel s p : p < size_of s -> ravel s (unravel s p) = p.
Proof.
  revert p. induction s as [|n s IH]; intros p Hp; simpl in *; [lia|].
  fold (size_of s) in *.
  assert (0 < size_of s) by (destruct (size_of s); lia).
  rewrite IH by (apply Nat.mod_upper_bound; lia).
  pose proof (Nat.div_mod_eq p (size_of s)). lia.
Qed.

Lemma tabulate_ext s f g :
  (forall idx, inbounds s idx -> f idx = g idx) -> tabulate s f = tabulate s g.
Proof.
  intros H. apply list_eq. intros p.
  destruct (decide (p < size_of s)) as [Hp|Hp].
  - rewrite <- (ravel_unravel s p Hp).
    rewrite !tabulate_lookup by (by apply unravel_inbounds).
    f_equal. apply H. by apply unravel_inbounds.
  - rewrite !lookup_ge_None_2; [done| |]; rewrite length_tabulate; lia.
Qed.

Lemma item_build s f idx : inbounds s idx -> item (build s f) idx = f idx.
Proof.
  intros H. unfold item, build. simpl.
  apply nth_lookup_Some with (d := NaN). by apply tabulate_lookup.
Qed.

Lemma item_tabulate s f idx :
  inbounds s idx -> item (NDArray s (tabulate s f)) idx = f idx.
Proof. apply item_build. Qed.

Lemma wf_build s f : wf (build s f).
Proof. unfold wf, build. simpl. apply length_tabulate. Qed.

(** Reading every element back gives the array. *)
Lemma tabulate_item R : wf R -> tabulate (shape R) (item R) = data R.
Proof.
  intros Hwf. apply list_eq. intros p.
  destruct (decide (p < size_of (shape R))) as [Hp|Hp].
  - rewrite <- (ravel_unravel _ p Hp) at 1.
    rewrite tabulate_lookup by (by apply unravel_inbounds).
    unfold item. rewrite ravel_unravel by done.
    destruct (lookup_lt_is_Some_2 (data R) p) as [x Hx]; [rewrite Hwf; lia|].
    rewrite Hx. f_equal. by apply nth_lookup_Some.
  - rewrite !lookup_ge_None_2; [done| |]; rewrite ?length_tabulate, ?Hwf; lia.
Qed.

(** ** Swapping two positions of a list *)

Lemma length_swap {A} i j (l : list A) : length (swap i j l) = length l.
Proof.
  unfold swap. destruct (l !! i), (l !! j); try done.
  by rewrite !length_insert.
Qed.

Lemma swap_lookup {A} i j (l : list A) p :
  i < length l -> j < length l -> swap i j l !! p = l !! swapped i j p.
Proof.
  intros Hi Hj. unfold swap, swapped.
  destruct (lookup_lt_is_Some_2 l i Hi) as [x Hx].
  destruct (lookup_lt_is_Some_2 l j Hj) as [y Hy].
  rewrite Hx, Hy.
  destruct (decide (p = i)) as [->|Hpi].
  - rewrite list_lookup_insert_eq by (rewrite length_insert; lia). done.
  - rewrite list_lookup_insert_ne by done.
    destruct (decide (p = j)) as [->|Hpj].
    + rewrite list_lookup_insert_eq by lia. done.
    + by rewrite list_lookup_insert_ne.
Qed.

Lemma inbounds_length s idx : inbounds s idx -> length idx = length s.
Proof. intros H. symmetry. by eapply Forall2_length. Qed.

Lemma inbounds_swap i j s idx :
  i < length s -> j < length s ->
  inbounds (swap i j s) idx -> inbounds s (swap i j idx).
Proof.
  intros Hi Hj H. pose proof (inbounds_length _ _ H) as Hlen.
  rewrite length_swap in Hlen.
  apply Forall2_same_length_lookup. split; [by rewrite length_swap|].
  intros p n v Hn Hv.
  rewrite swap_lookup in Hv by lia.
  apply Forall2_same_length_lookup in H as [_ H].
  apply (H (swapped i j p)); [|done].
  rewrite swap_lookup by lia.
  replace (swapped i j (swapped i j p)) with p; [done|].
  unfold swapped. repeat case_decide; lia.
Qed.

(** After swapping position [a] to the front, replacing the head is
    replacing position [a]. *)
Lemma swap_cons_insert {A} a (l : list A) x r v :
  a < length l -> swap a 0 l = x :: r -> swap a 0 (v :: r) = <[a := v]> l.
Proof.
  intros Ha Hsw.
  assert (Hlen : length (x :: r) = length l) by (by rewrite <- Hsw, length_swap).
  assert (Hl : forall q, (x :: r) !! q = l !! swapped a 0 q).
  { intros q. rewrite <- Hsw. apply swap_lookup; lia. }
  apply list_eq. intros p.
  rewrite swap_lookup by (simpl in *; lia).
  destruct (decide (p = a)) as [->|Hpa].
  - rewrite list_lookup_insert_eq by done.
    unfold swapped. by rewrite decide_True.
  - rewrite list_lookup_insert_ne by done.
    unfold swapped. rewrite decide_False by done.
    destruct (decide (p = 0)) as [->|Hp0].
    + destruct a as [|a]; [done|]. simpl.
      specialize (Hl (S a)). simpl in Hl. rewrite Hl.
      unfold swapped. by rewrite decide_True.
    + destruct p as [|p]; [done|]. simpl.
      specialize (Hl (S p)). simpl in Hl. rewrite Hl.
      unfold swapped. by rewrite !decide_False.
Qed.

Lemma swap_head {A} a (l : list A) x :
  l !! a = Some x -> exists r, swap a 0 l = x :: r.
Proof.
  intros Hx. pose proof (lookup_lt_Some _ _ _ Hx) as Ha.
  destruct (swap a 0 l) as [|y r] eqn:E.
  - apply (f_equal length) in E. rewrite length_swap in E. simpl in E. lia.
  - exists r. f_equal.
    assert (H0 : swap a 0 l !! 0 = Some x).
    { rewrite swap_lookup by lia. unfold swapped.
      destruct (decide (0 = a)) as [<-|]; [done|]. by rewrite decide_True. }
    rewrite E in H0. simpl in H0. congruence.
Qed.

(** ** reshape *)

Lemma filter_neg_of_nat (s : list nat) :
  filter (fun d => d < 0)%Z (Z.of_nat <$> s) = [].
Proof.
  induction s as [|n s IH]; [done|].
  rewrite fmap_cons, filter_cons_False by lia. done.
Qed.

Lemma filter_nonneg_of_nat (s : list nat) :
  filter (fun d => 0 <= d)%Z (Z.of_nat <$> s) = Z.of_nat <$> s.
Proof.
  induction s as [|n s IH]; [done|].
  rewrite fmap_cons, filter_cons_True by lia. by rewrite IH.
Qed.

Lemma to_nat_of_nat (s : list nat) : Z.to_nat <$> (Z.of_nat <$> s) = s.
Proof.
  induction s as [|n s IH]; [done|].
  rewrite !fmap_cons, IH, Nat2Z.id. done.
Qed.

Lemma reshape_known R (s : list nat) :
  size_of s = size_of (shape R) ->
  reshape R (Z.of_nat <$> s) = Ok (NDArray s (data R)).
Proof.
  intros Hs. unfold reshape.
  rewrite filter_neg_of_nat, filter_nonneg_of_nat, to_nat_of_nat. simpl.
  rewrite Hs, Nat.eqb_refl. done.
Qed.

Lemma reshape_rows R N M :
  0 < N -> size_of (shape R) = N * M ->
  reshape R [Z.of_nat N; (-1)%Z] = Ok (NDArray [N; M] (data R)).
Proof.
  intros HN Hs. unfold reshape.
  rewrite (filter_cons_False _ (Z.of_nat N)) by lia.
  rewrite (filter_cons_True _ (-1)%Z) by lia.
  rewrite (filter_cons_True _ (Z.of_nat N)) by lia.
  rewrite (filter_cons_False _ (-1)%Z) by lia.
  rewrite !filter_nil. simpl. rewrite Nat2Z.id, Nat.mul_1_r.
  destruct (N =? 0) eqn:E; [apply Nat.eqb_eq in E; exfalso; lia|].
  destruct (Z.ltb_spec (Z.of_nat N) 0); [lia|].
  rewrite Hs. simpl.
  replace (N * M) with (M * N) by lia.
  rewrite Nat.Div0.mod_mul, Nat.div_mul by lia. done.
Qed.

(** ** aggregate_fields *)

Lemma bind_ok {A B} (a : A) (f : A -> result B) : (Ok a ≫= f) = f a.
Proof. done. Qed.

Lemma reduction_dispatch method f (R_ : ndarray) (blocks : list Z) :
  reduction_of method = Some f ->
  (if String.eqb (lower method) "sum" then
     R3 ← reshape R_ blocks; reduce_axis np_sum 1 R3
   else if String.eqb (lower method) "mean" then
     R3 ← reshape R_ blocks; reduce_axis np_mean 1 R3
   else if String.eqb (lower method) "nansum" then
     R3 ← reshape R_ blocks; reduce_axis np_nansum 1 R3
   else if String.eqb (lower method) "nanmean" then
     R3 ← reshape R_ blocks; reduce_axis np_nanmean 1 R3
   else Raise (ValueError "unknown method %s" [AStr method]))
  = (R3 ← reshape R_ blocks; reduce_axis f 1 R3).
Proof.
  unfold reduction_of. intros H.
  repeat (destruct (String.eqb _ _); [by injection H as <-|]). done.
Qed.

Lemma window_blocks (N : nat) (w : Z) :
  (0 < w)%Z -> (Z.of_nat N mod w = 0)%Z ->
  N = N / Z.to_nat w * Z.to_nat w /\
  int_truediv (Z.of_nat N) w = Z.of_nat (N / Z.to_nat w).
Proof.
  intros Hw Hm. unfold int_truediv.
  rewrite Z.quot_div_nonneg by lia.
  remember (Z.to_nat w) as wn eqn:Hwn.
  assert (w = Z.of_nat wn) as -> by lia.
  rewrite <- Nat2Z.inj_mod in Hm. rewrite <- Nat2Z.inj_div.
  split; [|done].
  pose proof (Nat.div_mod_eq N wn). lia.
Qed.

Lemma shape_at_ok R axis N : shape R !! axis = Some N -> shape_at R axis = Ok N.
Proof. unfold shape_at. by intros ->. Qed.

Lemma int_mod_ok a b : b <> 0%Z -> int_mod a b = Ok (a mod b)%Z.
Proof. unfold int_mod. by destruct (Z.eqb_spec b 0). Qed.

Lemma aggregate_fields_spec R (w : Z) axis method f N :
  wf R -> shape R !! axis = Some N -> 0 < N -> (0 < w)%Z ->
  (Z.of_nat N mod w = 0)%Z -> reduction_of method = Some f ->
  exists R',
    aggregate_fields R w axis method = Ok R' /\ wf R' /\
    shape R' = <[axis := N / Z.to_nat w]> (shape R) /\
    forall idx k, inbounds (shape R') idx -> idx !! axis = Some k ->
      item R' idx =
      f ((fun u => item R (<[axis := k * Z.to_nat w + u]> idx)) <$> seq 0 (Z.to_nat w)).
Proof.
  intros Hwf HN Hpos Hw Hmod Hf.
  destruct (window_blocks N w Hw Hmod) as [HNK Hq].
  set (wn := Z.to_nat w) in *. set (K := N / wn) in *.
  assert (Hwn : 0 < wn) by (unfold wn; lia).
  assert (Hwz : w = Z.of_nat wn) by (unfold wn; lia).
  clearbody K wn.
  pose proof (lookup_lt_Some _ _ _ HN) as Hax.
  destruct (swap_head axis (shape R) N HN) as [T HT].
  unfold aggregate_fields.
  rewrite (shape_at_ok _ _ _ HN), bind_ok, int_mod_ok, bind_ok, Hmod by lia.
  simpl negb. cbv iota.
  set (R1 := swapaxes axis 0 R).
  assert (HR1 : shape R1 = N :: T) by (unfold R1, swapaxes; simpl; done).
  assert (HR1d : data R1 = tabulate (N :: T) (fun idx => item R (swap axis 0 idx)))
    by (unfold R1, swapaxes, build; simpl; by rewrite HT).
  clearbody R1.
  set (M := size_of T).
  rewrite (reshape_rows R1 N M), bind_ok by (rewrite ?HR1; done).
  rewrite (shape_at_ok _ 1 M), bind_ok by done.
  rewrite (reduction_dispatch _ f) by done.
  rewrite Hq.
  replace [Z.of_nat K; w; Z.of_nat M] with (Z.of_nat <$> [K; wn; M])
    by (simpl; by rewrite Hwz).
  rewrite reshape_known, bind_ok by (unfold size_of; simpl; nia).
  unfold reduce_axis.
  change (data {| shape := [N; M]; data := data R1 |}) with (data R1).
  set (R3 := {| shape := [K; wn; M]; data := data R1 |}).
  change (shape R3 !! 1) with (Some wn). cbv iota. rewrite bind_ok.
  change (delete 1 (shape R3)) with [K; M].
  set (g := fun idx : list nat => f ((fun u => item R3 (put_in 1 u idx)) <$> seq 0 wn)).
  rewrite HR1.
  change (<[0:=Z.of_nat K]> (Z.of_nat <$> N :: T)) with (Z.of_nat <$> K :: T).
  rewrite reshape_known, bind_ok by (unfold M, size_of; simpl; lia).
  eexists. split; [done|]. split; [apply wf_build|].
  assert (Hshape : swap axis 0 (K :: T) = <[axis:=K]> (shape R))
    by (by eapply swap_cons_insert).
  split; [exact Hshape|].
  intros idx k Hin Hk.
  change (inbounds (swap axis 0 (K :: T)) idx) in Hin.
  unfold swapaxes. rewrite item_build by done.
  assert (HlenT : length (K :: T) = length (shape R)).
  { rewrite <- (length_swap axis 0 (shape R)), HT. done. }
  assert (Hlen : length idx = length (shape R)).
  { apply inbounds_length in Hin. rewrite length_swap in Hin. congruence. }
  apply inbounds_swap in Hin; [|lia..].
  destruct (swap_head axis idx k Hk) as [r Hr].
  rewrite Hr in Hin |- *. apply Forall2_cons in Hin as [HkK Hin].
  pose proof (ravel_lt _ _ Hin) as Hj. fold M in Hj.
  unfold item at 1.
  change (shape {| shape := K :: T; data := data (build [K; M] g) |}) with (K :: T).
  change (data {| shape := K :: T; data := data (build [K; M] g) |})
    with (tabulate [K; M] g).
  replace (ravel (K :: T) (k :: r)) with (ravel [K; M] [k; ravel T r])
    by (simpl; fold (size_of T); fold M; lia).
  erewrite nth_lookup_Some; [|apply tabulate_lookup; repeat constructor; done].
  unfold g. f_equal. apply list_fmap_ext. intros i u Hu.
  apply lookup_seq in Hu as [-> Hu].
  change (put_in 1 (0 + i) [k; ravel T r]) with [k; 0 + i; ravel T r].
  unfold item at 1.
  change (shape R3) with [K; wn; M]. change (data R3) with (data R1).
  replace (ravel [K; wn; M] [k; 0 + i; ravel T r])
    with (ravel (N :: T) ((k * wn + i) :: r))
    by (simpl; fold (size_of T); fold M; lia).
  rewrite HR1d.
  erewrite nth_lookup_Some; [|apply tabulate_lookup; constructor; [nia|done]].
  f_equal. eapply swap_cons_insert; [lia|done].
Qed.

Lemma bind_raise {A B} (e : exn) (f : A -> result B) : (Raise e ≫= f) = Raise e.
Proof. done. Qed.

Lemma aggregate_fields_uneven R (w : Z) axis method N :
  shape R !! axis = Some N -> w <> 0%Z -> (Z.of_nat N mod w)%Z <> 0%Z ->
  aggregate_fields R w axis method =
  Raise (ValueError "window_size %i does not equally split R.shape[axis] %i"
                    [AInt w; AInt (Z.of_nat N)]).
Proof.
  intros HN Hw Hmod. unfold aggregate_fields.
  rewrite (shape_at_ok _ _ _ HN), bind_ok, int_mod_ok, bind_ok by done.
  by destruct (Z.eqb_spec (Z.of_nat N mod w) 0).
Qed.

Lemma reshape_rows_empty R : reshape R [0%Z; (-1)%Z] = Raise (ValueError "cannot reshape array" []).
Proof.
  unfold reshape.
  rewrite (filter_cons_False _ 0%Z) by lia.
  rewrite (filter_cons_True _ (-1)%Z) by lia.
  rewrite (filter_cons_True _ 0%Z) by lia.
  rewrite (filter_cons_False _ (-1)%Z) by lia.
  done.
Qed.

Lemma reshape_two_unknown R (q w M : Z) :
  (q < 0)%Z -> (w < 0)%Z ->
  reshape R [q; w; M] = Raise (ValueError "can only specify one unknown dimension" []).
Proof.
  intros Hq Hw. unfold reshape.
  rewrite (filter_cons_True (fun d => d < 0)%Z q) by lia.
  rewrite (filter_cons_True (fun d => d < 0)%Z w) by lia.
  done.
Qed.

Lemma reduction_dispatch_none method (R_ : ndarray) (blocks : list Z) :
  reduction_of method = None ->
  is_ok (if String.eqb (lower method) "sum" then
           R3 ← reshape R_ blocks; reduce_axis np_sum 1 R3
         else if String.eqb (lower method) "mean" then
           R3 ← reshape R_ blocks; reduce_axis np_mean 1 R3
         else if String.eqb (lower method) "nansum" then
           R3 ← reshape R_ blocks; reduce_axis np_nansum 1 R3
         else if String.eqb (lower method) "nanmean" then
           R3 ← reshape R_ blocks; reduce_axis np_nanmean 1 R3
         else Raise (ValueError "unknown method %s" [AStr method])) = false.
Proof.
  unfold reduction_of. intros H.
  repeat (destruct (String.eqb _ _); [discriminate H|]). done.
Qed.

(** A call that returns had a positive window dividing a non-zero
    extent, and a known method. *)
Lemma aggregate_fields_ok_inv R (w : Z) axis method R' :
  aggregate_fields R w axis method = Ok R' ->
  exists N f, shape R !! axis = Some N /\ 0 < N /\ (0 < w)%Z /\
              (Z.of_nat N mod w = 0)%Z /\ reduction_of method = Some f.
Proof.
  unfold aggregate_fields. intros H.
  destruct (shape_at R axis) as [N|] eqn:HN; [|discriminate H].
  unfold shape_at in HN.
  destruct (shape R !! axis) as [N'|] eqn:HN'; [|discriminate HN].
  injection HN as ->.
  rewrite bind_ok in H. unfold int_mod in H.
  destruct (Z.eqb_spec w 0) as [|Hw0]; [discriminate H|].
  rewrite bind_ok in H.
  destruct (Z.eqb_spec (Z.of_nat N mod w) 0) as [Hmod|]; [|discriminate H].
  simpl negb in H. cbv iota in H.
  destruct (swap_head axis (shape R) N HN') as [T HT].
  destruct (decide (N = 0)) as [->|HN0].
  { change (Z.of_nat 0) with 0%Z in H. rewrite reshape_rows_empty in H. discriminate H. }
  rewrite (reshape_rows _ N (size_of T)), bind_ok in H
    by (try lia; unfold swapaxes; simpl; by rewrite HT).
  rewrite (shape_at_ok _ 1 (size_of T)), bind_ok in H by done.
  destruct (reduction_of method) as [f|] eqn:Hf.
  - exists N, f. repeat split; try done; try lia.
    destruct (decide (0 < w)%Z) as [|Hneg]; [done|exfalso].
    rewrite (reduction_dispatch _ f) in H by done.
    rewrite reshape_two_unknown, bind_raise, bind_raise in H; [discriminate H| |lia].
    unfold int_truediv.
    assert (Z.of_nat N = w * (Z.of_nat N / w))%Z
      by (apply Z.div_exact; lia).
    assert (Z.quot (Z.of_nat N) w = - Z.quot (Z.of_nat N) (- w))%Z as ->
      by (rewrite Z.quot_opp_r by lia; lia).
    assert (0 < Z.quot (Z.of_nat N) (- w))%Z; [|lia].
    rewrite Z.quot_div_nonneg by lia.
    apply Z.div_str_pos. split; [lia|].
    assert (Z.of_nat N / w <= -1)%Z; nia.
  - apply (reduction_dispatch_none _ {| shape := [N; size_of T];
             data := data (swapaxes axis 0 R) |}
             [int_truediv (Z.of_nat N) w; w; Z.of_nat (size_of T)]) in Hf.
    destruct (if String.eqb (lower method) "sum" then _ else _); [discriminate Hf|].
    discriminate H.
Qed.

Lemma aggregate_fields_unknown R (w : Z) axis method N :
  shape R !! axis = Some N -> 0 < N -> (0 < w)%Z ->
  (Z.of_nat N mod w = 0)%Z -> reduction_of method = None ->
  aggregate_fields R w axis method = Raise (ValueError "unknown method %s" [AStr method]).
Proof.
  intros HN Hpos Hw Hmod Hf.
  destruct (swap_head axis (shape R) N HN) as [T HT].
  unfold aggregate_fields.
  rewrite (shape_at_ok _ _ _ HN), bind_ok, int_mod_ok, bind_ok, Hmod by lia.
  simpl negb. cbv iota.
  rewrite (reshape_rows _ N (size_of T)), bind_ok
    by (try lia; unfold swapaxes; simpl; by rewrite HT).
  rewrite (shape_at_ok _ 1 (size_of T)), bind_ok by done.
  unfold reduction_of in Hf.
  repeat (destruct (String.eqb _ _); [discriminate Hf|]). done.
Qed.

(** ** Strided slices *)

Lemma every_lookup {A} (step k : nat) (l : list A) j :
  0 < step -> every step k l !! j = l !! (k + j * step).
Proof.
  intros Hs. revert k j. induction l as [|x r IH]; intros k j; [done|].
  simpl. destruct k as [|k].
  - destruct j as [|j]; [done|]. simpl. rewrite IH.
    replace (step + j * step) with (S (step - 1 + j * step)) by lia. done.
  - by rewrite IH.
Qed.

Lemma slice_step_lookup {A} (start step : Z) (l l' : list A) k :
  (0 < step)%Z -> (0 <= start)%Z -> slice_step start step l = Ok l' ->
  l' !! k = l !! (Z.to_nat start + k * Z.to_nat step).
Proof.
  intros Hstep Hstart. unfold slice_step.
  destruct (Z.eqb_spec step 0); [lia|].
  destruct (Z.ltb_spec 0 step); [|lia].
  destruct (Z.ltb_spec start 0); [lia|].
  intros [= <-]. rewrite every_lookup by lia.
  destruct (Z.min_spec start (Z.of_nat (length l))) as [[_ ->]|[Hge ->]]; [done|].
  rewrite !lookup_ge_None_2; [done|lia..].
Qed.

Lemma chars_unchars l : chars (unchars l) = l.
Proof. induction l as [|c l IH]; simpl; [done|by rewrite IH]. Qed.

(** ** Rounding to binary64 *)





Lemma b64_zero q : (q == 0)%Q -> b64 q = 0%Q.
Proof. intros H. unfold b64. apply Qeq_bool_iff in H. by rewrite H. Qed.





(** ** aggregate_fields_time *)

Ltac inv_bind H :=
  lazymatch type of H with
  | (?m ≫= _) = Ok _ =>
      let E := fresh "E" in
      destruct m eqn:E; [rewrite bind_ok in H | discriminate H]
  end.

Ltac inv_if H :=
  lazymatch type of H with
  | (if ?b then _ else _) = Ok _ =>
      let E := fresh "E" in
      destruct b eqn:E
  end.

Lemma dget_ok md k v : dget md k = Ok v -> md !! k = Some v.
Proof. unfold dget. destruct (md !! k); [by intros [= ->]|discriminate]. Qed.

Lemma delta_seconds_ok a b z :
  delta_seconds a b = Ok z -> exists x y, a = VTime x /\ b = VTime y.
Proof. destruct a, b; try discriminate. eauto. Qed.

Lemma vitem_time_seq v i x : vitem v i = Ok (VTime x) -> exists l, v = VSeq l.
Proof.
  destruct v as [s| | | |l]; try discriminate; [|eauto].
  unfold vitem, as_seq. rewrite bind_ok.
  destruct (_ !! i) as [y|] eqn:E; [|discriminate].
  apply list_lookup_fmap_Some in E as (c & -> & _). discriminate.
Qed.

Lemma aggregate_fields_time_inv R md w R' md' :
  aggregate_fields_time R md (Some w) = Ok (R', md') ->
  exists unit_ l delta,
    md !! "unit" = Some unit_ /\ md !! "timestamps" = Some (VSeq l) /\
    sampling_interval md = Ok delta /\
    shape R !! time_axis R = Some (length l) /\
    ((Qeq_bool delta w = true /\ R' = R /\ md' = md) \/
     (Qeq_bool delta w = false /\ Qeq_bool delta 0 = false /\
      exists r method ts,
        let nframes := block_size w delta in
        let md2 := <["timestamps" := ts]> (<["accutime" := VNum w]> md) in
        float_mod (time_span (length l) delta) w = Ok r /\
        Qeq_bool r 0 = true /\
        method_of_unit unit_ = Ok method /\
        aggregate_fields R nframes (time_axis R) method = Ok R' /\
        vslice_step (nframes - 1) nframes (VSeq l) = Ok ts /\
        ((md !! "leadtimes" = None /\ md' = md2) \/
         (exists lt lt', md !! "leadtimes" = Some lt /\
                         vslice_step (nframes - 1) nframes lt = Ok lt' /\
                         md' = <["leadtimes" := lt']> md2)))).
Proof.
  unfold aggregate_fields_time. intros H.
  inv_bind H. inv_bind H. rename a into unit_, a0 into timestamps.
  apply dget_ok in E, E0.
  inv_if H; [discriminate H|]. inv_if H; [discriminate H|].
  fold (time_axis R) in H.
  inv_bind H. rename a into N. inv_bind H. rename a into n_ts.
  inv_if H; [discriminate H|].
  apply negb_false_iff, Nat.eqb_eq in E5. subst n_ts.
  inv_bind H. rename a into t1. inv_bind H. rename a into t0.
  inv_bind H. rename a into secs.
  destruct (delta_seconds_ok _ _ _ E7) as (x & y & -> & ->).
  destruct (vitem_time_seq _ _ _ E5) as [l ->].
  unfold vlen in E4. simpl in E4. injection E4 as <-.
  unfold shape_at in E3.
  destruct (shape R !! time_axis R) as [N'|] eqn:HN; [|discriminate E3].
  injection E3 as ->.
  exists unit_, l, (b64 (inject_Z secs / 60)).
  split; [done|]. split; [done|]. split.
  { unfold sampling_interval, dget. rewrite E0, bind_ok, E5, bind_ok, E6, bind_ok, E7.
    done. }
  split; [done|].
  inv_if H.
  { left. injection H as <- <-. done. }
  right. split; [done|].
  inv_bind H. rename a into r. inv_if H; [discriminate H|].
  apply negb_false_iff in E8.
  inv_bind H. rename a into q.
  unfold float_div in E9.
  destruct (Qeq_bool (b64 (inject_Z secs / 60)) 0) eqn:Hd0; [discriminate E9|].
  injection E9 as <-. split; [done|].
  inv_bind H. rename a into method. inv_bind H. rename a into R2.
  inv_bind H. rename a into ts.
  exists r, method, ts. simpl.
  rewrite !lookup_insert_ne in H by done.
  destruct (md !! "leadtimes") as [lt|] eqn:Hlt.
  - inv_bind H. injection H as <- <-.
    repeat (split; [done|]). right. eauto.
  - injection H as <- <-. repeat (split; [done|]). by left.
Qed.


Lemma method_of_unit_ok unit_ method :
  method_of_unit unit_ = Ok method ->
  (veq_str unit_ "mm/h" = true /\ method = "mean") \/
  (veq_str unit_ "mm/h" = false /\ veq_str unit_ "mm" = true /\ method = "sum").
Proof.
  unfold method_of_unit.
  destruct (veq_str unit_ "mm/h"); [intros [= <-]; by left|].
  destruct (veq_str unit_ "mm"); [intros [= <-]; by right|discriminate].
Qed.










Lemma veq_str_true v s : veq_str v s = true -> v = VStr s.
Proof.
  destruct v; try discriminate. simpl. intros H.
  apply String.eqb_eq in H. by subst.
Qed.

Lemma method_of_unit_method unit_ method :
  method_of_unit unit_ = Ok method -> unit_method unit_ method.
Proof.
  intros H. apply method_of_unit_ok in H as [[H ->]|(_ & H & ->)];
    apply veq_str_true in H; [by left|by right].
Qed.

Lemma veq_float_true v w :
  veq_float v w = true -> exists q, as_float v = Ok q /\ Qeq_bool q w = true.
Proof. destruct v; try discriminate; simpl; eauto. Qed.

Lemma aggregate_fields_time_method R md w R' md' :
  aggregate_fields_time R md (Some w) = Ok (R', md') ->
  (time_noop md w /\ R' = R /\ md' = md) \/
  exists unit_ method nframes,
    md !! "unit" = Some unit_ /\ unit_method unit_ method /\
    aggregate_fields R nframes (time_axis R) method = Ok R'.
Proof.
  intros H. apply aggregate_fields_time_inv in H
    as (unit_ & l & delta & Hu & _ & Hd & _ & [(Heq & -> & ->)|(_ & _ & H)]).
  { left. split; [by exists delta|done]. }
  destruct H as (r & method & ts & _ & _ & Hm & Hagg & _).
  right. exists unit_, method, (block_size w delta).
  split; [done|]. split; [by apply method_of_unit_method|done].
Qed.

Lemma aggregate_fields_space_method R md w R' md' :
  aggregate_fields_space R md (Some w) = Ok (R', md') ->
  (space_noop md w /\ R' = R /\ md' = md) \/
  exists unit_ method ny nx Ry,
    md !! "unit" = Some unit_ /\ unit_method unit_ method /\
    aggregate_fields R ny (space_axes R).1 method = Ok Ry /\
    aggregate_fields Ry nx (space_axes R).2 method = Ok R'.
Proof.
  unfold aggregate_fields_space. intros H.
  inv_bind H. rename a into unit_. apply dget_ok in E.
  inv_bind H. rename a into py. apply dget_ok in E0.
  inv_bind H. rename a into px. apply dget_ok in E1.
  inv_if H; [discriminate H|]. inv_if H; [discriminate H|].
  fold (space_axes R) in H.
  inv_if H.
  { injection H as <- <-. left. split; [|done].
    apply andb_prop in E4 as [Hy Hx].
    apply veq_float_true in Hy as (y & Hy & Hyw).
    apply veq_float_true in Hx as (x & Hx & Hxw).
    by exists py, px, y, x. }
  do 5 inv_bind H. inv_if H; [discriminate H|].
  do 7 inv_bind H. injection H as <- <-.
  match goal with
  | Hm : method_of_unit _ = Ok _ |- _ => apply method_of_unit_method in Hm
  end.
  right. do 5 eexists.
  split; [exact E|]. split; [eassumption|]. split; eassumption.
Qed.

Lemma inbounds4 n t Y X idx :
  inbounds [n; t; Y; X] idx ->
  exists i j y x, idx = [i; j; y; x] /\ i < n /\ j < t /\ y < Y /\ x < X.
Proof.
  intros H.
  apply Forall2_cons_inv_l in H as (i & idx1 & Hi & H & ->).
  apply Forall2_cons_inv_l in H as (j & idx2 & Hj & H & ->).
  apply Forall2_cons_inv_l in H as (y & idx3 & Hy & H & ->).
  apply Forall2_cons_inv_l in H as (x & idx4 & Hx & H & ->).
  apply Forall2_nil_inv_l in H as ->.
  exists i, j, y, x. done.
Qed.

Lemma inbounds4_intro n t Y X i j y x :
  i < n -> j < t -> y < Y -> x < X -> inbounds [n; t; Y; X] [i; j; y; x].
Proof. intros. by repeat constructor. Qed.

Lemma inbounds2 Y X r :
  inbounds [Y; X] r -> exists y x, r = [y; x] /\ y < Y /\ x < X.
Proof.
  intros H.
  apply Forall2_cons_inv_l in H as (y & idx3 & Hy & H & ->).
  apply Forall2_cons_inv_l in H as (x & idx4 & Hx & H & ->).
  apply Forall2_nil_inv_l in H as ->. eauto.
Qed.

(** ** squeeze and promotion *)

Lemma not_elem_of_squeeze R : 1 ∉ shape (squeeze R).
Proof. unfold squeeze. simpl. rewrite list_elem_of_filter. tauto. Qed.

Lemma ravel_squeeze_index s idx :
  inbounds s idx ->
  ravel (filter (fun n => n ≠ 1) s) (squeeze_index s idx) = ravel s idx.
Proof.
  induction 1 as [|n i s idx Hi _ IH]; [done|].
  simpl. destruct (decide (n = 1)) as [->|Hn].
  - rewrite filter_cons_False by tauto. rewrite IH. lia.
  - rewrite filter_cons_True by done. simpl.
    rewrite IH. f_equal. f_equal.
    clear. induction s as [|m s IH]; [done|].
    destruct (decide (m = 1)) as [->|Hm].
    + rewrite filter_cons_False by tauto. simpl. fold (size_of s). lia.
    + rewrite filter_cons_True by done. simpl.
      fold (size_of s). fold (size_of (filter (λ n : nat, n ≠ 1) s)). lia.
Qed.

Lemma item_squeeze R idx :
  inbounds (shape R) idx -> item (squeeze R) (squeeze_index (shape R) idx) = item R idx.
Proof. intros H. unfold item, squeeze. simpl. by rewrite ravel_squeeze_index. Qed.

Lemma filter_lead_after_squeeze n t s :
  filter (fun n => n ≠ 1) ((lead_after_squeeze n t).1 :: (lead_after_squeeze n t).2 :: s)
  = filter (fun n => n ≠ 1) (n :: t :: s).
Proof.
  unfold lead_after_squeeze. destruct (decide _) as [[Hn ->]|]; [|done]. simpl.
  rewrite (filter_cons_False _ 1) by tauto.
  rewrite (filter_cons_True _ n) by done.
  rewrite (filter_cons_True _ n) by done.
  rewrite (filter_cons_False _ 1) by tauto. done.
Qed.

Lemma promote_squeeze msg n t Y X d :
  Y <> 1 -> X <> 1 ->
  promote msg (squeeze (NDArray [n; t; Y; X] d))
  = Ok (NDArray [(lead_after_squeeze n t).1; (lead_after_squeeze n t).2; Y; X] d).
Proof.
  intros HY HX. unfold squeeze, lead_after_squeeze. simpl shape. simpl data.
  assert (Hyx : forall l : list nat, filter (fun n => n ≠ 1) (l ++ [Y; X])%list
                          = (filter (fun n => n ≠ 1) l ++ [Y; X])%list).
  { intros l. rewrite filter_app. f_equal.
    by rewrite (filter_cons_True _ Y), (filter_cons_True _ X), filter_nil. }
  change [n; t; Y; X] with ([n; t] ++ [Y; X])%list. rewrite Hyx.
  destruct (decide (n = 1)) as [->|Hn], (decide (t = 1)) as [->|Ht].
  - rewrite !(filter_cons_False _ 1) by tauto.
    rewrite decide_False by tauto. done.
  - rewrite (filter_cons_False _ 1) by tauto. rewrite (filter_cons_True _ t) by done.
    rewrite decide_False by tauto. done.
  - rewrite (filter_cons_True _ n) by done. rewrite (filter_cons_False _ 1) by tauto.
    rewrite decide_True by tauto. done.
  - rewrite (filter_cons_True _ n), (filter_cons_True _ t) by done.
    rewrite decide_False by tauto. done.
Qed.

Lemma promote_rank R msg lead Y X :
  shape R = (lead ++ [Y; X])%list -> length lead <= 2 ->
  exists n t, promote msg R = Ok (NDArray [n; t; Y; X] (data R)) /\
              [n; t] = (replicate (2 - length lead) 1 ++ lead)%list.
Proof.
  intros Hs Hl. destruct R as [s d]. simpl in *. subst s.
  destruct lead as [|a [|b [|c lead]]]; simpl in Hl; [| | |lia].
  - by exists 1, 1.
  - by exists 1, a.
  - by exists a, b.
Qed.

Lemma size_of_squeeze s : size_of (filter (fun n => n ≠ 1) s) = size_of s.
Proof.
  induction s as [|m s IH]; [done|].
  destruct (decide (m = 1)) as [->|Hm].
  - rewrite filter_cons_False by tauto. rewrite IH. simpl. fold (size_of s). lia.
  - rewrite filter_cons_True by done. simpl.
    fold (size_of s). fold (size_of (filter (fun n => n ≠ 1) s)). by rewrite IH.
Qed.

Lemma filter_promoted lead n t (s : list nat) :
  [n; t] = (replicate (2 - length lead) 1 ++ lead)%list ->
  filter (fun n => n ≠ 1) (n :: t :: s) = filter (fun n => n ≠ 1) (lead ++ s)%list.
Proof.
  intros H. change (n :: t :: s) with ([n; t] ++ s)%list. rewrite H.
  rewrite !filter_app. f_equal.
  replace (filter (fun n => n ≠ 1) (replicate (2 - length lead) 1)) with (@nil nat); [done|].
  clear H. induction (2 - length lead) as [|k IH]; [done|].
  change (replicate (S k) 1) with (1 :: replicate k 1).
  by rewrite filter_cons_False by tauto.
Qed.

Lemma size_promoted lead n t (s : list nat) :
  [n; t] = (replicate (2 - length lead) 1 ++ lead)%list ->
  size_of (n :: t :: s) = size_of (lead ++ s)%list.
Proof.
  intros H. rewrite <- size_of_squeeze, (filter_promoted lead) by done.
  apply size_of_squeeze.
Qed.

(** The index into the promoted array of an index into the field. *)
Lemma promoted_index lead oy ox n t idx :
  length lead <= 2 -> [n; t] = (replicate (2 - length lead) 1 ++ lead)%list ->
  inbounds (lead ++ [oy; ox])%list idx ->
  exists i j y x,
    i < n /\ j < t /\ y < oy /\ x < ox /\
    (exists l, idx = (l ++ [y; x])%list) /\
    ravel [n; t; oy; ox] [i; j; y; x] = ravel (lead ++ [oy; ox])%list idx.
Proof.
  intros Hl Hnt Hin.
  destruct lead as [|a [|b [|c lead]]]; simpl in Hl; [| | |lia];
    simpl in Hnt; injection Hnt as -> ->; simpl app in Hin.
  - apply inbounds2 in Hin as (y & x & -> & Hy & Hx).
    exists 0, 0, y, x. repeat split; try lia. by exists [].
  - apply Forall2_cons_inv_l in Hin as (j & r & Hj & Hin & ->).
    apply inbounds2 in Hin as (y & x & -> & Hy & Hx).
    exists 0, j, y, x. repeat split; try lia. by exists [j].
  - apply inbounds4 in Hin as (i & j & y & x & -> & Hi & Hj & Hy & Hx).
    exists i, j, y, x. repeat split; try lia. by exists [i; j].
Qed.

Lemma flat_map_seq_ext {A} (f g : nat -> list A) a n :
  (forall i, a <= i < a + n -> f i = g i) ->
  flat_map f (seq a n) = flat_map g (seq a n).
Proof.
  revert a. induction n as [|n IH]; intros a H; [done|].
  simpl. rewrite H by lia. f_equal. apply IH. intros i Hi. apply H. lia.
Qed.

Lemma tabulate_lead n t s (f g : list nat -> num) :
  (forall i j r, i < n -> j < t -> inbounds s r ->
                 g (lead_index n t i j ++ r)%list = f (i :: j :: r)) ->
  tabulate ((lead_after_squeeze n t).1 :: (lead_after_squeeze n t).2 :: s) g
  = tabulate (n :: t :: s) f.
Proof.
  unfold lead_after_squeeze, lead_index. intros H.
  destruct (decide (n <> 1 /\ t = 1)) as [[Hn ->]|_].
  - simpl. rewrite app_nil_r. apply flat_map_seq_ext. intros i Hi.
    rewrite app_nil_r. apply tabulate_ext. intros r Hr. apply (H i 0 r); [lia|lia|done].
  - apply tabulate_ext. intros idx Hidx.
    apply Forall2_cons_inv_l in Hidx as (i & idx' & Hi & Hidx & ->).
    apply Forall2_cons_inv_l in Hidx as (j & r & Hj & Hr & ->).
    by apply (H i j r).
Qed.

Lemma ravel_lead n t i j Y X y x :
  ravel [(lead_after_squeeze n t).1; (lead_after_squeeze n t).2; Y; X]
        (lead_index n t i j ++ [y; x])%list
  = ravel [n; t; Y; X] [i; j; y; x] \/ ~ j < t.
Proof.
  unfold lead_after_squeeze, lead_index.
  destruct (decide (n <> 1 /\ t = 1)) as [[Hn ->]|_]; [|by left].
  destruct (decide (j < 1)); [left|by right].
  assert (j = 0) as -> by lia. simpl. lia.
Qed.

(** [squeeze] and promotion do not change what a slice holds. *)
Lemma getitem_yx_lead n t Y X d sy sx :
  let a := (lead_after_squeeze n t).1 in
  let b := (lead_after_squeeze n t).2 in
  exists dd,
    getitem_yx (NDArray [n; t; Y; X] d) sy sx
    = Ok (NDArray [n; t; (span sy Y).2; (span sx X).2] dd) /\
    getitem_yx (NDArray [a; b; Y; X] d) sy sx
    = Ok (NDArray [a; b; (span sy Y).2; (span sx X).2] dd).
Proof.
  intros a b. subst a b. unfold getitem_yx. simpl shape. cbv iota beta.
  destruct (span sy Y) as [y0 ly], (span sx X) as [x0 lx]. cbn [fst snd].
  unfold build. eexists. split; [reflexivity|]. do 2 f_equal.
  apply tabulate_lead. intros i j r Hi Hj Hr.
  apply inbounds2 in Hr as (y & x & -> & Hy & Hx).
  destruct (ravel_lead n t i j Y X (y0 + y) (x0 + x)) as [Hr|]; [|done].
  unfold lead_index in *. unfold item. simpl shape. simpl data.
  destruct (decide (n <> 1 /\ t = 1)); simpl app in *; cbv iota; by rewrite Hr.
Qed.

Lemma setitem_yx_lead n t Y X dd sy sx Y' X' ds :
  let a := (lead_after_squeeze n t).1 in
  let b := (lead_after_squeeze n t).2 in
  setitem_yx (NDArray [a; b; Y; X] dd) sy sx (NDArray [a; b; Y'; X'] ds)
  = (r ← setitem_yx (NDArray [n; t; Y; X] dd) sy sx (NDArray [n; t; Y'; X'] ds);
     Ok (NDArray [a; b; Y; X] (data r))).
Proof.
  intros a b. subst a b. unfold setitem_yx. simpl shape. cbv iota beta.
  destruct (span sy Y) as [y0 ly], (span sx X) as [x0 lx].
  simpl forallb. rewrite !Nat.eqb_refl. simpl orb.
  destruct ((Y' =? ly) || (Y' =? 1)); [|done].
  destruct ((X' =? lx) || (X' =? 1)); [|done].
  simpl andb. cbv iota. rewrite bind_ok. unfold build. cbn [data].
  do 2 f_equal. apply tabulate_lead. intros i j r Hi Hj Hr.
  apply inbounds2 in Hr as (y & x & -> & Hy & Hx).
  unfold lead_index, lead_after_squeeze.
  destruct (decide (n <> 1 /\ t = 1)) as [[Hn ->]|_]; [|done].
  assert (j = 0) as -> by lia. simpl app. cbv iota.
  unfold item. simpl shape. simpl data. simpl ravel.
  destruct (_ && _); f_equal; unfold bcast; simpl; lia.
Qed.

Lemma zeros_lead n t s :
  data (zeros ((lead_after_squeeze n t).1 :: (lead_after_squeeze n t).2 :: s))
  = data (zeros (n :: t :: s)).
Proof. unfold zeros, build. cbn [data]. by apply tabulate_lead. Qed.

Lemma span_bound sl n : (span sl n).1 + (span sl n).2 <= n.
Proof.
  destruct sl as [|a b]; unfold span; cbn [fst snd]; [lia|].
  destruct (Z.ltb_spec a 0), (Z.ltb_spec b 0); lia.
Qed.

Lemma span_window (b : Z) (len n : nat) :
  (0 <= b)%Z -> Z.to_nat b + len <= n ->
  span (Range b (b + Z.of_nat len)) n = (Z.to_nat b, len).
Proof.
  intros Hb Hn. unfold span.
  destruct (Z.ltb_spec b 0); [lia|].
  destruct (Z.ltb_spec (b + Z.of_nat len) 0); [lia|].
  f_equal; lia.
Qed.

Lemma half_diff_nat (a b : nat) :
  b <= a -> (0 <= half_diff (Z.of_nat a) (Z.of_nat b))%Z /\
            Z.to_nat (half_diff (Z.of_nat a) (Z.of_nat b)) + b <= a.
Proof.
  intros H. unfold half_diff.
  rewrite Z.quot_div_nonneg by lia.
  pose proof (Z.div_pos (Z.of_nat a - Z.of_nat b) 2 ltac:(lia) ltac:(lia)).
  split; [done|].
  pose proof (Z.mul_div_le (Z.of_nat a - Z.of_nat b) 2 ltac:(lia)). lia.
Qed.

Lemma bcast_id n i : i < n -> bcast n i = i.
Proof. unfold bcast. destruct (Nat.eqb_spec n 1); lia. Qed.

(** Reading back the window that was assigned gives the source. *)
Lemma getitem_setitem_yx n t Y X dd sy sx ds :
  length ds = size_of [n; t; (span sy Y).2; (span sx X).2] ->
  exists r,
    setitem_yx (NDArray [n; t; Y; X] dd) sy sx
               (NDArray [n; t; (span sy Y).2; (span sx X).2] ds)
    = Ok (NDArray [n; t; Y; X] r) /\
    getitem_yx (NDArray [n; t; Y; X] r) sy sx
    = Ok (NDArray [n; t; (span sy Y).2; (span sx X).2] ds).
Proof.
  intros Hlen.
  pose proof (span_bound sy Y) as HbY. pose proof (span_bound sx X) as HbX.
  unfold setitem_yx, getitem_yx. simpl shape. cbv iota beta.
  destruct (span sy Y) as [y0 ly], (span sx X) as [x0 lx]. cbn [fst snd] in *.
  simpl forallb. rewrite !Nat.eqb_refl. simpl. unfold build.
  eexists. split; [reflexivity|]. do 2 f_equal.
  transitivity (tabulate [n; t; ly; lx] (item (NDArray [n; t; ly; lx] ds)));
    [|by apply (tabulate_item (NDArray [n; t; ly; lx] ds))].
  apply tabulate_ext. intros idx Hidx.
  apply inbounds4 in Hidx as (i & j & y & x & -> & Hi & Hj & Hy & Hx).
  rewrite (item_tabulate [n; t; Y; X]) by (apply inbounds4_intro; lia).
  destruct (Nat.leb_spec y0 (y0 + y)); [|lia].
  destruct (Nat.ltb_spec (y0 + y) (y0 + ly)); [|lia].
  destruct (Nat.leb_spec x0 (x0 + x)); [|lia].
  destruct (Nat.ltb_spec (x0 + x) (x0 + lx)); [|lia].
  simpl andb. cbv iota.
  rewrite !bcast_id by lia.
  by replace (y0 + y - y0) with y by lia; replace (x0 + x - x0) with x by lia.
Qed.

(** Assigning a slice into zeros gives the array with the rest zeroed. *)
Lemma setitem_getitem_yx n t Y X d sy sx :
  exists c r,
    getitem_yx (NDArray [n; t; Y; X] d) sy sx
    = Ok (NDArray [n; t; (span sy Y).2; (span sx X).2] c) /\
    setitem_yx (zeros [n; t; Y; X]) sy sx (NDArray [n; t; (span sy Y).2; (span sx X).2] c)
    = Ok (NDArray [n; t; Y; X] r) /\
    length r = size_of [n; t; Y; X] /\
    forall i j y x, i < n -> j < t -> y < Y -> x < X ->
      item (NDArray [n; t; Y; X] r) [i; j; y; x]
      = if ((span sy Y).1 <=? y) && (y <? (span sy Y).1 + (span sy Y).2)
           && ((span sx X).1 <=? x) && (x <? (span sx X).1 + (span sx X).2)
        then item (NDArray [n; t; Y; X] d) [i; j; y; x]
        else nzero.
Proof.
  pose proof (span_bound sy Y) as HbY. pose proof (span_bound sx X) as HbX.
  unfold setitem_yx, getitem_yx. simpl shape. cbv iota beta.
  destruct (span sy Y) as [y0 ly], (span sx X) as [x0 lx]. cbn [fst snd] in *.
  simpl forallb. rewrite !Nat.eqb_refl. simpl orb. simpl andb. cbv iota.
  unfold build. eexists. eexists. split; [reflexivity|]. split; [reflexivity|].
  split; [apply length_tabulate|].
  intros i j y x Hi Hj Hy Hx.
  rewrite (item_tabulate [n; t; Y; X]) by (apply inbounds4_intro; lia).
  destruct ((y0 <=? y) && (y <? y0 + ly) && (x0 <=? x) && (x <? x0 + lx)) eqn:E.
  - apply andb_prop in E as [E Hx2]. apply andb_prop in E as [E Hx1].
    apply andb_prop in E as [Hy1 Hy2].
    apply Nat.leb_le in Hy1, Hx1. apply Nat.ltb_lt in Hy2, Hx2.
    rewrite !bcast_id by lia.
    rewrite (item_tabulate [n; t; ly; lx]) by (apply inbounds4_intro; lia).
    by replace (y0 + (y - y0)) with y by lia; replace (x0 + (x - x0)) with x by lia.
  - unfold zeros. by rewrite item_build by (apply inbounds4_intro; lia).
Qed.

(** ** Metadata updates of square_domain *)

Lemma arith_closed fz fq : closed_on_numbers (arith fz fq).
Proof. intros [] [] Ha Hb; try discriminate; simpl; eauto. Qed.

Lemma numeric_insert_ne md k k' v :
  k <> k' -> numeric md k' -> numeric (<[k := v]> md) k'.
Proof. intros Hk (x & Hx & Hn). exists x. by rewrite lookup_insert_ne. Qed.

Lemma numeric_delete_ne md k k' :
  k <> k' -> numeric md k' -> numeric (delete k md) k'.
Proof. intros Hk (x & Hx & Hn). exists x. by rewrite lookup_delete_ne. Qed.

Lemma shift_bound_numeric op k p idx md :
  closed_on_numbers op -> numeric md k -> numeric md p ->
  exists md', shift_bound op k p idx md = Ok md' /\
              forall k', numeric md k' -> numeric md' k'.
Proof.
  intros Hop (b & Hb & Hbn) (q & Hq & Hqn). unfold shift_bound, dget.
  rewrite Hb, bind_ok, Hq, bind_ok.
  destruct (arith_closed Z.mul Qmult (VInt idx) q eq_refl Hqn) as (d & Hd & Hdn).
  unfold vmul. rewrite Hd, bind_ok.
  destruct (Hop b d Hbn Hdn) as (v & Hv & Hvn).
  rewrite Hv, bind_ok. eexists. split; [done|].
  intros k' Hk'. destruct (decide (k = k')) as [<-|Hne].
  - exists v. by rewrite lookup_insert_eq.
  - by apply numeric_insert_ne.
Qed.

Lemma shift_pair op1 op2 k1 k2 p idx md :
  closed_on_numbers op1 -> closed_on_numbers op2 ->
  numeric md k1 -> numeric md k2 -> numeric md p ->
  exists md', (m ← shift_bound op1 k1 p idx md; shift_bound op2 k2 p idx m) = Ok md' /\
              forall k', numeric md k' -> numeric md' k'.
Proof.
  intros H1 H2 Hk1 Hk2 Hp.
  destruct (shift_bound_numeric op1 k1 p idx md H1 Hk1 Hp) as (m1 & -> & Hm1).
  destruct (shift_bound_numeric op2 k2 p idx m1 H2 (Hm1 _ Hk2) (Hm1 _ Hp))
    as (m2 & Hm2 & Hm2n).
  rewrite bind_ok. exists m2. split; [done|]. auto.
Qed.

Lemma amin_ok R : data R <> [] -> exists m, amin R = Ok m.
Proof. unfold amin. destruct (data R); [done|eauto]. Qed.

Lemma extent_of_nat (n : nat) : extent_of (VInt (Z.of_nat n)) = Ok n.
Proof.
  unfold extent_of, extent. destruct (Z.ltb_spec (Z.of_nat n) 0); [lia|].
  by rewrite Nat2Z.id.
Qed.

(** ** square_domain, method pad *)

Lemma square_domain_pad_forward R md n t oy ox :
  promote "The number of dimension must be > 1" R = Ok (NDArray [n; t; oy; ox] (data R)) ->
  length (data R) = size_of [n; t; oy; ox] -> data R <> [] -> oy <> ox ->
  (ox < oy -> georeferenced_x md) -> (oy < ox -> georeferenced_y md) ->
  exists r md1,
    square_domain R md "pad" false
    = Ok (Pair (squeeze (NDArray [n; t; Nat.max oy ox; Nat.max oy ox] r)) md1) /\
    md1 !! "square_method" = Some (VStr "pad") /\
    md1 !! "orig_domain" = Some (VSeq [VInt (Z.of_nat oy); VInt (Z.of_nat ox)]) /\
    (ox < oy -> georeferenced_x md1) /\ (oy < ox -> georeferenced_y md1) /\
    getitem_yx (NDArray [n; t; Nat.max oy ox; Nat.max oy ox] r)
               (pad_window oy ox).1 (pad_window oy ox).2
    = Ok (NDArray [n; t; oy; ox] (data R)).
Proof.
  intros Hprom Hlen Hne Hsq Hgx Hgy.
  unfold square_domain. cbn [negb]. cbv iota. rewrite Hprom, bind_ok.
  cbn [shape]. cbv iota.
  destruct (Nat.eqb_spec oy ox) as [|_]; [done|].
  change (String.eqb "pad" "pad") with true. cbv iota.
  destruct (amin_ok (NDArray [n; t; oy; ox] (data R)) Hne) as [m ->].
  rewrite bind_ok. unfold pad_window.
  destruct (Nat.ltb_spec ox oy) as [Hlt|Hge].
  - (* the x axis is padded *)
    replace (Nat.max oy ox) with oy by lia.
    destruct (Nat.ltb_spec ox oy) as [_|]; [|lia]. cbn [fst snd].
    destruct (half_diff_nat oy ox ltac:(lia)) as [Hb0 Hb].
    set (b := half_diff (Z.of_nat oy) (Z.of_nat ox)) in *.
    pose proof (span_window b ox oy Hb0 Hb) as Hsx.
    destruct (getitem_setitem_yx n t oy oy
                (data (ones_times [n; t; oy; oy] m)) All
                (Range b (b + Z.of_nat ox)) (data R)) as (r & Hset & Hget).
    { rewrite Hsx. done. }
    rewrite Hsx in Hset, Hget. cbn [span fst snd] in Hset, Hget.
    change (ones_times [n; t; oy; oy] m)
      with (NDArray [n; t; oy; oy] (data (ones_times [n; t; oy; oy] m))).
    rewrite Hset, bind_ok.
    destruct (Hgx Hlt) as (Hx1 & Hx2 & Hpx).
    destruct (shift_pair vsub vadd "x1" "x2" "xpixelsize" b md
                (arith_closed _ _) (arith_closed _ _) Hx1 Hx2 Hpx) as (md' & Hmd & Hnum).
    destruct (shift_bound vsub "x1" "xpixelsize" b md) as [m1|] eqn:E1;
      [rewrite bind_ok in Hmd|discriminate Hmd].
    rewrite bind_ok, Hmd, bind_ok, bind_ok.
    eexists r, _. split; [reflexivity|].
    split; [by rewrite lookup_insert_eq|].
    split; [by rewrite lookup_insert_ne, lookup_insert_eq|].
    split; [|split; [lia|done]].
    intros _. repeat split; do 2 (apply numeric_insert_ne; [done|]); by apply Hnum.
  - (* the y axis is padded *)
    assert (Hlt : oy < ox) by lia.
    replace (Nat.max oy ox) with ox by lia.
    destruct (Nat.ltb_spec ox ox) as [|_]; [lia|].
    destruct (Nat.ltb_spec oy ox) as [_|]; [|lia]. cbn [fst snd].
    destruct (half_diff_nat ox oy ltac:(lia)) as [Hb0 Hb].
    set (b := half_diff (Z.of_nat ox) (Z.of_nat oy)) in *.
    pose proof (span_window b oy ox Hb0 Hb) as Hsy.
    destruct (getitem_setitem_yx n t ox ox
                (data (ones_times [n; t; ox; ox] m))
                (Range b (b + Z.of_nat oy)) All (data R)) as (r & Hset & Hget).
    { rewrite Hsy. done. }
    rewrite Hsy in Hset, Hget. cbn [span fst snd] in Hset, Hget.
    change (ones_times [n; t; ox; ox] m)
      with (NDArray [n; t; ox; ox] (data (ones_times [n; t; ox; ox] m))).
    rewrite Hset, bind_ok.
    destruct (Hgy Hlt) as (Hy1 & Hy2 & Hpy).
    destruct (shift_pair vsub vadd "y1" "y2" "ypixelsize" b md
                (arith_closed _ _) (arith_closed _ _) Hy1 Hy2 Hpy) as (md' & Hmd & Hnum).
    destruct (shift_bound vsub "y1" "ypixelsize" b md) as [m1|] eqn:E1;
      [rewrite bind_ok in Hmd|discriminate Hmd].
    rewrite bind_ok, Hmd, bind_ok, bind_ok.
    eexists r, _. split; [reflexivity|].
    split; [by rewrite lookup_insert_eq|].
    split; [by rewrite lookup_insert_ne, lookup_insert_eq|].
    split; [lia|split; [|done]].
    intros _. repeat split; do 2 (apply numeric_insert_ne; [done|]); by apply Hnum.
Qed.

Lemma square_domain_pad_inverse n t r md1 oy ox d method :
  oy <> ox -> Nat.max oy ox <> 1 ->
  md1 !! "square_method" = Some (VStr "pad") ->
  md1 !! "orig_domain" = Some (VSeq [VInt (Z.of_nat oy); VInt (Z.of_nat ox)]) ->
  (ox < oy -> georeferenced_x md1) -> (oy < ox -> georeferenced_y md1) ->
  getitem_yx (NDArray [n; t; Nat.max oy ox; Nat.max oy ox] r)
             (pad_window oy ox).1 (pad_window oy ox).2
  = Ok (NDArray [n; t; oy; ox] d) ->
  exists md2,
    square_domain (squeeze (NDArray [n; t; Nat.max oy ox; Nat.max oy ox] r)) md1 method true
    = Ok (Pair (squeeze (NDArray [(lead_after_squeeze n t).1;
                                  (lead_after_squeeze n t).2; oy; ox] d)) md2) /\
    md2 !! "square_method" = None /\ md2 !! "orig_domain" = None.
Proof.
  intros Hsq Hnd Hm Ho Hgx Hgy Hget.
  destruct (getitem_yx_lead n t (Nat.max oy ox) (Nat.max oy ox) r
              (pad_window oy ox).1 (pad_window oy ox).2) as (dd & Hget1 & Hget2).
  rewrite Hget in Hget1. injection Hget1 as Hly Hlx <-.
  rewrite <- Hly, <- Hlx in Hget2. clear Hly Hlx Hget.
  unfold square_domain. cbn [negb]. cbv iota.
  rewrite promote_squeeze, bind_ok by done. cbn [shape]. cbv iota.
  unfold dget. rewrite Hm, bind_ok.
  rewrite lookup_delete_ne, Ho, bind_ok by done.
  change (vitem _ 0) with (Ok (VInt (Z.of_nat oy))).
  change (vitem _ 1) with (Ok (VInt (Z.of_nat ox))).
  rewrite !bind_ok. rewrite !extent_of_nat, !bind_ok.
  change (veq_str (VStr "pad") "pad") with true. cbv iota.
  unfold veq_nat, pad_window in *.
  destruct (Nat.ltb_spec ox oy) as [Hlt|Hge].
  - replace (Nat.max oy ox) with oy in * by lia.
    rewrite Z.eqb_refl, Nat.eqb_refl.
    destruct (Z.eqb_spec (Z.of_nat oy) (Z.of_nat ox)) as [|_]; [lia|].
    cbn [andb fst snd] in *. cbv iota. rewrite Hget2, bind_ok.
    destruct (Hgx Hlt) as (Hx1 & Hx2 & Hpx).
    set (mdd := delete "orig_domain" (delete "square_method" md1)).
    assert (Hnum : forall k, k <> "square_method" -> k <> "orig_domain" ->
                             numeric md1 k -> numeric mdd k).
    { intros k H1 H2 Hk. by do 2 (apply numeric_delete_ne; [done|]). }
    destruct (shift_bound_numeric vadd "x1" "xpixelsize"
                (half_diff (Z.of_nat oy) (Z.of_nat ox)) mdd (arith_closed _ _))
      as (m1 & Hm1 & Hn1); [by apply Hnum..|].
    destruct (shift_bound_numeric vsub "x2" "xpixelsize"
                (half_diff (Z.of_nat oy) (Z.of_nat ox)) m1 (arith_closed _ _))
      as (m2 & Hm2 & Hn2); [apply Hn1; by apply Hnum..|].
    rewrite Hm1, bind_ok, Hm2, !bind_ok.
    exists m2. split; [done|].
    unfold shift_bound in Hm1, Hm2. do 4 inv_bind Hm1. do 4 inv_bind Hm2.
    injection Hm1 as <-. injection Hm2 as <-.
    rewrite !lookup_insert_ne by done. unfold mdd.
    split; [by rewrite lookup_delete_ne, lookup_delete_eq|by rewrite lookup_delete_eq].
  - assert (Hlt : oy < ox) by lia.
    replace (Nat.max oy ox) with ox in * by lia.
    rewrite Z.eqb_refl, Nat.eqb_refl.
    destruct (Z.eqb_spec (Z.of_nat ox) (Z.of_nat oy)) as [|_]; [lia|].
    destruct (Nat.eqb_spec ox oy) as [|_]; [lia|].
    cbn [andb fst snd] in *. cbv iota. rewrite Hget2, bind_ok.
    destruct (Hgy Hlt) as (Hy1 & Hy2 & Hpy).
    set (mdd := delete "orig_domain" (delete "square_method" md1)).
    assert (Hnum : forall k, k <> "square_method" -> k <> "orig_domain" ->
                             numeric md1 k -> numeric mdd k).
    { intros k H1 H2 Hk. by do 2 (apply numeric_delete_ne; [done|]). }
    destruct (shift_bound_numeric vadd "y1" "ypixelsize"
                (half_diff (Z.of_nat ox) (Z.of_nat oy)) mdd (arith_closed _ _))
      as (m1 & Hm1 & Hn1); [by apply Hnum..|].
    destruct (shift_bound_numeric vsub "y2" "ypixelsize"
                (half_diff (Z.of_nat ox) (Z.of_nat oy)) m1 (arith_closed _ _))
      as (m2 & Hm2 & Hn2); [apply Hn1; by apply Hnum..|].
    rewrite Hm1, bind_ok, Hm2, !bind_ok.
    exists m2. split; [done|].
    unfold shift_bound in Hm1, Hm2. do 4 inv_bind Hm1. do 4 inv_bind Hm2.
    injection Hm1 as <-. injection Hm2 as <-.
    rewrite !lookup_insert_ne by done. unfold mdd.
    split; [by rewrite lookup_delete_ne, lookup_delete_eq|by rewrite lookup_delete_eq].
Qed.

(** C1 (amended). A field of rank 2, 3 or 4 that is not empty, whose
    spatial extents [oy], [ox] differ and are not 1, and whose metadata holds
    numeric bounds and pixel size along the axis to pad, is squared by
    method pad, and the inverse applied to the result and the metadata it
    produced (which record [orig_domain] and [square_method]) returns a
    field with the original spatial extents that holds exactly the original
    elements in the original order; leading axes of extent 1 are dropped. *)
Theorem square_domain_pad_round_trip R md lead oy ox :
  wf R -> shape R = (lead ++ [oy; ox])%list -> length lead <= 2 ->
  oy <> ox -> oy <> 1 -> ox <> 1 -> data R <> [] ->
  (ox < oy -> georeferenced_x md) -> (oy < ox -> georeferenced_y md) ->
  exists R1 md1,
    square_domain R md "pad" false = Ok (Pair R1 md1) /\
    md1 !! "orig_domain" = Some (VSeq [VInt (Z.of_nat oy); VInt (Z.of_nat ox)]) /\
    md1 !! "square_method" = Some (VStr "pad") /\
    forall method, exists R2 md2,
      square_domain R1 md1 method true = Ok (Pair R2 md2) /\
      shape R2 = (filter (fun n => n ≠ 1) lead ++ [oy; ox])%list /\
      data R2 = data R /\
      forall idx, inbounds (shape R) idx ->
                  item R2 (squeeze_index (shape R) idx) = item R idx.
Proof.
  intros Hwf Hs Hl Hsq Hoy Hox Hne Hgx Hgy.
  destruct (promote_rank R "The number of dimension must be > 1" lead oy ox Hs Hl)
    as (n & t & Hprom & Hnt).
  assert (Hlen : length (data R) = size_of [n; t; oy; ox]).
  { rewrite Hwf, Hs. symmetry. by apply size_promoted. }
  destruct (square_domain_pad_forward R md n t oy ox Hprom Hlen Hne Hsq Hgx Hgy)
    as (r & md1 & Hfw & Hm & Ho & Hgx1 & Hgy1 & Hget).
  eexists _, md1. split; [exact Hfw|]. split; [done|]. split; [done|].
  intros method.
  destruct (square_domain_pad_inverse n t r md1 oy ox (data R) method)
    as (md2 & Hinv & _); try done; [lia|].
  eexists _, md2. split; [exact Hinv|].
  assert (Hshape : filter (fun n => n ≠ 1)
                     [(lead_after_squeeze n t).1; (lead_after_squeeze n t).2; oy; ox]
                   = filter (fun n => n ≠ 1) (shape R)).
  { by rewrite filter_lead_after_squeeze, (filter_promoted lead), Hs. }
  split; [|split; [done|]].
  - unfold squeeze. cbn [shape]. rewrite Hshape, Hs, filter_app. f_equal.
    by rewrite (filter_cons_True _ oy), (filter_cons_True _ ox) by done.
  - intros idx Hidx. unfold item, squeeze. cbn [shape data].
    by rewrite Hshape, ravel_squeeze_index.
Qed.

(** ** square_domain, method crop *)

Lemma crop_window_spans oy ox :
  oy <> ox ->
  (span (crop_window oy ox).1 oy).2 = Nat.min oy ox /\
  (span (crop_window oy ox).2 ox).2 = Nat.min oy ox.
Proof.
  intros Hsq. unfold crop_window.
  destruct (Nat.ltb_spec oy ox) as [Hlt|Hge]; cbn [fst snd].
  - destruct (half_diff_nat ox oy ltac:(lia)) as [Hb0 Hb].
    rewrite span_window by done. cbn [span snd]. lia.
  - destruct (half_diff_nat oy ox ltac:(lia)) as [Hb0 Hb].
    rewrite span_window by done. cbn [span snd]. lia.
Qed.

Lemma square_domain_crop_forward R md n t oy ox c :
  promote "The number of dimension must be > 1" R = Ok (NDArray [n; t; oy; ox] (data R)) ->
  oy <> ox ->
  (oy < ox -> georeferenced_x md) -> (ox < oy -> georeferenced_y md) ->
  getitem_yx (NDArray [n; t; oy; ox] (data R)) (crop_window oy ox).1 (crop_window oy ox).2
  = Ok (NDArray [n; t; Nat.min oy ox; Nat.min oy ox] c) ->
  exists md1,
    square_domain R md "crop" false
    = Ok (Pair (squeeze (NDArray [n; t; Nat.min oy ox; Nat.min oy ox] c)) md1) /\
    md1 !! "square_method" = Some (VStr "crop") /\
    md1 !! "orig_domain" = Some (VSeq [VInt (Z.of_nat oy); VInt (Z.of_nat ox)]) /\
    (oy < ox -> georeferenced_x md1) /\ (ox < oy -> georeferenced_y md1).
Proof.
  intros Hprom Hsq Hgx Hgy Hget.
  unfold square_domain. cbn [negb]. cbv iota. rewrite Hprom, bind_ok.
  cbn [shape]. cbv iota.
  destruct (Nat.eqb_spec oy ox) as [|_]; [done|].
  change (String.eqb "crop" "pad") with false.
  change (String.eqb "crop" "crop") with true. cbv iota.
  unfold crop_window in Hget.
  destruct (Nat.ltb_spec oy ox) as [Hlt|Hge].
  - replace (Nat.min oy ox) with oy in * by lia.
    destruct (Nat.ltb_spec oy ox) as [_|]; [|lia]. cbn [fst snd] in Hget.
    rewrite Hget, bind_ok.
    destruct (Hgx Hlt) as (Hx1 & Hx2 & Hpx).
    destruct (shift_pair vadd vsub "x1" "x2" "xpixelsize"
                (half_diff (Z.of_nat ox) (Z.of_nat oy)) md
                (arith_closed _ _) (arith_closed _ _) Hx1 Hx2 Hpx) as (md' & Hmd & Hnum).
    destruct (shift_bound vadd "x1" "xpixelsize" _ md) as [m1|] eqn:E1;
      [rewrite bind_ok in Hmd|discriminate Hmd].
    rewrite bind_ok, Hmd, bind_ok, bind_ok.
    eexists. split; [reflexivity|].
    split; [by rewrite lookup_insert_eq|].
    split; [by rewrite lookup_insert_ne, lookup_insert_eq|].
    split; [|lia].
    intros _. repeat split; do 2 (apply numeric_insert_ne; [done|]); by apply Hnum.
  - assert (Hlt : ox < oy) by lia.
    replace (Nat.min oy ox) with ox in * by lia.
    destruct (Nat.ltb_spec ox ox) as [|_]; [lia|].
    destruct (Nat.ltb_spec ox oy) as [_|]; [|lia]. cbn [fst snd] in Hget.
    rewrite Hget, bind_ok.
    destruct (Hgy Hlt) as (Hy1 & Hy2 & Hpy).
    destruct (shift_pair vadd vsub "y1" "y2" "ypixelsize"
                (half_diff (Z.of_nat oy) (Z.of_nat ox)) md
                (arith_closed _ _) (arith_closed _ _) Hy1 Hy2 Hpy) as (md' & Hmd & Hnum).
    destruct (shift_bound vadd "y1" "ypixelsize" _ md) as [m1|] eqn:E1;
      [rewrite bind_ok in Hmd|discriminate Hmd].
    rewrite bind_ok, Hmd, bind_ok, bind_ok.
    eexists. split; [reflexivity|].
    split; [by rewrite lookup_insert_eq|].
    split; [by rewrite lookup_insert_ne, lookup_insert_eq|].
    split; [lia|].
    intros _. repeat split; do 2 (apply numeric_insert_ne; [done|]); by apply Hnum.
Qed.

Lemma square_domain_crop_inverse n t c md1 oy ox r method :
  oy <> ox -> Nat.min oy ox <> 1 ->
  md1 !! "square_method" = Some (VStr "crop") ->
  md1 !! "orig_domain" = Some (VSeq [VInt (Z.of_nat oy); VInt (Z.of_nat ox)]) ->
  (oy < ox -> georeferenced_x md1) -> (ox < oy -> georeferenced_y md1) ->
  setitem_yx (zeros [n; t; oy; ox]) (crop_window oy ox).1 (crop_window oy ox).2
             (NDArray [n; t; Nat.min oy ox; Nat.min oy ox] c)
  = Ok (NDArray [n; t; oy; ox] r) ->
  exists md2,
    square_domain (squeeze (NDArray [n; t; Nat.min oy ox; Nat.min oy ox] c)) md1 method true
    = Ok (Pair (squeeze (NDArray [(lead_after_squeeze n t).1;
                                  (lead_after_squeeze n t).2; oy; ox] r)) md2).
Proof.
  intros Hsq Hnd Hm Ho Hgx Hgy Hset.
  pose proof (setitem_yx_lead n t oy ox (data (zeros [n; t; oy; ox]))
                (crop_window oy ox).1 (crop_window oy ox).2
                (Nat.min oy ox) (Nat.min oy ox) c) as Hset2.
  cbv zeta in Hset2.
  change (NDArray [n; t; oy; ox] (data (zeros [n; t; oy; ox])))
    with (zeros [n; t; oy; ox]) in Hset2.
  rewrite Hset, bind_ok in Hset2. cbn [data] in Hset2.
  rewrite <- (zeros_lead n t [oy; ox]) in Hset2.
  change (NDArray [(lead_after_squeeze n t).1; (lead_after_squeeze n t).2; oy; ox]
            (data (zeros [(lead_after_squeeze n t).1; (lead_after_squeeze n t).2; oy; ox])))
    with (zeros [(lead_after_squeeze n t).1; (lead_after_squeeze n t).2; oy; ox]) in Hset2.
  clear Hset.
  unfold square_domain. cbn [negb]. cbv iota.
  rewrite promote_squeeze, bind_ok by done. cbn [shape]. cbv iota.
  unfold dget. rewrite Hm, bind_ok.
  rewrite lookup_delete_ne, Ho, bind_ok by done.
  change (vitem _ 0) with (Ok (VInt (Z.of_nat oy))).
  change (vitem _ 1) with (Ok (VInt (Z.of_nat ox))).
  rewrite !bind_ok. rewrite !extent_of_nat, !bind_ok.
  change (veq_str (VStr "crop") "pad") with false.
  change (veq_str (VStr "crop") "crop") with true. cbv iota.
  unfold veq_nat, crop_window in *.
  set (mdd := delete "orig_domain" (delete "square_method" md1)).
  assert (Hnum : forall k, k <> "square_method" -> k <> "orig_domain" ->
                           numeric md1 k -> numeric mdd k).
  { intros k H1 H2 Hk. by do 2 (apply numeric_delete_ne; [done|]). }
  destruct (Nat.ltb_spec oy ox) as [Hlt|Hge].
  - replace (Nat.min oy ox) with oy in * by lia.
    rewrite Z.eqb_refl, Nat.eqb_refl.
    destruct (Z.eqb_spec (Z.of_nat oy) (Z.of_nat ox)) as [|_]; [lia|].
    cbn [andb fst snd] in *. cbv iota. rewrite Hset2, bind_ok.
    destruct (Hgx Hlt) as (Hx1 & Hx2 & Hpx).
    destruct (shift_pair vsub vadd "x1" "x2" "xpixelsize"
                (half_diff (Z.of_nat ox) (Z.of_nat oy)) mdd
                (arith_closed _ _) (arith_closed _ _)) as (md' & Hmd & _);
      [by apply Hnum..|].
    destruct (shift_bound vsub "x1" "xpixelsize" _ mdd) as [m1|] eqn:E1;
      [rewrite bind_ok in Hmd|discriminate Hmd].
    rewrite bind_ok, Hmd, !bind_ok. by eexists.
  - assert (Hlt : ox < oy) by lia.
    replace (Nat.min oy ox) with ox in * by lia.
    rewrite Z.eqb_refl, Nat.eqb_refl.
    destruct (Z.eqb_spec (Z.of_nat ox) (Z.of_nat oy)) as [|_]; [lia|].
    destruct (Nat.eqb_spec ox oy) as [|_]; [lia|].
    cbn [andb fst snd] in *. cbv iota. rewrite Hset2, bind_ok.
    destruct (Hgy Hlt) as (Hy1 & Hy2 & Hpy).
    destruct (shift_pair vsub vadd "y1" "y2" "ypixelsize"
                (half_diff (Z.of_nat oy) (Z.of_nat ox)) mdd
                (arith_closed _ _) (arith_closed _ _)) as (md' & Hmd & _);
      [by apply Hnum..|].
    destruct (shift_bound vsub "y1" "ypixelsize" _ mdd) as [m1|] eqn:E1;
      [rewrite bind_ok in Hmd|discriminate Hmd].
    rewrite bind_ok, Hmd, !bind_ok. by eexists.
Qed.

(** C7 (amended). A field of rank 2, 3 or 4 whose spatial extents [oy],
    [ox] differ and are not 1, with numeric bounds and pixel size along
    the axis to crop, is squared by method crop, and the inverse applied to
    the result and the metadata it produced returns a field with the
    original spatial extents (leading axes of extent 1 dropped) in which
    the central window that the crop kept holds the original values and
    every other position holds zero. *)
Theorem square_domain_crop_round_trip R md lead oy ox :
  wf R -> shape R = (lead ++ [oy; ox])%list -> length lead <= 2 ->
  oy <> ox -> oy <> 1 -> ox <> 1 ->
  (oy < ox -> georeferenced_x md) -> (ox < oy -> georeferenced_y md) ->
  exists R1 md1,
    square_domain R md "crop" false = Ok (Pair R1 md1) /\
    forall method, exists R2 md2,
      square_domain R1 md1 method true = Ok (Pair R2 md2) /\
      shape R2 = (filter (fun n => n ≠ 1) lead ++ [oy; ox])%list /\
      forall l y x, inbounds (shape R) (l ++ [y; x])%list ->
        item R2 (squeeze_index (shape R) (l ++ [y; x])%list)
        = if in_window (crop_window oy ox) oy ox y x
          then item R (l ++ [y; x])%list else nzero.
Proof.
  intros Hwf Hs Hl Hsq Hoy Hox Hgx Hgy.
  destruct (promote_rank R "The number of dimension must be > 1" lead oy ox Hs Hl)
    as (n & t & Hprom & Hnt).
  destruct (setitem_getitem_yx n t oy ox (data R)
              (crop_window oy ox).1 (crop_window oy ox).2)
    as (c & r & Hget & Hset & Hlen & Hitem).
  destruct (crop_window_spans oy ox Hsq) as [Hly Hlx].
  rewrite Hly, Hlx in Hget, Hset.
  destruct (square_domain_crop_forward R md n t oy ox c Hprom Hsq Hgx Hgy Hget)
    as (md1 & Hfw & Hm & Ho & Hgx1 & Hgy1).
  eexists _, md1. split; [exact Hfw|]. intros method.
  destruct (square_domain_crop_inverse n t c md1 oy ox r method)
    as (md2 & Hinv); try done; [lia|].
  eexists _, md2. split; [exact Hinv|].
  assert (Hshape : filter (fun n => n ≠ 1)
                     [(lead_after_squeeze n t).1; (lead_after_squeeze n t).2; oy; ox]
                   = filter (fun n => n ≠ 1) (shape R)).
  { by rewrite filter_lead_after_squeeze, (filter_promoted lead), Hs. }
  split.
  { unfold squeeze. cbn [shape]. rewrite Hshape, Hs, filter_app. f_equal.
    by rewrite (filter_cons_True _ oy), (filter_cons_True _ ox) by done. }
  intros l y x Hin.
  unfold item at 1, squeeze. cbn [shape data].
  rewrite Hshape, ravel_squeeze_index by done.
  rewrite Hs in Hin.
  destruct (promoted_index lead oy ox n t _ Hl Hnt Hin)
    as (i & j & y' & x' & Hi & Hj & Hy & Hx & [l' Heq] & Hrav).
  apply app_inj_2 in Heq as [_ [= <- <-]]; [|done].
  specialize (Hitem i j y x Hi Hj Hy Hx).
  unfold item in Hitem. cbn [shape data] in Hitem.
  rewrite Hs, <- Hrav, Hitem. unfold in_window, item.
  by rewrite Hs, Hrav.
Qed.

(** ** What the calls return *)

(** C2. On a field that is already square, and on the inverse of a field
    that already has the recorded shape, [square_domain] returns the
    squeezed array alone: no metadata comes back, so the result is not a
    (field, metadata) pair as the docstring and the contract say. *)
Theorem square_domain_noop_returns_array_only (m k : nat) d md method :
  square_domain (NDArray [m; m] d) md method false
  = Ok (JustArray (squeeze (NDArray [1; 1; m; m] d))) /\
  square_domain (NDArray [m; k] d)
    (<["square_method" := VStr method]>
       (<["orig_domain" := VSeq [VInt (Z.of_nat m); VInt (Z.of_nat k)]]> md))
    method true
  = Ok (JustArray (squeeze (NDArray [1; 1; m; k] d))).
Proof.
  split.
  - unfold square_domain. cbn [negb]. cbv iota.
    change (promote _ (NDArray [m; m] d)) with (Ok (NDArray [1; 1; m; m] d)).
    rewrite bind_ok. cbn [shape]. cbv iota. by rewrite Nat.eqb_refl.
  - unfold square_domain. cbn [negb]. cbv iota.
    change (promote _ (NDArray [m; k] d)) with (Ok (NDArray [1; 1; m; k] d)).
    rewrite bind_ok. cbn [shape]. cbv iota.
    unfold dget. rewrite lookup_insert_eq, bind_ok.
    rewrite delete_insert_eq, lookup_delete_ne, lookup_insert_eq, bind_ok by done.
    change (vitem _ 0) with (Ok (VInt (Z.of_nat m))).
    change (vitem _ 1) with (Ok (VInt (Z.of_nat k))).
    rewrite !bind_ok. unfold veq_nat. by rewrite !Z.eqb_refl.
Qed.

(** C8. Asking [adjust_domain] for the bounds the field already has: the
    2 x 2 field [[1, 2], [3, 4]] on [0, 2] x [0, 2] with unit pixels comes
    back with only its first cell; the last row and the last column of the
    overlap hold the zerovalue, although their pixel centres lie inside
    the old bounds. *)
Theorem adjust_domain_drops_last_row_and_column :
  let R := NDArray [2; 2] [Fin 1; Fin 2; Fin 3; Fin 4] in
  let metadata : gmap string value :=
    <["x1" := VNum 0]> (<["x2" := VNum 2]> (<["y1" := VNum 0]> (<["y2" := VNum 2]>
    (<["xpixelsize" := VNum 1]> (<["ypixelsize" := VNum 1]>
    (<["zerovalue" := VNum 0]> ∅)))))) in
  exists metadata',
    adjust_domain R metadata (Some (0, 2)%Q) (Some (0, 2)%Q)
    = Ok (NDArray [2; 2] [Fin 1; Fin 0; Fin 0; Fin 0], metadata').
Proof. intros R metadata. eexists. vm_compute. reflexivity. Qed.

Ltac inv_shape4 H :=
  lazymatch type of H with
  | match shape ?a with _ => _ end = Ok _ =>
      destruct (shape a) as [|? [|? [|? [|? [|? ?]]]]]; try discriminate H
  end.

Ltac inv_pair H :=
  lazymatch type of H with
  | (let '(_, _) := ?p in _) = Ok _ => destruct p
  end.

Lemma promote_inv msg R R4 :
  promote msg R = Ok R4 ->
  exists lead n t Y X,
    shape R = (lead ++ [Y; X])%list /\ length lead <= 2 /\
    [n; t] = (replicate (2 - length lead) 1 ++ lead)%list /\
    R4 = NDArray [n; t; Y; X] (data R).
Proof.
  destruct R as [s d]. unfold promote. cbn [shape].
  destruct s as [|a [|b [|c [|e [|? ?]]]]]; simpl; try discriminate; intros [= <-].
  - exists [], 1, 1, a, b. repeat split; simpl; lia.
  - exists [a], 1, a, b, c. repeat split; simpl; lia.
  - exists [a; b], a, b, c, e. repeat split; simpl; lia.
Qed.

Lemma leading_shape_app R lead Y X :
  shape R = (lead ++ [Y; X])%list -> leading_shape R = lead /\ spatial_shape R = [Y; X].
Proof.
  intros Hs. unfold leading_shape, spatial_shape. rewrite Hs, length_app. simpl.
  replace (length lead + 2 - 2) with (length lead) by lia.
  by rewrite take_app_length, drop_app_length.
Qed.

Lemma setitem_yx_shape R_ sy sx src r :
  setitem_yx R_ sy sx src = Ok r -> shape r = shape R_.
Proof.
  unfold setitem_yx. intros H.
  destruct (shape R_) as [|n [|t [|Y [|X [|? ?]]]]]; try discriminate H.
  destruct (shape src) as [|n' [|t' [|Y' [|X' [|? ?]]]]]; try discriminate H.
  destruct (span sy Y), (span sx X). destruct (forallb _ _); [|discriminate H].
  by injection H as <-.
Qed.

(** What a slice holds. *)
Lemma getitem_yx_item n t Y X d sy sx src :
  getitem_yx (NDArray [n; t; Y; X] d) sy sx = Ok src ->
  shape src = [n; t; (span sy Y).2; (span sx X).2] /\
  src = build (shape src) (item src) /\
  forall i j y x, i < n -> j < t -> y < (span sy Y).2 -> x < (span sx X).2 ->
    item src [i; j; y; x]
    = item (NDArray [n; t; Y; X] d) [i; j; (span sy Y).1 + y; (span sx X).1 + x].
Proof.
  unfold getitem_yx. cbn [shape].
  destruct (span sy Y) as [y0 ly], (span sx X) as [x0 lx]. cbn [fst snd].
  intros [= <-]. split; [done|]. split.
  { unfold build. cbn [shape]. f_equal. apply tabulate_ext. intros idx Hidx.
    by rewrite item_tabulate. }
  intros i j y x Hi Hj Hy Hx. by rewrite item_build by (by apply inbounds4_intro).
Qed.

Lemma squeeze_wf U : wf U -> wf (squeeze U).
Proof. unfold wf, squeeze. cbn [shape data]. intros ->. by rewrite size_of_squeeze. Qed.

Lemma getitem_yx_wf R sy sx src : getitem_yx R sy sx = Ok src -> wf src.
Proof.
  unfold getitem_yx.
  destruct (shape R) as [|n [|t [|Y [|X [|? ?]]]]]; try discriminate.
  destruct (span sy Y), (span sx X). intros [= <-]. apply wf_build.
Qed.

Lemma setitem_yx_wf R_ sy sx src r : setitem_yx R_ sy sx src = Ok r -> wf r.
Proof.
  unfold setitem_yx.
  destruct (shape R_) as [|n [|t [|Y [|X [|? ?]]]]]; try discriminate.
  destruct (shape src) as [|n' [|t' [|Y' [|X' [|? ?]]]]]; try discriminate.
  destruct (span sy Y), (span sx X). destruct (forallb _ _); [|discriminate].
  intros [= <-]. apply wf_build.
Qed.

Lemma promoted_wf R lead n t Y X :
  shape R = (lead ++ [Y; X])%list ->
  [n; t] = (replicate (2 - length lead) 1 ++ lead)%list ->
  wf R -> wf (NDArray [n; t; Y; X] (data R)).
Proof.
  unfold wf. cbn [shape data]. intros Hs Hnt ->. rewrite Hs. symmetry.
  by apply size_promoted.
Qed.

(** What [square_domain] returns is the squeeze of a working array of rank
    4 that has the leading extents of the input. *)
Lemma square_domain_result_shape R md method inverse r :
  square_domain R md method inverse = Ok r ->
  exists Y X,
    shape (array_of r) = filter (fun n => n ≠ 1) (leading_shape R ++ [Y; X])%list /\
    (wf R -> wf (array_of r)).
Proof.
  unfold square_domain. intros H.
  destruct inverse; cbn [negb] in H; cbv iota in H.
  - inv_bind H.
    destruct (promote_inv _ _ _ E) as (lead & n & t & Y & X & Hs & Hl & Hnt & ->).
    destruct (leading_shape_app R lead Y X Hs) as [-> _].
    cbn [shape] in H. cbv iota in H. do 4 inv_bind H.
    inv_if H.
    { injection H as <-. exists Y, X. cbn [array_of]. split.
      - cbn [squeeze shape]. by apply filter_promoted.
      - intros Hwf. by apply squeeze_wf, (promoted_wf R lead). }
    do 3 inv_bind H.
    match goal with q : (ndarray * gmap string value)%type |- _ => destruct q as [R_ md2] end.
    injection H as <-. cbn [array_of].
    assert (exists Y' X', shape R_ = [n; t; Y'; X'] /\ wf R_) as (Y' & X' & HR_ & Hwf_).
    { match goal with
      | Eb : (if veq_str _ "pad" then _ else _) = Ok _ |- _ =>
          destruct (veq_str _ "pad");
          [|destruct (veq_str _ "crop")];
          repeat match type of Eb with
                 | (if ?c then _ else _) = Ok _ => destruct c
                 end;
          first [ injection Eb as <- <-; eexists _, _; split; [reflexivity|apply wf_build]
                | inv_bind Eb; do 2 inv_bind Eb; injection Eb as <- _;
                  match goal with
                  | Hg : getitem_yx _ _ _ = Ok _ |- _ =>
                      pose proof (getitem_yx_wf _ _ _ _ Hg);
                      apply getitem_yx_item in Hg as (-> & _);
                      eexists _, _; split; [reflexivity|done]
                  | Hs' : setitem_yx _ _ _ _ = Ok _ |- _ =>
                      pose proof (setitem_yx_wf _ _ _ _ _ Hs');
                      apply setitem_yx_shape in Hs'; rewrite Hs';
                      eexists _, _; split; [reflexivity|done]
                  end ]
      end. }
    exists Y', X'. split.
    + cbn [squeeze shape]. rewrite HR_. by apply filter_promoted.
    + intros _. by apply squeeze_wf.
  - inv_bind H.
    destruct (promote_inv _ _ _ E) as (lead & n & t & Y & X & Hs & Hl & Hnt & ->).
    destruct (leading_shape_app R lead Y X Hs) as [-> _].
    cbn [shape] in H. cbv iota in H.
    inv_if H.
    { injection H as <-. exists Y, X. cbn [array_of]. split.
      - cbn [squeeze shape]. by apply filter_promoted.
      - intros Hwf. by apply squeeze_wf, (promoted_wf R lead). }
    inv_bind H.
    match goal with q : (ndarray * gmap string value)%type |- _ => destruct q as [R_ md2] end.
    injection H as <-. cbn [array_of].
    assert (exists Y' X', shape R_ = [n; t; Y'; X'] /\ wf R_) as (Y' & X' & HR_ & Hwf_).
    { match goal with
      | Eb : (if String.eqb _ "pad" then _ else _) = Ok _ |- _ =>
          destruct (String.eqb _ "pad");
          [|destruct (String.eqb _ "crop"); [|discriminate Eb]];
          [inv_bind Eb|];
          repeat match type of Eb with
                 | (if ?c then _ else _) = Ok _ => destruct c
                 end;
          first [ injection Eb as <- <-; eexists _, _; split; [reflexivity|apply wf_build]
                | inv_bind Eb; do 2 inv_bind Eb; injection Eb as <- _;
                  match goal with
                  | Hg : getitem_yx _ _ _ = Ok _ |- _ =>
                      pose proof (getitem_yx_wf _ _ _ _ Hg);
                      apply getitem_yx_item in Hg as (-> & _);
                      eexists _, _; split; [reflexivity|done]
                  | Hs' : setitem_yx _ _ _ _ = Ok _ |- _ =>
                      pose proof (setitem_yx_wf _ _ _ _ _ Hs');
                      apply setitem_yx_shape in Hs'; rewrite Hs';
                      eexists _, _; split; [reflexivity|done]
                  end ]
      end. }
    exists Y', X'. split.
    + cbn [squeeze shape]. rewrite HR_. by apply filter_promoted.
    + intros _. by apply squeeze_wf.
Qed.

Lemma adjust_domain_result_shape R md xlim ylim R' md' :
  xlim <> None \/ ylim <> None ->
  adjust_domain R md xlim ylim = Ok (R', md') ->
  exists Y X,
    shape R' = filter (fun n => n ≠ 1) (leading_shape R ++ [Y; X])%list /\
    (wf R -> wf R').
Proof.
  unfold adjust_domain. intros Hlim H.
  destruct xlim, ylim; [| | |destruct Hlim; done];
    (do 3 inv_bind H;
     match goal with
     | Hp : promote _ R = Ok _ |- _ =>
         destruct (promote_inv _ _ _ Hp) as (lead & n & t & Y & X & Hs & Hl & Hnt & ->)
     end;
     destruct (leading_shape_app R lead Y X Hs) as [-> _];
     cbn [shape] in H; cbv iota zeta in H; repeat inv_bind H;
     injection H as <- <-;
     match goal with
     | Hs' : setitem_yx _ _ _ _ = Ok _ |- _ =>
         pose proof (setitem_yx_wf _ _ _ _ _ Hs');
         apply setitem_yx_shape in Hs'; cbn [squeeze shape]; rewrite Hs'
     end;
     eexists _, _; split;
     [cbn [ones_times build shape]; by apply filter_promoted
     |intros _; by apply squeeze_wf]).
Qed.

(** C9 (amended). Whatever [square_domain] returns, in either direction,
    and whatever [adjust_domain] returns when a limit is given, is an
    array without an axis of extent 1 that has kept every other axis: its
    extents are the leading extents of the input, followed by the two
    spatial extents of the result, with every extent of 1 taken out, and
    for a well-formed input it holds as many elements as these extents
    say. So a leading axis of extent 1 of the input, a single time step or
    a single member, is not in the result. [adjust_domain] without limits
    returns its input as it is. *)
Theorem reshaped_results_are_squeezed R md :
  (forall method inverse r,
      square_domain R md method inverse = Ok r ->
      exists Y X,
        shape (array_of r)
        = filter (fun n => n ≠ 1) (leading_shape R ++ [Y; X])%list /\
        (wf R -> wf (array_of r))) /\
  (forall xlim ylim R' md',
      xlim <> None \/ ylim <> None ->
      adjust_domain R md xlim ylim = Ok (R', md') ->
      exists Y X,
        shape R' = filter (fun n => n ≠ 1) (leading_shape R ++ [Y; X])%list /\
        (wf R -> wf R')) /\
  adjust_domain R md None None = Ok (R, md).
Proof.
  split; [|split; [|done]].
  - intros method inverse r. apply square_domain_result_shape.
  - intros xlim ylim R' md'. apply adjust_domain_result_shape.
Qed.

(** ** The claims on aggregation *)

(** C3 (amended). For an array whose extent [N] along axis [a] is not
    zero, a positive window [w] dividing [N] and one of the four methods,
    [aggregate_fields] returns an array whose shape is the input's with
    [N / w] at axis [a], and whose element at an index with [k] at axis
    [a] is the reduction of the input elements at the same index with
    [k w], [k w + 1], ..., [k w + w - 1] at axis [a], in this order. *)
Theorem aggregate_fields_blocks R (w : Z) axis method f N :
  wf R -> shape R !! axis = Some N -> 0 < N -> (0 < w)%Z ->
  (Z.of_nat N mod w = 0)%Z ->
  In (method, f) [("sum", np_sum); ("mean", np_mean);
                  ("nansum", np_nansum); ("nanmean", np_nanmean)] ->
  exists R',
    aggregate_fields R w axis method = Ok R' /\
    shape R' = <[axis := N / Z.to_nat w]> (shape R) /\
    forall idx k, inbounds (shape R') idx -> idx !! axis = Some k ->
      item R' idx =
      f ((fun u => item R (<[axis := k * Z.to_nat w + u]> idx)) <$> seq 0 (Z.to_nat w)).
Proof.
  intros Hwf HN Hpos Hw Hmod Hin.
  assert (Hf : reduction_of method = Some f).
  { simpl in Hin. destruct Hin as [[= <- <-]|[[= <- <-]|[[= <- <-]|[[= <- <-]|[]]]]]; done. }
  destruct (aggregate_fields_spec R w axis method f N Hwf HN Hpos Hw Hmod Hf)
    as (R' & HR' & _ & Hshape & Hitem).
  by exists R'.
Qed.

(** C5 (amended). With a positive window and a non-zero extent [N] along
    the axis, [aggregate_fields] returns exactly when the window divides
    [N] and the method is a known one; otherwise it raises, naming the
    window and the extent when the window does not divide, and the method
    when it is unknown. *)
Theorem aggregate_fields_raises_iff R (w : Z) axis method N :
  wf R -> shape R !! axis = Some N -> 0 < N -> (0 < w)%Z ->
  match aggregate_fields R w axis method with
  | Ok _ => (Z.of_nat N mod w = 0)%Z /\ reduction_of method <> None
  | Raise e =>
      ((Z.of_nat N mod w <> 0)%Z /\
       e = ValueError "window_size %i does not equally split R.shape[axis] %i"
                      [AInt w; AInt (Z.of_nat N)]) \/
      ((Z.of_nat N mod w = 0)%Z /\ reduction_of method = None /\
       e = ValueError "unknown method %s" [AStr method])
  end.
Proof.
  intros Hwf HN Hpos Hw.
  destruct (decide (Z.of_nat N mod w = 0)%Z) as [Hmod|Hmod].
  - destruct (reduction_of method) as [f|] eqn:Hf.
    + destruct (aggregate_fields_spec R w axis method f N Hwf HN Hpos Hw Hmod Hf)
        as (R' & -> & _). done.
    + rewrite (aggregate_fields_unknown R w axis method N) by done. by right.
  - rewrite (aggregate_fields_uneven R w axis method N) by (done || lia). by left.
Qed.

(** C4 (amended). A call of [aggregate_fields_time] or of
    [aggregate_fields_space] without a window returns its input; a call
    with a window that returns is either the no-op (the window is the
    sampling interval, or the pixel size in both directions), which returns
    the input whatever the unit, or it has aggregated with mean under unit
    "mm/h" and with sum under unit "mm". So under any other unit a call
    that is not a no-op raises. *)
Theorem unit_selects_reduction R md w R' md' :
  (aggregate_fields_time R md (Some w) = Ok (R', md') ->
   (time_noop md w /\ R' = R /\ md' = md) \/
   exists unit_ method nframes,
     md !! "unit" = Some unit_ /\ unit_method unit_ method /\
     aggregate_fields R nframes (time_axis R) method = Ok R') /\
  (aggregate_fields_space R md (Some w) = Ok (R', md') ->
   (space_noop md w /\ R' = R /\ md' = md) \/
   exists unit_ method ny nx Ry,
     md !! "unit" = Some unit_ /\ unit_method unit_ method /\
     aggregate_fields R ny (space_axes R).1 method = Ok Ry /\
     aggregate_fields Ry nx (space_axes R).2 method = Ok R') /\
  aggregate_fields_time R md None = Ok (R, md) /\
  aggregate_fields_space R md None = Ok (R, md).
Proof.
  split; [|split; [|done]].
  - apply aggregate_fields_time_method.
  - apply aggregate_fields_space_method.
Qed.




(** ** The claims at sample inputs *)

Lemma square_domain_pad_round_trip_witness :
  exists R1 md1,
    square_domain field_2x3 sample_bounds "pad" false = Ok (Pair R1 md1) /\
    md1 !! "orig_domain" = Some (VSeq [VInt (Z.of_nat 2); VInt (Z.of_nat 3)]) /\
    md1 !! "square_method" = Some (VStr "pad") /\
    forall method, exists R2 md2,
      square_domain R1 md1 method true = Ok (Pair R2 md2) /\
      shape R2 = (filter (fun n => n ≠ 1) [] ++ [2; 3])%list /\
      data R2 = data field_2x3 /\
      forall idx, inbounds (shape field_2x3) idx ->
                  item R2 (squeeze_index (shape field_2x3) idx) = item field_2x3 idx.
Proof.
  apply (square_domain_pad_round_trip field_2x3 sample_bounds [] 2 3).
  - reflexivity.
  - reflexivity.
  - simpl. lia.
  - lia.
  - lia.
  - lia.
  - discriminate.
  - intros H. exfalso. lia.
  - intros _. repeat split; eexists; (split; [vm_compute; reflexivity|reflexivity]).
Defined.

(** A field with a single row: the round trip through pad returns a
    one-dimensional array. *)
Lemma square_domain_pad_round_trip_loses_unit_axis :
  match square_domain field_1x3 row_bounds "pad" false with
  | Ok (Pair R1 md1) =>
      match square_domain R1 md1 "pad" true with
      | Ok (Pair R2 _) => spatial_shape field_1x3 = [1; 3] /\ spatial_shape R2 = [3]
      | _ => False
      end
  | _ => False
  end.
Proof. vm_compute. split; reflexivity. Qed.

Lemma square_domain_crop_round_trip_witness :
  exists R1 md1,
    square_domain field_2x3 sample_bounds "crop" false = Ok (Pair R1 md1) /\
    forall method, exists R2 md2,
      square_domain R1 md1 method true = Ok (Pair R2 md2) /\
      shape R2 = (filter (fun n => n ≠ 1) [] ++ [2; 3])%list /\
      forall l y x, inbounds (shape field_2x3) (l ++ [y; x])%list ->
        item R2 (squeeze_index (shape field_2x3) (l ++ [y; x])%list)
        = if in_window (crop_window 2 3) 2 3 y x
          then item field_2x3 (l ++ [y; x])%list else nzero.
Proof.
  apply (square_domain_crop_round_trip field_2x3 sample_bounds [] 2 3).
  - reflexivity.
  - reflexivity.
  - simpl. lia.
  - lia.
  - lia.
  - lia.
  - intros _. repeat split; eexists; (split; [vm_compute; reflexivity|reflexivity]).
  - intros H. exfalso. lia.
Defined.

(** A field with a single row: cropping leaves one cell, which [squeeze]
    turns into a 0-dimensional array that the inverse refuses. *)
Lemma square_domain_crop_round_trip_raises :
  match square_domain field_1x3 row_bounds "crop" false with
  | Ok (Pair R1 md1) =>
      shape R1 = [] /\
      square_domain R1 md1 "crop" true
      = Raise (ValueError "The number of dimension must be > 2" [])
  | _ => False
  end.
Proof. vm_compute. split; reflexivity. Qed.

Lemma aggregate_fields_blocks_witness :
  exists R',
    aggregate_fields field_2x4 2 1 "sum" = Ok R' /\
    shape R' = <[1 := 4 / Z.to_nat 2]> (shape field_2x4) /\
    forall idx k, inbounds (shape R') idx -> idx !! 1 = Some k ->
      item R' idx =
      np_sum ((fun u => item field_2x4 (<[1 := k * Z.to_nat 2 + u]> idx))
                <$> seq 0 (Z.to_nat 2)).
Proof.
  apply (aggregate_fields_blocks field_2x4 2 1 "sum" np_sum 4).
  - reflexivity.
  - reflexivity.
  - lia.
  - lia.
  - reflexivity.
  - simpl. left. reflexivity.
Defined.

(** An axis of extent 0: every window divides it, and numpy refuses to
    reshape the array to [(0, -1)]. *)
Lemma aggregate_fields_empty_axis_raises :
  wf (NDArray [0; 2] []) /\
  shape (NDArray [0; 2] []) !! 0 = Some 0 /\
  (Z.of_nat 0 mod 1 = 0)%Z /\
  aggregate_fields (NDArray [0; 2] []) 1 0 "sum"
  = Raise (ValueError "cannot reshape array" []).
Proof. repeat split. Qed.

Lemma aggregate_fields_raises_iff_witness :
  match aggregate_fields field_2x4 3 1 "sum" with
  | Ok _ => (Z.of_nat 4 mod 3 = 0)%Z /\ reduction_of "sum" <> None
  | Raise e =>
      ((Z.of_nat 4 mod 3 <> 0)%Z /\
       e = ValueError "window_size %i does not equally split R.shape[axis] %i"
                      [AInt 3; AInt (Z.of_nat 4)]) \/
      ((Z.of_nat 4 mod 3 = 0)%Z /\ reduction_of "sum" = None /\
       e = ValueError "unknown method %s" [AStr "sum"])
  end.
Proof.
  apply (aggregate_fields_raises_iff field_2x4 3 1 "sum" 4).
  - reflexivity.
  - reflexivity.
  - lia.
  - lia.
Defined.

(** A dividing window and a known method on an axis of extent 0. *)
Lemma aggregate_fields_dividing_window_raises :
  shape (NDArray [0] []) !! 0 = Some 0 /\
  (Z.of_nat 0 mod 3 = 0)%Z /\ reduction_of "mean" <> None /\
  is_ok (aggregate_fields (NDArray [0] []) 3 0 "mean") = false.
Proof. repeat split. done. Qed.

Lemma unit_selects_reduction_witness :
  let time_out := returned_or (aggregate_fields_time series_4x1x2 (rain_metadata "mm/h")
                                 (Some 10%Q)) (series_4x1x2, ∅) in
  let space_out := returned_or (aggregate_fields_space series_1x2x2 (rain_metadata "mm")
                                  (Some 2%Q)) (series_1x2x2, ∅) in
  ((time_noop (rain_metadata "mm/h") 10 /\
    time_out.1 = series_4x1x2 /\ time_out.2 = rain_metadata "mm/h") \/
   exists unit_ method nframes,
     rain_metadata "mm/h" !! "unit" = Some unit_ /\ unit_method unit_ method /\
     aggregate_fields series_4x1x2 nframes (time_axis series_4x1x2) method
     = Ok time_out.1) /\
  ((space_noop (rain_metadata "mm") 2 /\
    space_out.1 = series_1x2x2 /\ space_out.2 = rain_metadata "mm") \/
   exists unit_ method ny nx Ry,
     rain_metadata "mm" !! "unit" = Some unit_ /\ unit_method unit_ method /\
     aggregate_fields series_1x2x2 ny (space_axes series_1x2x2).1 method = Ok Ry /\
     aggregate_fields Ry nx (space_axes series_1x2x2).2 method = Ok space_out.1).
Proof.
  intros time_out space_out. split.
  - apply (proj1 (unit_selects_reduction series_4x1x2 (rain_metadata "mm/h")
                    10%Q time_out.1 time_out.2)).
    vm_compute. reflexivity.
  - apply (proj1 (proj2 (unit_selects_reduction series_1x2x2 (rain_metadata "mm")
                           2%Q space_out.1 space_out.2))).
    vm_compute. reflexivity.
Defined.

(** Under another unit the no-ops still return. *)
Lemma other_unit_noop_returns :
  rain_metadata "dBZ" !! "unit" = Some (VStr "dBZ") /\
  aggregate_fields_time series_4x1x2 (rain_metadata "dBZ") None
  = Ok (series_4x1x2, rain_metadata "dBZ") /\
  aggregate_fields_time series_4x1x2 (rain_metadata "dBZ") (Some 5%Q)
  = Ok (series_4x1x2, rain_metadata "dBZ") /\
  aggregate_fields_space series_1x2x2 (rain_metadata "dBZ") (Some 1%Q)
  = Ok (series_1x2x2, rain_metadata "dBZ").
Proof. repeat split; vm_compute; reflexivity. Qed.





(** The window of three minutes over frames two minutes apart is accepted,
    and each output step holds one frame under an accutime of three. *)
Example three_minute_window_accepted :
  aggregate_fields_time series_3x1x1 two_minute_metadata (Some 3%Q)
  = Ok (series_3x1x1,
        <["timestamps" := VSeq [VTime 0; VTime 120; VTime 240]]>
          (<["accutime" := VNum 3]> two_minute_metadata)).
Proof. vm_compute. reflexivity. Qed.

(** A span of twenty minutes is two windows of ten, so the test on the span
    passes; the block size is [int(10 / 4) = 2], which [aggregate_fields]
    refuses for five frames. *)
Example window_splits_span_but_not_frames :
  aggregate_fields_time series_5x1x1 four_minute_metadata (Some 10%Q)
  = Raise (ValueError "window_size %i does not equally split R.shape[axis] %i"
                      [AInt 2; AInt 5]).
Proof. vm_compute. reflexivity. Qed.

Lemma reshaped_results_are_squeezed_witness :
  let squared := returned_or (square_domain series_1x2x3 sample_bounds "pad" false)
                             (JustArray series_1x2x3) in
  let adjusted := returned_or (adjust_domain series_1x2x3 sample_bounds
                                 (Some (0, 3)%Q) None) (series_1x2x3, ∅) in
  (exists Y X, shape (array_of squared)
               = filter (fun n => n ≠ 1) (leading_shape series_1x2x3 ++ [Y; X])%list /\
               (wf series_1x2x3 -> wf (array_of squared))) /\
  (exists Y X, shape (fst adjusted)
               = filter (fun n => n ≠ 1) (leading_shape series_1x2x3 ++ [Y; X])%list /\
               (wf series_1x2x3 -> wf (fst adjusted))).
Proof.
  intros squared adjusted. split.
  - apply (proj1 (reshaped_results_are_squeezed series_1x2x3 sample_bounds)
             "pad" false squared).
    vm_compute. reflexivity.
  - apply (proj1 (proj2 (reshaped_results_are_squeezed series_1x2x3 sample_bounds))
             (Some (0, 3)%Q) None (fst adjusted) (snd adjusted)).
    + left. discriminate.
    + vm_compute. reflexivity.
Defined.

(** The single time step is gone from what comes back. *)
Example single_time_step_dropped :
  shape (array_of (returned_or (square_domain series_1x2x3 sample_bounds "pad" false)
                               (JustArray series_1x2x3))) = [3; 3] /\
  shape (fst (returned_or (adjust_domain series_1x2x3 sample_bounds (Some (0, 3)%Q) None)
                          (series_1x2x3, ∅))) = [2; 3].
Proof. split; vm_compute; reflexivity. Qed.

(** Without limits [adjust_domain] returns its input, unit axes included. *)
Lemma adjust_domain_noop_keeps_unit_axis :
  adjust_domain series_1x2x3 sample_bounds None None = Ok (series_1x2x3, sample_bounds) /\
  1 ∈ shape series_1x2x3.
Proof. split; [reflexivity|]. vm_compute. left. Qed.

(** * Further properties *)

(** ** aggregate_fields: the window and the method name *)

Lemma np_sum_single x : np_sum [x] = x.
Proof. done. Qed.

Lemma Qdiv_one (q : Q) : (q / inject_Z (Z.of_nat 1))%Q = q.
Proof.
  destruct q as [a b]. unfold Qdiv, Qmult, Qinv. simpl.
  rewrite Z.mul_1_r, Pos.mul_1_r. done.
Qed.

Lemma np_mean_single x : np_mean [x] = x.
Proof. destruct x as [q|]; [|done]. unfold np_mean. simpl. f_equal. apply Qdiv_one. Qed.

Lemma np_nanmean_single x : np_nanmean [x] = x.
Proof.
  destruct x as [q|]; [|done]. unfold np_nanmean, np_nansum.
  rewrite (filter_cons_True _ (Fin q)) by done. simpl. f_equal. apply Qdiv_one.
Qed.

Lemma np_nansum_single x : np_nansum [x] = nan_to_zero x.
Proof. done. Qed.

Lemma list_insert_same {A} (l : list A) i x : l !! i = Some x -> <[i := x]> l = l.
Proof. apply list_insert_id. Qed.

Lemma inbounds_lookup s idx axis N :
  inbounds s idx -> s !! axis = Some N -> exists k, idx !! axis = Some k /\ k < N.
Proof.
  intros H HN. destruct (Forall2_lookup_l _ _ _ _ _ H HN) as (k & Hk & Hlt). eauto.
Qed.

(** What a window of one frame leaves of the array, for each method. *)
Lemma aggregate_fields_window_one R axis method f N :
  wf R -> shape R !! axis = Some N -> 0 < N -> reduction_of method = Some f ->
  exists R', aggregate_fields R 1 axis method = Ok R' /\ shape R' = shape R /\
             data R' = (fun x => f [x]) <$> data R.
Proof.
  intros Hwf HN Hpos Hf.
  destruct (aggregate_fields_spec R 1 axis method f N Hwf HN Hpos ltac:(lia)
              ltac:(apply Z.mod_1_r) Hf) as (R' & HR' & Hwf' & Hshape & Hitem).
  change (Z.to_nat 1) with 1 in *. rewrite Nat.div_1_r, list_insert_id in Hshape by done.
  exists R'. split; [done|]. split; [done|].
  rewrite <- (tabulate_item R' Hwf'), <- (tabulate_item R Hwf), Hshape.
  apply list_eq. intros p.
  rewrite list_lookup_fmap.
  destruct (decide (p < size_of (shape R))) as [Hp|Hp].
  - rewrite <- (ravel_unravel _ p Hp).
    rewrite !tabulate_lookup by (by apply unravel_inbounds). simpl. f_equal.
    pose proof (unravel_inbounds _ _ Hp) as Hin.
    destruct (inbounds_lookup _ _ _ _ Hin HN) as (k & Hk & _).
    rewrite (Hitem _ k) by (by rewrite ?Hshape).
    simpl. rewrite Nat.mul_1_r, Nat.add_0_r, list_insert_id by done. done.
  - rewrite !lookup_ge_None_2; [done| |]; rewrite length_tabulate; lia.
Qed.

(** X1. With a window of one frame [aggregate_fields] returns the array as
    it is under the methods sum, mean and nanmean, and the array with every
    NaN replaced by zero under nansum. *)
Theorem aggregate_fields_unit_window R axis N :
  wf R -> shape R !! axis = Some N -> 0 < N ->
  (forall method, In method ["sum"; "mean"; "nanmean"] ->
                  aggregate_fields R 1 axis method = Ok R) /\
  aggregate_fields R 1 axis "nansum" = Ok (NDArray (shape R) (nan_to_zero <$> data R)).
Proof.
  intros Hwf HN Hpos. split.
  - intros method Hin.
    assert (exists f, reduction_of method = Some f /\ forall x, f [x] = x) as (f & Hf & Hone).
    { simpl in Hin. destruct Hin as [<-|[<-|[<-|[]]]].
      - exists np_sum. split; [done|]. apply np_sum_single.
      - exists np_mean. split; [done|]. apply np_mean_single.
      - exists np_nanmean. split; [done|]. apply np_nanmean_single. }
    destruct (aggregate_fields_window_one R axis method f N Hwf HN Hpos Hf)
      as (R' & -> & Hs & Hd).
    f_equal. destruct R as [s d], R' as [s' d']. simpl in *. subst s'. f_equal.
    rewrite Hd. transitivity (id <$> d); [|apply list_fmap_id].
    apply list_fmap_ext. intros i x _. apply Hone.
  - destruct (aggregate_fields_window_one R axis "nansum" np_nansum N Hwf HN Hpos eq_refl)
      as (R' & -> & Hs & Hd).
    f_equal. destruct R' as [s' d']. simpl in *. by subst.
Qed.

Lemma aggregate_fields_unit_window_witness :
  (forall method, In method ["sum"; "mean"; "nanmean"] ->
                  aggregate_fields field_2x4 1 1 method = Ok field_2x4) /\
  aggregate_fields field_2x4 1 1 "nansum"
  = Ok (NDArray (shape field_2x4) (nan_to_zero <$> data field_2x4)).
Proof.
  apply (aggregate_fields_unit_window field_2x4 1 4).
  - reflexivity.
  - reflexivity.
  - lia.
Defined.

(** X2. [aggregate_fields] never returns for a window that is zero or
    negative: zero raises the division error of [N % window_size], and a
    negative window that divides the extent is refused by [reshape]. *)
Theorem aggregate_fields_window_not_positive R (w : Z) axis method :
  (w <= 0)%Z ->
  is_ok (aggregate_fields R w axis method) = false /\
  (w = 0%Z -> axis < length (shape R) ->
   aggregate_fields R w axis method = Raise ZeroDivisionError).
Proof.
  intros Hw. split.
  - destruct (aggregate_fields R w axis method) as [R'|e] eqn:E; [|done].
    apply aggregate_fields_ok_inv in E as (N & f & _ & _ & Hpos & _). lia.
  - intros -> Hax. destruct (lookup_lt_is_Some_2 _ _ Hax) as [N HN].
    unfold aggregate_fields. by rewrite (shape_at_ok _ _ _ HN).
Qed.

Lemma aggregate_fields_window_not_positive_witness :
  is_ok (aggregate_fields field_2x4 (-2) 1 "sum") = false /\
  ((-2)%Z = 0%Z -> 1 < length (shape field_2x4) ->
   aggregate_fields field_2x4 (-2) 1 "sum" = Raise ZeroDivisionError).
Proof. apply (aggregate_fields_window_not_positive field_2x4 (-2) 1 "sum"). lia. Defined.

(** X3. [aggregate_fields] matches the method name without regard to case:
    two names of a known method that differ only in the case of their
    letters give the same result. *)
Theorem aggregate_fields_method_case R (w : Z) axis method method' :
  lower method = lower method' -> reduction_of method <> None ->
  aggregate_fields R w axis method = aggregate_fields R w axis method'.
Proof.
  intros Hl Hknown. unfold aggregate_fields, reduction_of in *.
  destruct (shape_at R axis) as [N|]; [|done]. rewrite !bind_ok.
  destruct (int_mod (Z.of_nat N) w) as [r|]; [|done]. rewrite !bind_ok.
  destruct (negb (r =? 0)%Z); [done|].
  destruct (reshape _ [Z.of_nat N; (-1)%Z]) as [R_|]; [|done]. rewrite !bind_ok.
  destruct (shape_at R_ 1) as [M|]; [|done]. rewrite !bind_ok.
  rewrite <- Hl.
  repeat (destruct (String.eqb (lower method) _); [done|]). done.
Qed.

Lemma aggregate_fields_method_case_witness :
  aggregate_fields field_2x4 2 1 "NanMean" = aggregate_fields field_2x4 2 1 "nanmean".
Proof.
  apply (aggregate_fields_method_case field_2x4 2 1 "NanMean" "nanmean").
  - reflexivity.
  - discriminate.
Defined.

(** ** aggregate_fields_time: metadata and edge cases *)

(** X4. The keys that [aggregate_fields_time] does not write keep their
    values: only [accutime], [timestamps] and [leadtimes] can change. *)
Theorem aggregate_fields_time_frame R md w R' md' k :
  aggregate_fields_time R md w = Ok (R', md') ->
  k <> "accutime" -> k <> "timestamps" -> k <> "leadtimes" ->
  md' !! k = md !! k.
Proof.
  intros H Ha Ht Hl. destruct w as [w|]; [|by injection H as <- <-].
  apply aggregate_fields_time_inv in H
    as (unit_ & l & delta & _ & _ & _ & _ & [(_ & _ & ->)|(_ & _ & H)]); [done|].
  destruct H as (r & method & ts & _ & _ & _ & _ & _ & [(_ & ->)|(lt & lt' & _ & _ & ->)]);
    by rewrite !lookup_insert_ne by done.
Qed.

Lemma aggregate_fields_time_frame_witness :
  (returned_or (aggregate_fields_time series_4x1x2 (rain_metadata "mm/h") (Some 10%Q))
               (series_4x1x2, ∅)).2 !! "unit"
  = rain_metadata "mm/h" !! "unit".
Proof.
  apply (aggregate_fields_time_frame series_4x1x2 (rain_metadata "mm/h") (Some 10%Q)
           (returned_or (aggregate_fields_time series_4x1x2 (rain_metadata "mm/h")
                           (Some 10%Q)) (series_4x1x2, ∅)).1).
  - vm_compute. reflexivity.
  - discriminate.
  - discriminate.
  - discriminate.
Defined.

Lemma length_lookup_iff {A} (l : list A) K :
  (forall j, is_Some (l !! j) <-> j < K) -> length l = K.
Proof.
  intros H. destruct (decide (length l = K)) as [|Hne]; [done|exfalso].
  destruct (decide (length l < K)).
  - assert (is_Some (l !! length l)) as [x Hx] by (apply H; lia).
    apply lookup_lt_Some in Hx. lia.
  - assert (K < length l) as HK by lia.
    apply lookup_lt_is_Some_2, H in HK. lia.
Qed.

(** [l[step - 1::step]] keeps one element of each block of [step]. *)
Lemma slice_step_blocks {A} (step : Z) (l l' : list A) :
  (0 < step)%Z -> slice_step (step - 1) step l = Ok l' ->
  length l' = length l / Z.to_nat step.
Proof.
  intros Hs H. apply length_lookup_iff. intros j.
  rewrite (slice_step_lookup (step - 1) step l l' j Hs ltac:(lia) H).
  rewrite lookup_lt_is_Some.
  set (s := Z.to_nat step). replace (Z.to_nat (step - 1)) with (s - 1) by lia.
  assert (0 < s) by lia. clearbody s. split; intros Hj.
  - apply Nat.div_le_lower_bound; nia.
  - pose proof (Nat.div_mod_eq (length l) s).
    pose proof (Nat.mod_upper_bound (length l) s ltac:(lia)). nia.
Qed.

Lemma vslice_step_blocks (step : Z) v v' N :
  (0 < step)%Z -> vslice_step (step - 1) step v = Ok v' -> vlen v = Ok N ->
  vlen v' = Ok (N / Z.to_nat step).
Proof.
  intros Hs H HN. destruct v as [s| | | |l]; try discriminate H; simpl in H.
  - inv_bind H. injection H as <-. unfold vlen in *. simpl in *.
    injection HN as <-. rewrite !length_fmap, chars_unchars.
    f_equal. by apply slice_step_blocks.
  - inv_bind H. injection H as <-. unfold vlen in *. simpl in *.
    injection HN as <-. f_equal. by apply slice_step_blocks.
Qed.

(** X5. A call of [aggregate_fields_time] with a window that returns keeps
    the series in step with its metadata: the output has one frame along the
    time axis for each timestamp of the returned metadata, and the returned
    leadtimes are as many when the input had one leadtime for each frame. *)
Theorem aggregate_fields_time_in_step R md w R' md' :
  wf R -> aggregate_fields_time R md (Some w) = Ok (R', md') ->
  exists ts' N',
    md' !! "timestamps" = Some ts' /\ vlen ts' = Ok N' /\
    shape R' !! time_axis R' = Some N' /\
    forall lt N, md !! "leadtimes" = Some lt -> shape R !! time_axis R = Some N ->
                 vlen lt = Ok N ->
                 exists lt', md' !! "leadtimes" = Some lt' /\ vlen lt' = Ok N'.
Proof.
  intros Hwf H.
  apply aggregate_fields_time_inv in H
    as (unit_ & l & delta & _ & Hts & _ & HN & [(_ & -> & ->)|(_ & _ & H)]).
  { exists (VSeq l), (length l). repeat split; try done.
    intros lt N Hlt HN' Hlen. rewrite HN in HN'. injection HN' as <-. eauto. }
  destruct H as (r & method & ts & _ & _ & _ & Hagg & Hsl & Hmd). cbv zeta in *.
  set (nframes := block_size w delta) in *.
  destruct (aggregate_fields_ok_inv _ _ _ _ _ Hagg) as (N & f & HN' & HNpos & Hpos & Hmod & Hf).
  rewrite HN in HN'. injection HN' as <-.
  destruct (aggregate_fields_spec R _ _ _ f _ Hwf HN HNpos Hpos Hmod Hf)
    as (R2 & HR2 & _ & Hshape & _).
  rewrite Hagg in HR2. injection HR2 as <-.
  assert (Hax : time_axis R' = time_axis R).
  { unfold time_axis. by rewrite Hshape, length_insert. }
  exists ts, (length l / Z.to_nat nframes).
  split; [|split; [|split]].
  - destruct Hmd as [(_ & ->)|(lt & lt' & _ & _ & ->)];
      by rewrite ?(lookup_insert_ne _ "leadtimes") by done; rewrite lookup_insert_eq.
  - by apply (vslice_step_blocks nframes (VSeq l)).
  - rewrite Hax, Hshape. apply list_lookup_insert_eq. by eapply lookup_lt_Some.
  - intros lt N Hlt HN' Hlen. rewrite HN in HN'. injection HN' as <-.
    destruct Hmd as [(Hnone & _)|(lt0 & lt' & Hlt0 & Hsl' & ->)]; [congruence|].
    rewrite Hlt in Hlt0. injection Hlt0 as <-.
    exists lt'. split; [by rewrite lookup_insert_eq|].
    by apply (vslice_step_blocks nframes lt).
Qed.

Lemma aggregate_fields_time_in_step_witness :
  let out := returned_or (aggregate_fields_time series_4x1x2 (rain_metadata "mm/h")
                            (Some 10%Q)) (series_4x1x2, ∅) in
  exists ts' N',
    out.2 !! "timestamps" = Some ts' /\ vlen ts' = Ok N' /\
    shape out.1 !! time_axis out.1 = Some N' /\
    forall lt N, rain_metadata "mm/h" !! "leadtimes" = Some lt ->
                 shape series_4x1x2 !! time_axis series_4x1x2 = Some N ->
                 vlen lt = Ok N ->
                 exists lt', out.2 !! "leadtimes" = Some lt' /\ vlen lt' = Ok N'.
Proof.
  intros out.
  apply (aggregate_fields_time_in_step series_4x1x2 (rain_metadata "mm/h") 10%Q out.1 out.2).
  - reflexivity.
  - vm_compute. reflexivity.
Defined.

(** X6. A call of [aggregate_fields_time] with a window returns only for an
    array of rank 3 or 4 and metadata that hold a unit and a list of at
    least two timestamps, one for each frame along the time axis. *)
Theorem aggregate_fields_time_requires R md w R' md' :
  aggregate_fields_time R md (Some w) = Ok (R', md') ->
  3 <= length (shape R) <= 4 /\
  exists unit_ ts,
    md !! "unit" = Some unit_ /\ md !! "timestamps" = Some (VSeq ts) /\
    2 <= length ts /\ shape R !! time_axis R = Some (length ts).
Proof.
  intros H. split.
  - unfold aggregate_fields_time in H. do 2 inv_bind H.
    destruct (Nat.ltb_spec (length (shape R)) 3); [discriminate H|].
    destruct (Nat.ltb_spec 4 (length (shape R))); [discriminate H|]. lia.
  - apply aggregate_fields_time_inv in H
      as (unit_ & l & delta & Hu & Hts & Hd & HN & _).
    exists unit_, l. repeat split; try done.
    unfold sampling_interval, dget in Hd. rewrite Hts, bind_ok in Hd.
    inv_bind Hd. unfold vitem in E. simpl in E.
    destruct (l !! 1) eqn:E1; [|discriminate E].
    apply lookup_lt_Some in E1. lia.
Qed.

Lemma aggregate_fields_time_requires_witness :
  3 <= length (shape series_4x1x2) <= 4 /\
  exists unit_ ts,
    rain_metadata "mm/h" !! "unit" = Some unit_ /\
    rain_metadata "mm/h" !! "timestamps" = Some (VSeq ts) /\
    2 <= length ts /\ shape series_4x1x2 !! time_axis series_4x1x2 = Some (length ts).
Proof.
  apply (aggregate_fields_time_requires series_4x1x2 (rain_metadata "mm/h") 10%Q
           (returned_or (aggregate_fields_time series_4x1x2 (rain_metadata "mm/h")
                           (Some 10%Q)) (series_4x1x2, ∅)).1
           (returned_or (aggregate_fields_time series_4x1x2 (rain_metadata "mm/h")
                           (Some 10%Q)) (series_4x1x2, ∅)).2).
  vm_compute. reflexivity.
Defined.

Lemma float_mod_zero_l w : Qeq_bool w 0 = false -> float_mod 0 w = Ok 0%Q.
Proof.
  intros Hw. unfold float_mod. rewrite Hw. cbv zeta.
  assert (Qeq_bool (0 - inject_Z (int_of_Q (0 / w)) * w) 0 = true) as ->; [|done].
  apply Qeq_bool_iff.
  assert (int_of_Q (0 / w) = 0%Z) as ->.
  { unfold int_of_Q, Qdiv, Qmult. cbn [Qnum Qden]. by rewrite Z.mul_0_l. }
  change (inject_Z 0) with 0%Q. ring.
Qed.

(** X7. Of the difference of the first two timestamps
    [aggregate_fields_time] reads only the seconds field, which leaves whole
    days out: for frames a whole number of days apart (or two equal
    timestamps) the sampling interval comes out as zero, and every window
    other than zero ends in the division by it. *)
Theorem aggregate_fields_time_whole_days R md w unit_ a b ts :
  md !! "unit" = Some unit_ ->
  md !! "timestamps" = Some (VSeq (VTime a :: VTime b :: ts)) ->
  3 <= length (shape R) <= 4 ->
  shape R !! time_axis R = Some (2 + length ts) ->
  ((b - a) mod 86400 = 0)%Z ->
  Qeq_bool w 0 = false ->
  aggregate_fields_time R md (Some w) = Raise ZeroDivisionError.
Proof.
  intros Hu Hts Hrank HN Hday Hw.
  unfold aggregate_fields_time, dget. rewrite Hu, bind_ok, Hts, bind_ok.
  destruct (Nat.ltb_spec (length (shape R)) 3); [lia|].
  destruct (Nat.ltb_spec 4 (length (shape R))); [lia|].
  fold (time_axis R). rewrite (shape_at_ok _ _ _ HN), bind_ok.
  unfold vlen, vitem. cbn [as_seq]. rewrite !bind_ok. cbn [length lookup list_lookup].
  rewrite Nat.eqb_refl. cbn [negb]. cbv iota. rewrite !bind_ok.
  cbn [delta_seconds]. rewrite bind_ok, Hday. cbv zeta.
  change (b64 (inject_Z 0 / 60)) with 0%Q.
  assert (Hz : Qeq_bool 0 w = false).
  { destruct (Qeq_bool 0 w) eqn:E; [|done].
    apply Qeq_bool_iff in E. apply Qeq_bool_neq in Hw. exfalso. apply Hw.
    by symmetry. }
  rewrite Hz. unfold float_mul.
  rewrite (b64_zero (float_of_int _ * 0)) by apply Qmult_0_r.
  rewrite (float_mod_zero_l w Hw), bind_ok. done.
Qed.

Lemma aggregate_fields_time_whole_days_witness :
  aggregate_fields_time series_3x1x1 daily_metadata (Some 2880%Q) = Raise ZeroDivisionError.
Proof.
  apply (aggregate_fields_time_whole_days series_3x1x1 daily_metadata 2880%Q
           (VStr "mm") 0 86400 [VTime 172800]).
  - reflexivity.
  - reflexivity.
  - simpl. lia.
  - reflexivity.
  - reflexivity.
  - reflexivity.
Defined.

(** ** aggregate_fields_space: metadata and extents *)

Lemma float_div_ok a b q : float_div a b = Ok q -> q = b64 (a / b).
Proof. unfold float_div. destruct (Qeq_bool b 0); [discriminate|]. by intros [= <-]. Qed.

Lemma aggregate_fields_space_inv R md w R' md' :
  aggregate_fields_space R md (Some w) = Ok (R', md') ->
  exists unit_ py px,
    md !! "unit" = Some unit_ /\ md !! "ypixelsize" = Some py /\
    md !! "xpixelsize" = Some px /\ 3 <= length (shape R) <= 4 /\
    ((veq_float py w = true /\ veq_float px w = true /\ R' = R /\ md' = md) \/
     exists y x method Ry,
       to_float py = Ok y /\ to_float px = Ok x /\ method_of_unit unit_ = Ok method /\
       aggregate_fields R (block_size w y) (space_axes R).1 method = Ok Ry /\
       aggregate_fields Ry (block_size w x) (space_axes R).2 method = Ok R' /\
       md' = <["xpixelsize" := VNum w]> (<["ypixelsize" := VNum w]> md)).
Proof.
  unfold aggregate_fields_space. intros H.
  inv_bind H. rename a into unit_. apply dget_ok in E.
  inv_bind H. rename a into py. apply dget_ok in E0.
  inv_bind H. rename a into px. apply dget_ok in E1.
  destruct (Nat.ltb_spec (length (shape R)) 3); [discriminate H|].
  destruct (Nat.ltb_spec 4 (length (shape R))); [discriminate H|].
  fold (space_axes R) in H.
  exists unit_, py, px. do 3 (split; [done|]). split; [lia|].
  inv_if H.
  { injection H as <- <-. left. apply andb_prop in E2 as [Hy Hx]. done. }
  right.
  inv_bind H. rename a into Ny. inv_bind H. rename a into sy.
  inv_bind H. rename a into fy.
  inv_bind H. rename a into ry. inv_bind H. rename a into uneven.
  destruct uneven; [discriminate H|].
  inv_bind H. rename a into y. inv_bind H. rename a into qy.
  inv_bind H. rename a into x.
  inv_bind H. rename a into qx. inv_bind H. rename a into method.
  inv_bind H. rename a into Ry. inv_bind H. injection H as <- <-.
  match goal with Hq : float_div w y = Ok qy |- _ => apply float_div_ok in Hq; subst qy end.
  match goal with Hq : float_div w x = Ok qx |- _ => apply float_div_ok in Hq; subst qx end.
  exists y, x, method, Ry. repeat split; done.
Qed.

(** X8. After a call of [aggregate_fields_space] with a window that returns,
    both pixel sizes of the returned metadata are the window, and every
    other key is as the call found it. *)
Theorem aggregate_fields_space_metadata R md w R' md' :
  aggregate_fields_space R md (Some w) = Ok (R', md') ->
  (exists py px, md' !! "ypixelsize" = Some py /\ md' !! "xpixelsize" = Some px /\
                 veq_float py w = true /\ veq_float px w = true) /\
  forall k, k <> "ypixelsize" -> k <> "xpixelsize" -> md' !! k = md !! k.
Proof.
  intros H. apply aggregate_fields_space_inv in H
    as (unit_ & py & px & _ & Hpy & Hpx & _ & [(Hy & Hx & _ & ->)|H]).
  { split; [by exists py, px|done]. }
  destruct H as (y & x & method & Ry & _ & _ & _ & _ & _ & ->). split.
  - exists (VNum w), (VNum w).
    rewrite lookup_insert_ne, !lookup_insert_eq by done.
    repeat split; simpl; apply Qeq_bool_iff; reflexivity.
  - intros k Hk1 Hk2. by rewrite !lookup_insert_ne.
Qed.

Lemma aggregate_fields_space_metadata_witness :
  let out := returned_or (aggregate_fields_space series_1x2x2 (rain_metadata "mm") (Some 2%Q))
                         (series_1x2x2, ∅) in
  (exists py px, out.2 !! "ypixelsize" = Some py /\ out.2 !! "xpixelsize" = Some px /\
                 veq_float py 2 = true /\ veq_float px 2 = true) /\
  forall k, k <> "ypixelsize" -> k <> "xpixelsize" ->
            out.2 !! k = rain_metadata "mm" !! k.
Proof.
  intros out.
  apply (aggregate_fields_space_metadata series_1x2x2 (rain_metadata "mm") 2%Q out.1).
  vm_compute. reflexivity.
Defined.

Lemma space_axes_lt R : 3 <= length (shape R) -> (space_axes R).1 < (space_axes R).2 < length (shape R).
Proof. unfold space_axes. intros H. destruct (Nat.eqb_spec (length (shape R)) 3); simpl; lia. Qed.

(** X9. A call of [aggregate_fields_space] that aggregated divided the
    extents of the two spatial axes by the block sizes [int(window /
    ypixelsize)] and [int(window / xpixelsize)], of the quotients in
    binary64, which are at least 1, and left the other axes alone. *)
Theorem aggregate_fields_space_shape R md w R' md' :
  wf R -> aggregate_fields_space R md (Some w) = Ok (R', md') ->
  (R' = R /\ md' = md) \/
  exists py px y x Ny Nx,
    md !! "ypixelsize" = Some py /\ to_float py = Ok y /\
    md !! "xpixelsize" = Some px /\ to_float px = Ok x /\
    shape R !! (space_axes R).1 = Some Ny /\ shape R !! (space_axes R).2 = Some Nx /\
    let ny := Z.to_nat (block_size w y) in
    let nx := Z.to_nat (block_size w x) in
    1 <= ny /\ 1 <= nx /\
    shape R' = <[(space_axes R).2 := Nx / nx]> (<[(space_axes R).1 := Ny / ny]> (shape R)).
Proof.
  intros Hwf H. apply aggregate_fields_space_inv in H
    as (unit_ & py & px & _ & Hpy & Hpx & Hrank & [(_ & _ & -> & ->)|H]); [by left|].
  destruct H as (y & x & method & Ry & Hy & Hx & _ & Hagg1 & Hagg2 & _). right.
  destruct (space_axes_lt R ltac:(lia)) as [Hlt Hax].
  destruct (aggregate_fields_ok_inv _ _ _ _ _ Hagg1) as (Ny & f & HNy & HNypos & Hypos & Hymod & Hf).
  destruct (aggregate_fields_spec R _ _ _ f _ Hwf HNy HNypos Hypos Hymod Hf)
    as (R1 & HR1 & Hwf1 & Hshape1 & _).
  rewrite Hagg1 in HR1. injection HR1 as <-.
  destruct (aggregate_fields_ok_inv _ _ _ _ _ Hagg2) as (Nx & g & HNx & HNxpos & Hxpos & Hxmod & Hg).
  destruct (aggregate_fields_spec Ry _ _ _ g _ Hwf1 HNx HNxpos Hxpos Hxmod Hg)
    as (R2 & HR2 & _ & Hshape2 & _).
  rewrite Hagg2 in HR2. injection HR2 as <-.
  exists py, px, y, x, Ny, Nx. do 5 (split; [done|]).
  rewrite Hshape1, list_lookup_insert_ne in HNx by lia.
  split; [done|]. cbv zeta. split; [lia|]. split; [lia|].
  by rewrite Hshape2, Hshape1.
Qed.

Lemma aggregate_fields_space_shape_witness :
  let out := returned_or (aggregate_fields_space series_1x2x2 (rain_metadata "mm") (Some 2%Q))
                         (series_1x2x2, ∅) in
  (out.1 = series_1x2x2 /\ out.2 = rain_metadata "mm") \/
  exists py px y x Ny Nx,
    rain_metadata "mm" !! "ypixelsize" = Some py /\ to_float py = Ok y /\
    rain_metadata "mm" !! "xpixelsize" = Some px /\ to_float px = Ok x /\
    shape series_1x2x2 !! (space_axes series_1x2x2).1 = Some Ny /\
    shape series_1x2x2 !! (space_axes series_1x2x2).2 = Some Nx /\
    let ny := Z.to_nat (block_size 2 y) in
    let nx := Z.to_nat (block_size 2 x) in
    1 <= ny /\ 1 <= nx /\
    shape out.1 = <[(space_axes series_1x2x2).2 := Nx / nx]>
                    (<[(space_axes series_1x2x2).1 := Ny / ny]> (shape series_1x2x2)).
Proof.
  intros out.
  apply (aggregate_fields_space_shape series_1x2x2 (rain_metadata "mm") 2%Q out.1 out.2).
  - reflexivity.
  - vm_compute. reflexivity.
Defined.

(** ** adjust_domain: bounds, extents and values *)

Ltac use_reads :=
  repeat match goal with
         | E : dget _ _ = Ok _ |- _ => rewrite E
         | E : int_quotient _ _ = Ok _ |- _ => rewrite E
         | |- context [Ok _ ≫= _] => rewrite bind_ok
         end.

Lemma adjust_domain_inv R md xlim ylim R' md' :
  xlim <> None \/ ylim <> None ->
  adjust_domain R md xlim ylim = Ok (R', md') ->
  exists R4 n t Y X xl yl px py z ny nx src R_ sy sx sy_ sx_,
    promote "The number of dimension must be > 1" R = Ok R4 /\
    shape R4 = [n; t; Y; X] /\
    limits md xlim "x1" "x2" = Ok xl /\ limits md ylim "y1" "y2" = Ok yl /\
    number_at md "xpixelsize" = Ok px /\ number_at md "ypixelsize" = Ok py /\
    number_at md "zerovalue" = Ok z /\
    grid_extent xl px = Ok nx /\ grid_extent yl py = Ok ny /\
    getitem_yx R4 sy sx = Ok src /\
    setitem_yx (ones_times [n; t; ny; nx] (Fin z)) sy_ sx_ src = Ok R_ /\
    R' = squeeze R_ /\
    md' = <["x2" := VNum (qmax xl)]> (<["x1" := VNum (qmin xl)]>
            (<["y2" := VNum (qmax yl)]> (<["y1" := VNum (qmin yl)]> md))).
Proof.
  unfold adjust_domain. intros Hlim H.
  destruct xlim as [[xa xb]|], ylim as [[ya yb]|]; [| | |destruct Hlim; done];
    (do 3 inv_bind H;
     match type of H with
     | match shape ?a with _ => _ end = _ =>
         destruct (shape a) as [|n [|t [|Y [|X [|? ?]]]]] eqn:Hs; try discriminate H
     end;
     cbv zeta in H; repeat inv_bind H; injection H as <- <-;
     repeat match goal with
            | E : (Ok _ ≫= _) = Ok _ |- _ => rewrite bind_ok in E
            | E : astype_float (VNum _, VNum _) = Ok _ |- _ => cbn in E
            | E : Ok _ = Ok _ |- _ => injection E as <-
            end;
     do 18 eexists;
     split; [first [eassumption|reflexivity]|]; split; [eassumption|];
     split; [unfold limits; use_reads; first [reflexivity|eassumption]|];
     split; [unfold limits; use_reads; first [reflexivity|eassumption]|];
     split; [unfold number_at; use_reads; eassumption|];
     split; [unfold number_at; use_reads; eassumption|];
     split; [unfold number_at; use_reads; eassumption|];
     split; [unfold grid_extent; use_reads; eassumption|];
     split; [unfold grid_extent; use_reads; eassumption|];
     split; [eassumption|]; split; [eassumption|]; split; reflexivity).
Qed.

Lemma qmin_le_qmax p : (qmin p <= qmax p)%Q.
Proof.
  unfold qmin, qmax. destruct (Qle_bool p.1 p.2) eqn:E.
  - by apply Qle_bool_iff.
  - apply Qlt_le_weak, Qnot_le_lt. intros Hle. apply Qle_bool_iff in Hle. congruence.
Qed.

(** X10. After a call of [adjust_domain] with a limit that returns, the
    bounds of the returned metadata are the limits the call worked with, the
    smaller one first whatever the order they were given in, and every other
    key is as the call found it. *)
Theorem adjust_domain_bounds R md xlim ylim R' md' :
  xlim <> None \/ ylim <> None ->
  adjust_domain R md xlim ylim = Ok (R', md') ->
  exists xl yl,
    limits md xlim "x1" "x2" = Ok xl /\ limits md ylim "y1" "y2" = Ok yl /\
    md' !! "x1" = Some (VNum (qmin xl)) /\ md' !! "x2" = Some (VNum (qmax xl)) /\
    md' !! "y1" = Some (VNum (qmin yl)) /\ md' !! "y2" = Some (VNum (qmax yl)) /\
    (qmin xl <= qmax xl)%Q /\ (qmin yl <= qmax yl)%Q /\
    forall k, k <> "x1" -> k <> "x2" -> k <> "y1" -> k <> "y2" -> md' !! k = md !! k.
Proof.
  intros Hlim H.
  destruct (adjust_domain_inv _ _ _ _ _ _ Hlim H)
    as (R4 & n & t & Y & X & xl & yl & px & py & z & ny & nx & src & R_ & sy & sx & sy_ & sx_ &
        _ & _ & Hxl & Hyl & _ & _ & _ & _ & _ & _ & _ & _ & ->).
  exists xl, yl. do 2 (split; [done|]).
  split; [by rewrite lookup_insert_ne, lookup_insert_eq by done|].
  split; [by rewrite lookup_insert_eq|].
  split; [by rewrite !lookup_insert_ne, lookup_insert_eq by done|].
  split; [by rewrite !lookup_insert_ne, lookup_insert_eq by done|].
  split; [apply qmin_le_qmax|]. split; [apply qmin_le_qmax|].
  intros k H1 H2 H3 H4. by rewrite !lookup_insert_ne.
Qed.

Lemma adjust_domain_bounds_witness :
  let out := returned_or (adjust_domain series_1x2x3 sample_bounds (Some (3, 0)%Q) None)
                         (series_1x2x3, ∅) in
  exists xl yl,
    limits sample_bounds (Some (3, 0)%Q) "x1" "x2" = Ok xl /\
    limits sample_bounds None "y1" "y2" = Ok yl /\
    out.2 !! "x1" = Some (VNum (qmin xl)) /\ out.2 !! "x2" = Some (VNum (qmax xl)) /\
    out.2 !! "y1" = Some (VNum (qmin yl)) /\ out.2 !! "y2" = Some (VNum (qmax yl)) /\
    (qmin xl <= qmax xl)%Q /\ (qmin yl <= qmax yl)%Q /\
    forall k, k <> "x1" -> k <> "x2" -> k <> "y1" -> k <> "y2" ->
              out.2 !! k = sample_bounds !! k.
Proof.
  intros out.
  apply (adjust_domain_bounds series_1x2x3 sample_bounds (Some (3, 0)%Q) None out.1).
  - left. discriminate.
  - vm_compute. reflexivity.
Defined.



Lemma tabulate_Forall (P : num -> Prop) s f :
  (forall idx, inbounds s idx -> P (f idx)) -> Forall P (tabulate s f).
Proof.
  intros H. apply Forall_lookup. intros p x Hx.
  assert (Hp : p < size_of s).
  { apply lookup_lt_Some in Hx. by rewrite length_tabulate in Hx. }
  rewrite <- (ravel_unravel s p Hp), tabulate_lookup in Hx by (by apply unravel_inbounds).
  injection Hx as <-. apply H. by apply unravel_inbounds.
Qed.

Lemma item_elem_of s d idx :
  length d = size_of s -> inbounds s idx -> item (NDArray s d) idx ∈ d.
Proof.
  intros Hl Hin. unfold item. cbn [shape data]. apply ravel_lt in Hin.
  destruct (lookup_lt_is_Some_2 d (ravel s idx)) as [x Hx]; [lia|].
  rewrite (nth_lookup_Some _ _ _ _ Hx). by eapply list_elem_of_lookup_2.
Qed.

Lemma nmul_one v : nmul none_ v = v.
Proof.
  destruct v as [[a b]|]; [|done]. unfold nmul, none_, Qmult. cbn [Qnum Qden].
  by rewrite Z.mul_1_l.
Qed.

Lemma bcast_lt n' n i : (n' =? n) || (n' =? 1) = true -> i < n -> bcast n' i < n'.
Proof.
  unfold bcast. intros H Hi.
  destruct (Nat.eqb_spec n' 1) as [->|]; [lia|].
  destruct (Nat.eqb_spec n' n); [lia|done].
Qed.

(** What a slice assignment that succeeds leaves in the array. *)
Lemma setitem_yx_item n t Y X d sy sx n' t' Y' X' ds r :
  setitem_yx (NDArray [n; t; Y; X] d) sy sx (NDArray [n'; t'; Y'; X'] ds) = Ok r ->
  r = build [n; t; Y; X] (fun idx => item r idx) /\
  (n' =? n) || (n' =? 1) = true /\ (t' =? t) || (t' =? 1) = true /\
  (Y' =? (span sy Y).2) || (Y' =? 1) = true /\
  (X' =? (span sx X).2) || (X' =? 1) = true /\
  forall i j y x, i < n -> j < t -> y < Y -> x < X ->
    item r [i; j; y; x]
    = if in_window (sy, sx) Y X y x
      then item (NDArray [n'; t'; Y'; X'] ds)
                [bcast n' i; bcast t' j; bcast Y' (y - (span sy Y).1);
                 bcast X' (x - (span sx X).1)]
      else item (NDArray [n; t; Y; X] d) [i; j; y; x].
Proof.
  unfold setitem_yx, in_window. cbn [shape fst snd].
  destruct (span sy Y) as [y0 ly], (span sx X) as [x0 lx]. cbn [fst snd].
  destruct (forallb _ _) eqn:Hb; [|discriminate]. intros [= <-].
  simpl in Hb. rewrite !andb_true_iff in Hb. destruct Hb as (Hn & Ht & HY & HX & _).
  split.
  { unfold build. f_equal. apply tabulate_ext. intros idx Hidx.
    by rewrite item_tabulate. }
  do 4 (split; [done|]).
  intros i j y x Hi Hj Hy Hx.
  by rewrite item_build by (by apply inbounds4_intro).
Qed.

Lemma in_window_bounds sy sx Y X y x :
  in_window (sy, sx) Y X y x = true ->
  (span sy Y).1 <= y < (span sy Y).1 + (span sy Y).2 /\
  (span sx X).1 <= x < (span sx X).1 + (span sx X).2.
Proof.
  unfold in_window. cbn [fst snd]. intros E.
  apply andb_prop in E as [E Hx2]. apply andb_prop in E as [E Hx1].
  apply andb_prop in E as [Hy1 Hy2].
  apply Nat.leb_le in Hy1, Hx1. apply Nat.ltb_lt in Hy2, Hx2. lia.
Qed.

(** X12. A call of [adjust_domain] with a limit that returns invents no
    value: every element of the output is the zerovalue of the metadata or
    an element of the input. *)
Theorem adjust_domain_values R md xlim ylim R' md' :
  wf R -> xlim <> None \/ ylim <> None ->
  adjust_domain R md xlim ylim = Ok (R', md') ->
  exists z, number_at md "zerovalue" = Ok z /\
            Forall (fun v => v = Fin z \/ v ∈ data R) (data R').
Proof.
  intros Hwf Hlim H.
  destruct (adjust_domain_inv _ _ _ _ _ _ Hlim H)
    as (R4 & n & t & Y & X & xl & yl & px & py & z & ny & nx & src & R_ & sy & sx & sy_ & sx_ &
        Hprom & Hs & _ & _ & _ & _ & Hz & _ & _ & Hget & Hset & -> & _).
  exists z. split; [done|].
  apply promote_inv in Hprom as (lead & n' & t' & Y' & X' & HR & Hl & Hnt & ->).
  cbn [shape] in Hs. injection Hs as -> -> -> ->.
  assert (Hlen : length (data R) = size_of [n; t; Y; X]).
  { rewrite Hwf, HR. symmetry. by apply size_promoted. }
  destruct (getitem_yx_item _ _ _ _ _ _ _ _ Hget) as (Hss & Hsrc & Hgi).
  pose proof (span_bound sy Y) as HbY. pose proof (span_bound sx X) as HbX.
  destruct src as [ss ds]. cbn [shape] in Hss. subst ss.
  change (ones_times [n; t; ny; nx] (Fin z))
    with (NDArray [n; t; ny; nx] (data (ones_times [n; t; ny; nx] (Fin z)))) in Hset.
  destruct (setitem_yx_item _ _ _ _ _ _ _ _ _ _ _ _ _ Hset) as (Hr & Hbn & Hbt & HbY' & HbX' & Hsi).
  unfold squeeze. cbn [data]. rewrite Hr. unfold build. cbn [data].
  apply tabulate_Forall. intros idx Hidx.
  apply inbounds4 in Hidx as (i & j & y & x & -> & Hi & Hj & Hy & Hx).
  rewrite (Hsi i j y x Hi Hj Hy Hx).
  destruct (in_window (sy_, sx_) ny nx y x) eqn:Hw.
  - right. apply in_window_bounds in Hw as [Hwy Hwx].
    pose proof (bcast_lt _ _ i Hbn Hi). pose proof (bcast_lt _ _ j Hbt Hj).
    pose proof (bcast_lt _ _ (y - (span sy_ ny).1) HbY' ltac:(lia)).
    pose proof (bcast_lt _ _ (x - (span sx_ nx).1) HbX' ltac:(lia)).
    rewrite Hgi by done. apply item_elem_of; [done|]. apply inbounds4_intro; lia.
  - left.
    change (NDArray [n; t; ny; nx] (data (ones_times [n; t; ny; nx] (Fin z))))
      with (ones_times [n; t; ny; nx] (Fin z)).
    unfold ones_times. rewrite item_build by (by apply inbounds4_intro).
    apply nmul_one.
Qed.

Lemma adjust_domain_values_witness :
  let out := returned_or (adjust_domain series_1x2x3 sample_bounds (Some (3, 0)%Q) None)
                         (series_1x2x3, ∅) in
  exists z, number_at sample_bounds "zerovalue" = Ok z /\
            Forall (fun v => v = Fin z \/ v ∈ data series_1x2x3) (data out.1).
Proof.
  intros out.
  apply (adjust_domain_values series_1x2x3 sample_bounds (Some (3, 0)%Q) None out.1 out.2).
  - reflexivity.
  - left. discriminate.
  - vm_compute. reflexivity.
Defined.

(** ** square_domain: method, record and extents *)

(** The forward direction on a field that is not square, method pad. *)
Lemma square_domain_pad_eq R md n t oy ox :
  promote "The number of dimension must be > 1" R = Ok (NDArray [n; t; oy; ox] (data R)) ->
  oy <> ox ->
  square_domain R md "pad" false =
  (m ← amin (NDArray [n; t; oy; ox] (data R));
   R_ ← setitem_yx (ones_times [n; t; Nat.max oy ox; Nat.max oy ox] m)
          (pad_window oy ox).1 (pad_window oy ox).2 (NDArray [n; t; oy; ox] (data R));
   md1 ← (if ox <? oy
          then shift_bounds vsub vadd "x1" "x2" "xpixelsize" (idx_buffer_of oy ox) md
          else shift_bounds vsub vadd "y1" "y2" "ypixelsize" (idx_buffer_of oy ox) md);
   Ok (Pair (squeeze R_)
            (<["square_method" := VStr "pad"]>
               (<["orig_domain" := VSeq [VInt (Z.of_nat oy); VInt (Z.of_nat ox)]]> md1)))).
Proof.
  intros Hprom Hsq. unfold square_domain. cbn [negb]. cbv iota.
  rewrite Hprom, bind_ok. cbn [shape]. cbv iota.
  destruct (Nat.eqb_spec oy ox) as [|_]; [done|].
  change (String.eqb "pad" "pad") with true. cbv iota.
  unfold pad_window, idx_buffer_of, shift_bounds.
  destruct (amin _) as [m|]; [|done]. rewrite !bind_ok.
  destruct (Nat.ltb_spec ox oy) as [Hlt|Hge].
  - replace (Nat.max oy ox) with oy by lia. replace (Nat.min oy ox) with ox by lia.
    destruct (Nat.ltb_spec ox oy) as [_|]; [|lia]. cbn [fst snd].
    destruct (setitem_yx _ _ _ _) as [R_|]; [|done]. rewrite !bind_ok.
    destruct (shift_bound vsub _ _ _ _) as [m1|]; [|done]. rewrite !bind_ok.
    destruct (shift_bound vadd _ _ _ _) as [m2|]; done.
  - replace (Nat.max oy ox) with ox by lia. replace (Nat.min oy ox) with oy by lia.
    destruct (Nat.ltb_spec ox ox) as [|_]; [lia|].
    destruct (Nat.ltb_spec oy ox) as [_|]; [|lia]. cbn [fst snd].
    destruct (setitem_yx _ _ _ _) as [R_|]; [|done]. rewrite !bind_ok.
    destruct (shift_bound vsub _ _ _ _) as [m1|]; [|done]. rewrite !bind_ok.
    destruct (shift_bound vadd _ _ _ _) as [m2|]; done.
Qed.

(** The forward direction on a field that is not square, method crop. *)
Lemma square_domain_crop_eq R md n t oy ox :
  promote "The number of dimension must be > 1" R = Ok (NDArray [n; t; oy; ox] (data R)) ->
  oy <> ox ->
  square_domain R md "crop" false =
  (R_ ← getitem_yx (NDArray [n; t; oy; ox] (data R))
          (crop_window oy ox).1 (crop_window oy ox).2;
   md1 ← (if oy <? ox
          then shift_bounds vadd vsub "x1" "x2" "xpixelsize" (idx_buffer_of oy ox) md
          else shift_bounds vadd vsub "y1" "y2" "ypixelsize" (idx_buffer_of oy ox) md);
   Ok (Pair (squeeze R_)
            (<["square_method" := VStr "crop"]>
               (<["orig_domain" := VSeq [VInt (Z.of_nat oy); VInt (Z.of_nat ox)]]> md1)))).
Proof.
  intros Hprom Hsq. unfold square_domain. cbn [negb]. cbv iota.
  rewrite Hprom, bind_ok. cbn [shape]. cbv iota.
  destruct (Nat.eqb_spec oy ox) as [|_]; [done|].
  change (String.eqb "crop" "pad") with false.
  change (String.eqb "crop" "crop") with true. cbv iota.
  unfold crop_window, idx_buffer_of, shift_bounds.
  destruct (Nat.ltb_spec oy ox) as [Hlt|Hge].
  - replace (Nat.max oy ox) with ox by lia. replace (Nat.min oy ox) with oy by lia.
    destruct (Nat.ltb_spec oy ox) as [_|]; [|lia]. cbn [fst snd].
    destruct (getitem_yx _ _ _) as [R_|]; [|done]. rewrite !bind_ok.
    destruct (shift_bound vadd _ _ _ _) as [m1|]; [|done]. rewrite !bind_ok.
    destruct (shift_bound vsub _ _ _ _) as [m2|]; done.
  - replace (Nat.max oy ox) with oy by lia. replace (Nat.min oy ox) with ox by lia.
    destruct (Nat.ltb_spec ox ox) as [|_]; [lia|].
    destruct (Nat.ltb_spec ox oy) as [_|]; [|lia]. cbn [fst snd].
    destruct (getitem_yx _ _ _) as [R_|]; [|done]. rewrite !bind_ok.
    destruct (shift_bound vadd _ _ _ _) as [m1|]; [|done]. rewrite !bind_ok.
    destruct (shift_bound vsub _ _ _ _) as [m2|]; done.
Qed.

(** The cases of the forward direction. *)
Lemma square_domain_forward_cases R md method r :
  square_domain R md method false = Ok r ->
  exists lead n t oy ox,
    shape R = (lead ++ [oy; ox])%list /\ length lead <= 2 /\
    [n; t] = (replicate (2 - length lead) 1 ++ lead)%list /\
    promote "The number of dimension must be > 1" R = Ok (NDArray [n; t; oy; ox] (data R)) /\
    ((oy = ox /\ r = JustArray (squeeze (NDArray [n; t; oy; ox] (data R)))) \/
     (oy <> ox /\ (method = "pad" \/ method = "crop"))).
Proof.
  intros H. pose proof H as H0. unfold square_domain in H. cbn [negb] in H. cbv iota in H.
  inv_bind H. rename a into R4.
  destruct (promote_inv _ _ _ E) as (lead & n & t & oy & ox & Hs & Hl & Hnt & ->).
  exists lead, n, t, oy, ox. do 4 (split; [done|]).
  cbn [shape] in H. cbv iota in H.
  destruct (Nat.eqb_spec oy ox) as [->|Hne].
  { left. by injection H as <-. }
  right. split; [done|].
  destruct (String.eqb_spec method "pad") as [|_]; [by left|].
  destruct (String.eqb_spec method "crop") as [|_]; [by right|].
  discriminate H.
Qed.

Lemma shift_bound_frame op k p b md md' k' :
  shift_bound op k p b md = Ok md' -> k' <> k -> md' !! k' = md !! k'.
Proof.
  unfold shift_bound. intros H Hk. do 4 inv_bind H. injection H as <-.
  by rewrite lookup_insert_ne.
Qed.

Lemma shift_bounds_frame op1 op2 k1 k2 p b md md' k' :
  shift_bounds op1 op2 k1 k2 p b md = Ok md' -> k' <> k1 -> k' <> k2 ->
  md' !! k' = md !! k'.
Proof.
  unfold shift_bounds. intros H H1 H2. inv_bind H.
  rewrite (shift_bound_frame _ _ _ _ _ _ _ H H2).
  by apply (shift_bound_frame _ _ _ _ _ _ _ E).
Qed.

Lemma squeeze_promoted R lead n t Y X :
  shape R = (lead ++ [Y; X])%list ->
  [n; t] = (replicate (2 - length lead) 1 ++ lead)%list ->
  squeeze (NDArray [n; t; Y; X] (data R)) = squeeze R.
Proof.
  intros Hs Hnt. unfold squeeze. cbn [shape data]. f_equal.
  by rewrite (filter_promoted lead), Hs.
Qed.

(** X13. [square_domain] refuses a method other than pad and crop only when
    there is something to do: on a field that is not square the forward call
    raises, and a square field comes back squeezed whatever the method says.
    *)
Theorem square_domain_unknown_method R md method lead oy ox :
  shape R = (lead ++ [oy; ox])%list -> length lead <= 2 ->
  method <> "pad" -> method <> "crop" ->
  square_domain R md method false
  = if oy =? ox then Ok (JustArray (squeeze R)) else Raise (ValueError "Unknown type" []).
Proof.
  intros Hs Hl Hpad Hcrop.
  destruct (promote_rank R "The number of dimension must be > 1" lead oy ox Hs Hl)
    as (n & t & Hprom & Hnt).
  unfold square_domain. cbn [negb]. cbv iota. rewrite Hprom, bind_ok.
  cbn [shape]. cbv iota.
  destruct (Nat.eqb_spec oy ox) as [<-|Hne].
  - by rewrite (squeeze_promoted R lead).
  - destruct (String.eqb_spec method "pad"); [done|].
    destruct (String.eqb_spec method "crop"); done.
Qed.

Lemma square_domain_unknown_method_witness :
  square_domain field_2x3 sample_bounds "extend" false
  = if 2 =? 3 then Ok (JustArray (squeeze field_2x3))
    else Raise (ValueError "Unknown type" []).
Proof.
  apply (square_domain_unknown_method field_2x3 sample_bounds "extend" [] 2 3).
  - reflexivity.
  - simpl. lia.
  - discriminate.
  - discriminate.
Defined.

(** X14. A forward call of [square_domain] that returns metadata worked on a
    field that is not square with method pad or crop; the metadata record
    the method and the spatial extents of the input, and apart from these
    two keys only the four bounds can differ from the metadata given. *)
Theorem square_domain_records R md method R' md' :
  square_domain R md method false = Ok (Pair R' md') ->
  exists oy ox,
    spatial_shape R = [oy; ox] /\ oy <> ox /\ (method = "pad" \/ method = "crop") /\
    md' !! "square_method" = Some (VStr method) /\
    md' !! "orig_domain" = Some (VSeq [VInt (Z.of_nat oy); VInt (Z.of_nat ox)]) /\
    forall k, k ∉ ["x1"; "x2"; "y1"; "y2"; "square_method"; "orig_domain"] ->
              md' !! k = md !! k.
Proof.
  intros H.
  destruct (square_domain_forward_cases _ _ _ _ H)
    as (lead & n & t & oy & ox & Hs & Hl & Hnt & Hprom & [[_ [=]]|[Hne Hm]]).
  exists oy, ox. split; [by apply (leading_shape_app R lead)|].
  do 2 (split; [done|]).
  assert (exists md1,
    md' = <["square_method" := VStr method]>
            (<["orig_domain" := VSeq [VInt (Z.of_nat oy); VInt (Z.of_nat ox)]]> md1) /\
    forall k, k <> "x1" -> k <> "x2" -> k <> "y1" -> k <> "y2" -> md1 !! k = md !! k)
    as (md1 & -> & Hframe).
  { destruct Hm as [-> | ->].
    - rewrite (square_domain_pad_eq R md n t oy ox Hprom Hne) in H.
      do 3 inv_bind H. injection H as <- <-. eexists. split; [done|].
      intros k H1 H2 H3 H4. destruct (ox <? oy); by eapply shift_bounds_frame.
    - rewrite (square_domain_crop_eq R md n t oy ox Hprom Hne) in H.
      do 2 inv_bind H. injection H as <- <-. eexists. split; [done|].
      intros k H1 H2 H3 H4. destruct (oy <? ox); by eapply shift_bounds_frame. }
  split; [by rewrite lookup_insert_eq|].
  split; [by rewrite lookup_insert_ne, lookup_insert_eq by done|].
  intros k Hk. rewrite !not_elem_of_cons in Hk.
  destruct Hk as (H1 & H2 & H3 & H4 & H5 & H6 & _).
  rewrite !lookup_insert_ne by done. by apply Hframe.
Qed.

Lemma square_domain_records_witness :
  let out := returned_or (square_domain field_2x3 sample_bounds "crop" false)
                         (JustArray field_2x3) in
  let md' := match out with Pair _ m => m | JustArray _ => ∅ end in
  exists oy ox,
    spatial_shape field_2x3 = [oy; ox] /\ oy <> ox /\ ("crop" = "pad" \/ "crop" = "crop") /\
    md' !! "square_method" = Some (VStr "crop") /\
    md' !! "orig_domain" = Some (VSeq [VInt (Z.of_nat oy); VInt (Z.of_nat ox)]) /\
    forall k, k ∉ ["x1"; "x2"; "y1"; "y2"; "square_method"; "orig_domain"] ->
              md' !! k = sample_bounds !! k.
Proof.
  intros out md'.
  apply (square_domain_records field_2x3 sample_bounds "crop" (array_of out) md').
  vm_compute. reflexivity.
Defined.

(** X15. What the forward direction of [square_domain] returns is square:
    its two spatial extents are the common extent of a square input, the
    larger extent of the input under pad and the smaller one under crop; the
    leading extents are the input's, and every extent of 1 is removed. *)
Theorem square_domain_squared R md method r :
  square_domain R md method false = Ok r ->
  exists oy ox,
    spatial_shape R = [oy; ox] /\
    let d := if oy =? ox then oy
             else if String.eqb method "pad" then Nat.max oy ox else Nat.min oy ox in
    shape (array_of r) = filter (fun n => n ≠ 1) (leading_shape R ++ [d; d])%list.
Proof.
  intros H.
  destruct (square_domain_forward_cases _ _ _ _ H)
    as (lead & n & t & oy & ox & Hs & Hl & Hnt & Hprom & Hcases).
  destruct (leading_shape_app R lead oy ox Hs) as [Hlead Hsp].
  exists oy, ox. split; [done|]. rewrite Hlead. cbv zeta.
  destruct Hcases as [[<- ->]|[Hne Hm]].
  { rewrite Nat.eqb_refl. cbn [array_of squeeze shape]. by apply filter_promoted. }
  destruct (Nat.eqb_spec oy ox) as [|_]; [done|].
  destruct Hm as [-> | ->].
  - rewrite (square_domain_pad_eq R md n t oy ox Hprom Hne) in H.
    do 3 inv_bind H. injection H as <-. cbn [array_of squeeze shape].
    match goal with Hset : setitem_yx _ _ _ _ = Ok _ |- _ =>
      apply setitem_yx_shape in Hset; rewrite Hset end.
    cbn [String.eqb Ascii.eqb Bool.eqb]. cbn [ones_times build shape].
    by apply filter_promoted.
  - rewrite (square_domain_crop_eq R md n t oy ox Hprom Hne) in H.
    do 2 inv_bind H. injection H as <-. cbn [array_of squeeze shape].
    match goal with Hget : getitem_yx _ _ _ = Ok _ |- _ =>
      apply getitem_yx_item in Hget as (Hsh & _); rewrite Hsh end.
    destruct (crop_window_spans oy ox Hne) as [-> ->].
    change (String.eqb "crop" "pad") with false. cbv iota.
    by apply filter_promoted.
Qed.

Lemma square_domain_squared_witness :
  let out := returned_or (square_domain series_1x2x3 sample_bounds "pad" false)
                         (JustArray series_1x2x3) in
  exists oy ox,
    spatial_shape series_1x2x3 = [oy; ox] /\
    let d := if oy =? ox then oy
             else if String.eqb "pad" "pad" then Nat.max oy ox else Nat.min oy ox in
    shape (array_of out)
    = filter (fun n => n ≠ 1) (leading_shape series_1x2x3 ++ [d; d])%list.
Proof.
  intros out.
  apply (square_domain_squared series_1x2x3 sample_bounds "pad" out).
  vm_compute. reflexivity.
Defined.

Lemma inbounds_app_yx lead Y X l y x :
  inbounds (lead ++ [Y; X])%list (l ++ [y; x])%list <->
  inbounds lead l /\ y < Y /\ x < X.
Proof.
  unfold inbounds. split.
  - intros H. apply Forall2_app_inv_l in H as (l1 & l2 & H1 & H2 & Heq).
    apply Forall2_cons_inv_l in H2 as (y' & r & Hy & H2 & ->).
    apply Forall2_cons_inv_l in H2 as (x' & r' & Hx & H2 & ->).
    apply Forall2_nil_inv_l in H2 as ->.
    apply app_inj_2 in Heq as [-> [= -> ->]]; done.
  - intros (H & Hy & Hx). apply Forall2_app; [done|]. by repeat constructor.
Qed.

Lemma promoted_ravel lead Y X n t l y x :
  length lead <= 2 -> [n; t] = (replicate (2 - length lead) 1 ++ lead)%list ->
  inbounds lead l -> y < Y -> x < X ->
  (promoted_lead l).1 < n /\ (promoted_lead l).2 < t /\
  ravel [n; t; Y; X] [(promoted_lead l).1; (promoted_lead l).2; y; x]
  = ravel (lead ++ [Y; X])%list (l ++ [y; x])%list.
Proof.
  intros Hl Hnt Hin Hy Hx.
  destruct lead as [|a [|b [|c lead]]]; simpl in Hl; [| | |lia];
    simpl in Hnt; injection Hnt as -> ->.
  - apply Forall2_nil_inv_l in Hin as ->. simpl. lia.
  - apply Forall2_cons_inv_l in Hin as (j & r & Hj & Hin & ->).
    apply Forall2_nil_inv_l in Hin as ->. simpl. lia.
  - apply Forall2_cons_inv_l in Hin as (i & r & Hi & Hin & ->).
    apply Forall2_cons_inv_l in Hin as (j & r' & Hj & Hin & ->).
    apply Forall2_nil_inv_l in Hin as ->. simpl. lia.
Qed.

Lemma pad_window_spans oy ox :
  oy <> ox ->
  (span (pad_window oy ox).1 (Nat.max oy ox)).2 = oy /\
  (span (pad_window oy ox).2 (Nat.max oy ox)).2 = ox.
Proof.
  intros Hsq. unfold pad_window.
  destruct (Nat.ltb_spec ox oy) as [Hlt|Hge]; cbn [fst snd].
  - replace (Nat.max oy ox) with oy by lia.
    destruct (half_diff_nat oy ox ltac:(lia)) as [Hb0 Hb].
    rewrite span_window by done. done.
  - replace (Nat.max oy ox) with ox by lia.
    destruct (half_diff_nat ox oy ltac:(lia)) as [Hb0 Hb].
    rewrite span_window by done. done.
Qed.

(** X16. Method pad of [square_domain] puts the field into the window of the
    square and fills the rest with the minimum of the field: the element of
    the output at spatial position [(y, x)] is the element of the input at
    that position counted from the corner of the window when the position
    lies in the window, and the minimum otherwise. *)
Theorem square_domain_pad_fill R md R' md' :
  square_domain R md "pad" false = Ok (Pair R' md') ->
  exists oy ox m,
    spatial_shape R = [oy; ox] /\ amin R = Ok m /\
    let d := Nat.max oy ox in
    let w := pad_window oy ox in
    forall l y x,
      inbounds (leading_shape R ++ [d; d])%list (l ++ [y; x])%list ->
      item R' (squeeze_index (leading_shape R ++ [d; d])%list (l ++ [y; x])%list)
      = if in_window w d d y x
        then item R (l ++ [y - (span w.1 d).1; x - (span w.2 d).1])%list
        else m.
Proof.
  intros H.
  destruct (square_domain_forward_cases _ _ _ _ H)
    as (lead & n & t & oy & ox & Hs & Hl & Hnt & Hprom & [[_ [=]]|[Hne _]]).
  destruct (leading_shape_app R lead oy ox Hs) as [Hlead Hsp].
  rewrite (square_domain_pad_eq R md n t oy ox Hprom Hne) in H.
  inv_bind H. rename a into m. inv_bind H. rename a into R_. inv_bind H.
  injection H as <- _.
  exists oy, ox, m. split; [done|]. split; [exact E|]. rewrite Hlead. cbv zeta.
  set (d := Nat.max oy ox) in *. set (w := pad_window oy ox) in *.
  destruct (pad_window_spans oy ox Hne) as [Hly Hlx]. fold d w in Hly, Hlx.
  change (ones_times [n; t; d; d] m)
    with (NDArray [n; t; d; d] (data (ones_times [n; t; d; d] m))) in E0.
  destruct (setitem_yx_item _ _ _ _ _ _ _ _ _ _ _ _ _ E0) as (Hr & _ & _ & _ & _ & Hsi).
  intros l y x Hin.
  pose proof Hin as Hin'. apply inbounds_app_yx in Hin' as (Hll & Hy & Hx).
  destruct (promoted_ravel lead d d n t l y x Hl Hnt Hll Hy Hx) as (Hi & Hj & Hrav).
  transitivity (item R_ [(promoted_lead l).1; (promoted_lead l).2; y; x]).
  { unfold item, squeeze. cbn [shape data]. rewrite Hr. cbn [build shape data].
    rewrite (filter_promoted lead n t [d; d] Hnt), ravel_squeeze_index by done.
    by rewrite Hrav. }
  rewrite (Hsi _ _ y x Hi Hj Hy Hx).
  destruct w as [sy sx]. cbn [fst snd] in *.
  destruct (in_window (sy, sx) d d y x) eqn:Hw.
  - apply in_window_bounds in Hw as [Hwy Hwx]. rewrite Hly in Hwy. rewrite Hlx in Hwx.
    rewrite !bcast_id by lia.
    destruct (promoted_ravel lead oy ox n t l (y - (span sy d).1) (x - (span sx d).1)
                Hl Hnt Hll ltac:(lia) ltac:(lia)) as (_ & _ & Hrav').
    unfold item. cbn [shape data]. by rewrite Hs, Hrav'.
  - change (NDArray [n; t; d; d] (data (ones_times [n; t; d; d] m)))
      with (ones_times [n; t; d; d] m).
    unfold ones_times. rewrite item_build by (by apply inbounds4_intro).
    apply nmul_one.
Qed.

Lemma square_domain_pad_fill_witness :
  let out := returned_or (square_domain field_2x3 sample_bounds "pad" false)
                         (JustArray field_2x3) in
  exists oy ox m,
    spatial_shape field_2x3 = [oy; ox] /\ amin field_2x3 = Ok m /\
    let d := Nat.max oy ox in
    let w := pad_window oy ox in
    forall l y x,
      inbounds (leading_shape field_2x3 ++ [d; d])%list (l ++ [y; x])%list ->
      item (array_of out)
           (squeeze_index (leading_shape field_2x3 ++ [d; d])%list (l ++ [y; x])%list)
      = if in_window w d d y x
        then item field_2x3 (l ++ [y - (span w.1 d).1; x - (span w.2 d).1])%list
        else m.
Proof.
  intros out.
  apply (square_domain_pad_fill field_2x3 sample_bounds (array_of out)
           match out with Pair _ m => m | JustArray _ => ∅ end).
  vm_compute. reflexivity.
Defined.

Lemma promote_ok_rank msg R :
  2 <= length (shape R) <= 4 ->
  exists n t Y X, promote msg R = Ok (NDArray [n; t; Y; X] (data R)).
Proof.
  destruct R as [s d]. cbn [shape data]. intros H.
  destruct s as [|a [|b [|c [|e [|? ?]]]]]; simpl in H; try lia; unfold promote; simpl; eauto.
Qed.

Lemma popped_frame (md md2 : gmap string value) :
  (forall k, k ∉ ["x1"; "x2"; "y1"; "y2"] ->
             md2 !! k = delete "orig_domain" (delete "square_method" md) !! k) ->
  md2 !! "square_method" = None /\ md2 !! "orig_domain" = None /\
  forall k, k ∉ ["x1"; "x2"; "y1"; "y2"; "square_method"; "orig_domain"] ->
            md2 !! k = md !! k.
Proof.
  intros H. split; [|split].
  - rewrite H by (rewrite !not_elem_of_cons; repeat split; try done; apply not_elem_of_nil).
    by rewrite lookup_delete_ne, lookup_delete_eq.
  - rewrite H by (rewrite !not_elem_of_cons; repeat split; try done; apply not_elem_of_nil).
    by rewrite lookup_delete_eq.
  - intros k Hk. rewrite !not_elem_of_cons in Hk.
    destruct Hk as (H1 & H2 & H3 & H4 & H5 & H6 & _).
    rewrite H by (rewrite !not_elem_of_cons; repeat split; try done; apply not_elem_of_nil).
    by rewrite !lookup_delete_ne.
Qed.

Ltac shifted_frame E :=
  do 3 inv_bind E; injection E as <- <-;
  let k := fresh "k" in let Hk := fresh "Hk" in
  intros k Hk; rewrite !not_elem_of_cons in Hk;
  repeat match goal with
         | S : shift_bound _ _ _ _ ?m = Ok ?m' |- ?m' !! _ = _ =>
             rewrite (shift_bound_frame _ _ _ _ _ _ k S) by tauto
         end;
  reflexivity.

(** X17. The inverse of [square_domain] takes the record out of the
    metadata: what it returns holds neither [square_method] nor
    [orig_domain], and apart from these two keys only the four bounds can
    differ from the metadata given. So the inverse cannot be applied a
    second time to the metadata it returned: that call ends in the missing
    key. *)
Theorem square_domain_inverse_consumes R md method R' md' :
  square_domain R md method true = Ok (Pair R' md') ->
  md' !! "square_method" = None /\ md' !! "orig_domain" = None /\
  (forall k, k ∉ ["x1"; "x2"; "y1"; "y2"; "square_method"; "orig_domain"] ->
             md' !! k = md !! k) /\
  forall R2 method2, 2 <= length (shape R2) <= 4 ->
    square_domain R2 md' method2 true = Raise (KeyError "square_method").
Proof.
  intros H.
  assert (Hpop : md' !! "square_method" = None /\ md' !! "orig_domain" = None /\
    forall k, k ∉ ["x1"; "x2"; "y1"; "y2"; "square_method"; "orig_domain"] ->
              md' !! k = md !! k).
  { apply popped_frame.
    unfold square_domain in H. cbn [negb] in H. cbv iota in H.
    inv_bind H. inv_shape4 H. do 4 inv_bind H.
    inv_if H; [discriminate H|]. do 3 inv_bind H.
    match goal with p : (ndarray * gmap string value)%type |- _ => destruct p as [R_ md2] end.
    injection H as <- <-.
    match goal with
    | Eb : (if veq_str _ "pad" then _ else _) = Ok _ |- _ =>
        destruct (veq_str _ "pad");
        [|destruct (veq_str _ "crop")];
        repeat match type of Eb with
               | (if ?c then _ else _) = Ok _ => destruct c
               end;
        first [shifted_frame Eb | by injection Eb as <- <-]
    end. }
  destruct Hpop as (Hsm & Hod & Hframe). do 3 (split; [done|]).
  intros R2 method2 Hrank.
  destruct (promote_ok_rank "The number of dimension must be > 2" R2 Hrank)
    as (n & t & Y & X & Hprom).
  unfold square_domain. cbn [negb]. cbv iota. rewrite Hprom, bind_ok.
  cbn [shape]. cbv iota. unfold dget. by rewrite Hsm.
Qed.

Lemma square_domain_inverse_consumes_witness :
  let md1 := <["square_method" := VStr "pad"]>
               (<["orig_domain" := VSeq [VInt 2; VInt 3]]> sample_bounds) in
  let out := returned_or (square_domain (zeros [3; 3]) md1 "pad" true)
                         (JustArray (zeros [3; 3])) in
  let md' := match out with Pair _ m => m | JustArray _ => md1 end in
  md' !! "square_method" = None /\ md' !! "orig_domain" = None /\
  (forall k, k ∉ ["x1"; "x2"; "y1"; "y2"; "square_method"; "orig_domain"] ->
             md' !! k = md1 !! k) /\
  forall R2 method2, 2 <= length (shape R2) <= 4 ->
    square_domain R2 md' method2 true = Raise (KeyError "square_method").
Proof.
  intros md1 out md'.
  apply (square_domain_inverse_consumes (zeros [3; 3]) md1 "pad" (array_of out) md').
  vm_compute. reflexivity.
Defined.

(** ** square_domain: the metadata after pad and inverse *)

Lemma vadd_undoes_vsub : undoes vsub vadd.
Proof.
  intros v d v' H. unfold vadd, vsub, arith in *.
  destruct v, d; try discriminate H; injection H as <-;
    (eexists; split; [reflexivity|]); intros Hv Hd; try discriminate.
  f_equal. lia.
Qed.

Lemma vsub_undoes_vadd : undoes vadd vsub.
Proof.
  intros v d v' H. unfold vadd, vsub, arith in *.
  destruct v, d; try discriminate H; injection H as <-;
    (eexists; split; [reflexivity|]); intros Hv Hd; try discriminate.
  f_equal. lia.
Qed.

Lemma vmul_is_int b pv dv :
  vmul (VInt b) pv = Ok dv -> is_int pv = true -> is_int dv = true.
Proof. destruct pv; try discriminate. by intros [= <-]. Qed.

Lemma shift_bounds_inv op1 op2 k1 k2 p b md m1 :
  k1 <> k2 -> k1 <> p ->
  shift_bounds op1 op2 k1 k2 p b md = Ok m1 ->
  exists v1 v2 pv dv v1' v2',
    md !! k1 = Some v1 /\ md !! k2 = Some v2 /\ md !! p = Some pv /\
    vmul (VInt b) pv = Ok dv /\ op1 v1 dv = Ok v1' /\ op2 v2 dv = Ok v2' /\
    m1 = <[k2 := v2']> (<[k1 := v1']> md).
Proof.
  intros H12 H1p H. unfold shift_bounds in H. inv_bind H. rename a into m0.
  unfold shift_bound in E, H.
  inv_bind E. rename a into v1. inv_bind E. rename a into pv.
  inv_bind E. rename a into dv. inv_bind E. rename a into v1'. injection E as <-.
  inv_bind H. rename a into v2. inv_bind H. rename a into pv'.
  inv_bind H. rename a into dv'. inv_bind H. rename a into v2'. injection H as <-.
  repeat match goal with Hd : dget _ _ = Ok _ |- _ => apply dget_ok in Hd end.
  rewrite lookup_insert_ne in * by done.
  assert (pv' = pv) as -> by congruence. assert (dv' = dv) as -> by congruence.
  by exists v1, v2, pv, dv, v1', v2'.
Qed.

Lemma shift_bounds_ok op1 op2 k1 k2 p b md v1 v2 pv dv v1' v2' :
  k1 <> k2 -> k1 <> p ->
  md !! k1 = Some v1 -> md !! k2 = Some v2 -> md !! p = Some pv ->
  vmul (VInt b) pv = Ok dv -> op1 v1 dv = Ok v1' -> op2 v2 dv = Ok v2' ->
  shift_bounds op1 op2 k1 k2 p b md = Ok (<[k2 := v2']> (<[k1 := v1']> md)).
Proof.
  intros H12 H1p Hk1 Hk2 Hp Hd H1 H2. unfold shift_bounds, shift_bound, dget.
  rewrite Hk1, bind_ok, Hp, bind_ok, Hd, bind_ok, H1, !bind_ok.
  rewrite !lookup_insert_ne by done.
  by rewrite Hk2, bind_ok, Hp, bind_ok, Hd, bind_ok, H2, bind_ok.
Qed.

(** Moving the two bounds back by the same number of pixels. *)
Lemma shift_bounds_undone op1 op2 op1' op2' k1 k2 p b md m1 mdd :
  k1 <> k2 -> k1 <> p -> k2 <> p -> undoes op1 op1' -> undoes op2 op2' ->
  shift_bounds op1 op2 k1 k2 p b md = Ok m1 ->
  (forall k, k = k1 \/ k = k2 \/ k = p -> mdd !! k = m1 !! k) ->
  exists md2,
    shift_bounds op1' op2' k1 k2 p b mdd = Ok md2 /\
    (forall k, k <> k1 -> k <> k2 -> md2 !! k = mdd !! k) /\
    ((forall k v, k = k1 \/ k = k2 \/ k = p -> md !! k = Some v -> is_int v = true) ->
     md2 !! k1 = md !! k1 /\ md2 !! k2 = md !! k2).
Proof.
  intros H12 H1p H2p Hu1 Hu2 H Hsame.
  apply shift_bounds_inv in H
    as (v1 & v2 & pv & dv & v1' & v2' & Hk1 & Hk2 & Hp & Hd & H1 & H2 & ->); [|done..].
  destruct (Hu1 _ _ _ H1) as (v1'' & H1' & Hi1).
  destruct (Hu2 _ _ _ H2) as (v2'' & H2' & Hi2).
  exists (<[k2 := v2'']> (<[k1 := v1'']> mdd)). split; [|split].
  - apply (shift_bounds_ok _ _ _ _ _ _ _ v1' v2' pv dv); try done.
    + rewrite Hsame by tauto. by rewrite lookup_insert_ne, lookup_insert_eq by done.
    + rewrite Hsame by tauto. by rewrite lookup_insert_eq.
    + rewrite Hsame by tauto. by rewrite !lookup_insert_ne by done.
  - intros k Hn1' Hn2'. by rewrite !lookup_insert_ne by done.
  - intros Hint.
    assert (is_int dv = true) by (eapply vmul_is_int; [done|]; eapply Hint; [|done]; tauto).
    rewrite lookup_insert_ne, !lookup_insert_eq, Hk1, Hk2 by done.
    split; f_equal; [apply Hi1|apply Hi2]; try done; eapply Hint; try done; tauto.
Qed.

(** The inverse on what method pad returned for a field that is not
    square. *)
Lemma square_domain_pad_inverse_eq n t r md1 oy ox method :
  oy <> ox -> Nat.max oy ox <> 1 ->
  md1 !! "square_method" = Some (VStr "pad") ->
  md1 !! "orig_domain" = Some (VSeq [VInt (Z.of_nat oy); VInt (Z.of_nat ox)]) ->
  square_domain (squeeze (NDArray [n; t; Nat.max oy ox; Nat.max oy ox] r)) md1 method true =
  (R_ ← getitem_yx (NDArray [(lead_after_squeeze n t).1; (lead_after_squeeze n t).2;
                             Nat.max oy ox; Nat.max oy ox] r)
          (pad_window oy ox).1 (pad_window oy ox).2;
   md2 ← (let mdd := delete "orig_domain" (delete "square_method" md1) in
          if ox <? oy
          then shift_bounds vadd vsub "x1" "x2" "xpixelsize" (idx_buffer_of oy ox) mdd
          else shift_bounds vadd vsub "y1" "y2" "ypixelsize" (idx_buffer_of oy ox) mdd);
   Ok (Pair (squeeze R_) md2)).
Proof.
  intros Hsq Hnd Hm Ho.
  unfold square_domain. cbn [negb]. cbv iota.
  rewrite promote_squeeze, bind_ok by done. cbn [shape]. cbv iota.
  unfold dget. rewrite Hm, bind_ok.
  rewrite lookup_delete_ne, Ho, bind_ok by done.
  change (vitem _ 0) with (Ok (VInt (Z.of_nat oy))).
  change (vitem _ 1) with (Ok (VInt (Z.of_nat ox))).
  rewrite !bind_ok. rewrite !extent_of_nat, !bind_ok.
  change (veq_str (VStr "pad") "pad") with true. cbv iota zeta.
  unfold veq_nat, pad_window, idx_buffer_of, shift_bounds.
  destruct (Nat.ltb_spec ox oy) as [Hlt|Hge].
  - replace (Nat.max oy ox) with oy in * by lia. replace (Nat.min oy ox) with ox by lia.
    rewrite Z.eqb_refl, Nat.eqb_refl.
    destruct (Z.eqb_spec (Z.of_nat oy) (Z.of_nat ox)) as [|_]; [lia|].
    cbn [andb fst snd]. cbv iota.
    destruct (getitem_yx _ _ _) as [R_|]; [|done]. rewrite !bind_ok.
    destruct (shift_bound vadd _ _ _ _) as [m1|]; [|done]. rewrite !bind_ok.
    destruct (shift_bound vsub _ _ _ _) as [m2|]; done.
  - replace (Nat.max oy ox) with ox in * by lia. replace (Nat.min oy ox) with oy by lia.
    rewrite Z.eqb_refl, Nat.eqb_refl.
    destruct (Z.eqb_spec (Z.of_nat ox) (Z.of_nat oy)) as [|_]; [lia|].
    destruct (Nat.eqb_spec ox oy) as [|_]; [lia|].
    cbn [andb fst snd]. cbv iota.
    destruct (getitem_yx _ _ _) as [R_|]; [|done]. rewrite !bind_ok.
    destruct (shift_bound vadd _ _ _ _) as [m1|]; [|done]. rewrite !bind_ok.
    destruct (shift_bound vsub _ _ _ _) as [m2|]; done.
Qed.

Lemma amin_nonempty R m : amin R = Ok m -> data R <> [].
Proof. unfold amin. by destruct (data R). Qed.

(** X18. After method pad of [square_domain] on a well-formed field the
    inverse always returns. Of the metadata that went in it gives back every
    entry other than the four bounds as it was, the record apart, which it
    removes; and when the bounds and pixel sizes are integers, whose
    arithmetic is exact, it gives back the bounds too. *)
Theorem square_domain_pad_restores_metadata R md R1 md1 :
  wf R -> square_domain R md "pad" false = Ok (Pair R1 md1) ->
  forall method, exists R2 md2,
    square_domain R1 md1 method true = Ok (Pair R2 md2) /\
    (forall k, k ∉ ["x1"; "x2"; "y1"; "y2"; "square_method"; "orig_domain"] ->
               md2 !! k = md !! k) /\
    (integer_georeference md ->
     forall k, k <> "square_method" -> k <> "orig_domain" -> md2 !! k = md !! k).
Proof.
  intros Hwf H method.
  destruct (square_domain_forward_cases _ _ _ _ H)
    as (lead & n & t & oy & ox & Hs & Hl & Hnt & Hprom & [[_ [=]]|[Hne _]]).
  rewrite (square_domain_pad_eq R md n t oy ox Hprom Hne) in H.
  inv_bind H. rename a into m. inv_bind H. rename a into R_. inv_bind H.
  rename a into m1. injection H as <- <-.
  assert (Hd : Nat.max oy ox <> 1).
  { apply amin_nonempty in E. cbn [data] in E.
    assert (Hlen : length (data R) = size_of [n; t; oy; ox]).
    { rewrite Hwf, Hs. symmetry. by apply size_promoted. }
    intros Hmax. apply E. apply nil_length_inv. rewrite Hlen. simpl.
    assert (oy = 0 \/ ox = 0) as [-> | ->] by lia; lia. }
  pose proof (setitem_yx_shape _ _ _ _ _ E0) as Hsh.
  destruct R_ as [s r]. cbn [shape ones_times build] in Hsh. subst s.
  rewrite (square_domain_pad_inverse_eq n t r _ oy ox method Hne Hd)
    by (by rewrite ?(lookup_insert_ne _ "square_method"), lookup_insert_eq by done).
  destruct (getitem_yx_lead n t (Nat.max oy ox) (Nat.max oy ox) r
              (pad_window oy ox).1 (pad_window oy ox).2) as (dd & _ & ->).
  rewrite bind_ok. cbv zeta.
  set (mdd := delete "orig_domain" (delete "square_method" _)).
  assert (Hmdd : forall k, k <> "square_method" -> k <> "orig_domain" -> mdd !! k = m1 !! k).
  { intros k H1 H2. unfold mdd. by rewrite !lookup_delete_ne, !lookup_insert_ne by done. }
  assert (exists k1 k2 p md2,
    k1 <> "square_method" /\ k1 <> "orig_domain" /\
    k2 <> "square_method" /\ k2 <> "orig_domain" /\
    (k1 = "x1" \/ k1 = "y1") /\ (k2 = "x2" \/ k2 = "y2") /\
    (p = "xpixelsize" \/ p = "ypixelsize") /\
    shift_bounds vsub vadd k1 k2 p (idx_buffer_of oy ox) md = Ok m1 /\
    (if ox <? oy
     then shift_bounds vadd vsub "x1" "x2" "xpixelsize" (idx_buffer_of oy ox) mdd
     else shift_bounds vadd vsub "y1" "y2" "ypixelsize" (idx_buffer_of oy ox) mdd) = Ok md2 /\
    (forall k, k <> k1 -> k <> k2 -> md2 !! k = mdd !! k) /\
    ((forall k v, k = k1 \/ k = k2 \/ k = p -> md !! k = Some v -> is_int v = true) ->
     md2 !! k1 = md !! k1 /\ md2 !! k2 = md !! k2))
    as (k1 & k2 & p & md2 & Hk1s & Hk1o & Hk2s & Hk2o & Hk1 & Hk2 & Hp & Hfw & -> &
        Hframe & Hint).
  { destruct (ox <? oy).
    - destruct (shift_bounds_undone vsub vadd vadd vsub "x1" "x2" "xpixelsize"
                  (idx_buffer_of oy ox) md m1 mdd) as (md2 & Hsh & Hr1 & Hr4);
        try done; [apply vadd_undoes_vsub|apply vsub_undoes_vadd| |].
      + intros k [->|[->| ->]]; by apply Hmdd.
      + exists "x1", "x2", "xpixelsize", md2.
        do 9 (split; [done || tauto|]). split; done.
    - destruct (shift_bounds_undone vsub vadd vadd vsub "y1" "y2" "ypixelsize"
                  (idx_buffer_of oy ox) md m1 mdd) as (md2 & Hsh & Hr1 & Hr4);
        try done; [apply vadd_undoes_vsub|apply vsub_undoes_vadd| |].
      + intros k [->|[->| ->]]; by apply Hmdd.
      + exists "y1", "y2", "ypixelsize", md2.
        do 9 (split; [done || tauto|]). split; done. }
  rewrite bind_ok. eexists _, md2. split; [reflexivity|].
  assert (Hother : forall k, k <> "square_method" -> k <> "orig_domain" ->
                             k <> k1 -> k <> k2 -> md2 !! k = md !! k).
  { intros k H1 H2 H3 H4. rewrite Hframe, Hmdd by done.
    by apply (shift_bounds_frame _ _ _ _ _ _ _ _ _ Hfw). }
  split.
  - intros k Hk. rewrite !not_elem_of_cons in Hk.
    destruct Hk as (H1 & H2 & H3 & H4 & H5 & H6 & _).
    apply Hother; try done; destruct Hk1, Hk2; by subst.
  - intros Hgeo k H1 H2.
    destruct Hint as [Hi1 Hi2].
    { intros k' v Hk' Hv. apply (Hgeo k'); [|done].
      rewrite !elem_of_cons.
      destruct Hk' as [->|[->| ->]]; destruct Hk1, Hk2, Hp; subst; tauto. }
    destruct (decide (k = k1)) as [->|]; [done|].
    destruct (decide (k = k2)) as [->|]; [done|].
    by apply Hother.
Qed.

Lemma square_domain_pad_restores_metadata_witness :
  let out := returned_or (square_domain field_2x3 integer_bounds "pad" false)
                         (JustArray field_2x3) in
  let md1 := match out with Pair _ m => m | JustArray _ => ∅ end in
  exists R2 md2,
    square_domain (array_of out) md1 "pad" true = Ok (Pair R2 md2) /\
    (forall k, k ∉ ["x1"; "x2"; "y1"; "y2"; "square_method"; "orig_domain"] ->
               md2 !! k = integer_bounds !! k) /\
    (integer_georeference integer_bounds ->
     forall k, k <> "square_method" -> k <> "orig_domain" ->
               md2 !! k = integer_bounds !! k).
Proof.
  intros out md1.
  apply (square_domain_pad_restores_metadata field_2x3 integer_bounds (array_of out) md1
           ltac:(reflexivity) ltac:(vm_compute; reflexivity) "pad").
Defined.

(** With bounds that are floats the round trip need not give them back:
    [x1 = 0.1] moved out by one pixel of 0.7 and back again comes out as
    0.09999999999999998. *)
Example float_bounds_not_restored :
  let md : gmap string value :=
    <["x1" := VNum (b64 (1 # 10))]> (<["xpixelsize" := VNum (b64 (7 # 10))]> ∅) in
  (md1 ← shift_bound vsub "x1" "xpixelsize" 1 md;
   md2 ← shift_bound vadd "x1" "xpixelsize" 1 md1;
   dget md2 "x1")
  = Ok (VNum (900719925474099 # 9007199254740992)) /\
  Qlt_bool (900719925474099 # 9007199254740992) (b64 (1 # 10)) = true.
Proof. split; vm_compute; reflexivity. Qed.

(** ** Rank histograms *)

Section RankHistograms.
Import ensscores.

Lemma length_insert_sorted x l : length (insert_sorted x l) = S (length l).
Proof. induction l as [|y r IH]; simpl; [done|]. destruct (nle x y); simpl; by rewrite ?IH. Qed.

Lemma length_sort_row f : length (sort_row f) = length f.
Proof.
  induction f as [|x f IH]; simpl; [done|].
  by rewrite length_insert_sorted, IH.
Qed.

Lemma digitize_le v f : digitize v f <= length f.
Proof. induction f as [|b r IH]; simpl; [done|]. destruct (nle b v); lia. Qed.

Lemma sum_insert (l : list nat) b c :
  l !! b = Some c -> foldr Nat.add 0 (<[b := S c]> l) = S (foldr Nat.add 0 l).
Proof.
  revert b. induction l as [|x l IH]; intros [|b] H; try done; simpl in *.
  - by injection H as ->.
  - rewrite IH by done. lia.
Qed.

Lemma increment_ok bins l :
  Forall (fun b => b < length l) bins ->
  exists l', increment bins l = Ok l' /\ length l' = length l /\
             (forall b c, l !! b = Some c -> exists c', l' !! b = Some c' /\ c <= c') /\
             foldr Nat.add 0 l' = foldr Nat.add 0 l + length bins.
Proof.
  revert l. induction bins as [|bi r IH]; intros l H; simpl.
  { exists l. repeat split; eauto. }
  apply Forall_cons in H as [Hbi H].
  destruct (lookup_lt_is_Some_2 l bi Hbi) as [c Hc]. rewrite Hc.
  destruct (IH (<[bi := S c]> l)) as (l' & -> & Hlen & Hmono & Hsum).
  { by rewrite length_insert. }
  exists l'. split; [done|]. split; [by rewrite Hlen, length_insert|]. split.
  - intros b c0 Hb. destruct (decide (b = bi)) as [->|Hne].
    + destruct (Hmono bi (S c)) as (c' & Hc' & Hle).
      { by apply list_lookup_insert_eq. }
      exists c'. split; [done|]. assert (c0 = c) by congruence. lia.
    + apply Hmono. by rewrite list_lookup_insert_ne.
  - rewrite Hsum, (sum_insert _ _ _ Hc). lia.
Qed.

Lemma where_below_lt x f j : j ∈ where_below x f -> j < length f.
Proof.
  unfold where_below. rewrite list_elem_of_filter, elem_of_seq. lia.
Qed.

Lemma fold_min_elem (r : list nat) x : fold_left Nat.min r x ∈ x :: r.
Proof.
  revert x. induction r as [|y r IH]; intros x; simpl; [by left|].
  specialize (IH (Nat.min x y)). apply elem_of_cons in IH as [->|IH].
  - destruct (Nat.min_spec x y) as [[_ ->]|[_ ->]]; [by left|right; by left].
  - right. by right.
Qed.

Lemma fold_max_elem (r : list nat) x : fold_left Nat.max r x ∈ x :: r.
Proof.
  revert x. induction r as [|y r IH]; intros x; simpl; [by left|].
  specialize (IH (Nat.max x y)). apply elem_of_cons in IH as [->|IH].
  - destruct (Nat.max_spec x y) as [[_ ->]|[_ ->]]; [right; by left|by left].
  - right. by right.
Qed.

Lemma fold_min_le_max (r : list nat) x : fold_left Nat.min r x <= fold_left Nat.max r x.
Proof.
  assert (H : forall a b, a <= b -> fold_left Nat.min r a <= fold_left Nat.max r b).
  { induction r as [|y r IH]; intros a b Hab; simpl; [done|]. apply IH. lia. }
  by apply H.
Qed.

Lemma tie_bins_ok draws x pairs m :
  Forall (fun p => length p.2.2 = m) pairs ->
  exists ties, tie_bins draws x pairs = Ok ties /\
               Forall (fun b => b < S m) ties /\ length ties <= length pairs.
Proof.
  induction pairs as [|[i [v f]] r IH]; intros H; cbn [tie_bins].
  { exists []. repeat split; [constructor|done]. }
  apply Forall_cons in H as [Hf H]. simpl in Hf.
  destruct (IH H) as (rest & -> & Hrest & Hlen).
  assert (exists here,
    (if existsb (fun a => nge a x) f then
       if (1 <? length (where_below x f)) && nlt v x then
         low ← index_min (where_below x f); high ← index_max (where_below x f);
         bi ← randint (draws i) low (high + 1); Ok [bi]
       else Ok []
     else Ok []) = Ok here /\ Forall (fun b => b < S m) here /\ length here <= 1)
    as (here & -> & Hhere & Hlen1).
  { destruct (existsb _ f); [|exists []; repeat split; [constructor|simpl; lia]].
    destruct ((1 <? length (where_below x f)) && nlt v x) eqn:E;
      [|exists []; repeat split; [constructor|simpl; lia]].
    destruct (where_below x f) as [|a l] eqn:Hw; [done|]. simpl index_min. simpl index_max.
    rewrite !bind_ok. unfold randint.
    pose proof (fold_min_le_max l a) as Hle.
    destruct (Nat.leb_spec (fold_left Nat.max l a + 1) (fold_left Nat.min l a)); [lia|].
    rewrite bind_ok. eexists. split; [done|]. split; [|simpl; lia].
    repeat constructor.
    pose proof (fold_max_elem l a) as Hmax. rewrite <- Hw in Hmax.
    apply where_below_lt in Hmax.
    pose proof (Nat.mod_upper_bound (draws i)
                  (fold_left Nat.max l a + 1 - fold_left Nat.min l a) ltac:(lia)).
    lia. }
  rewrite !bind_ok. eexists. split; [done|]. split.
  - by apply Forall_app.
  - rewrite length_app. simpl. lia.
Qed.

Lemma filter_flag_partition {A} (flag : A -> bool) (l : list A) :
  length (filter (fun q => flag q = true) l) + length (filter (fun q => flag q = false) l)
  = length l.
Proof.
  induction l as [|q l IH]; [done|].
  destruct (flag q) eqn:E.
  - rewrite (filter_cons_True _ q), (filter_cons_False _ q) by congruence. simpl. lia.
  - rewrite (filter_cons_False _ q), (filter_cons_True _ q) by congruence. simpl. lia.
Qed.

Lemma filter_zip_seq_length {A} (flag : A -> bool) (l : list A) a :
  length (filter (fun q : nat * A => flag q.2 = false) (zip (seq a (length l)) l))
  = length (filter (fun q => flag q = false) l).
Proof.
  revert a. induction l as [|q l IH]; intros a; [done|]. simpl.
  destruct (flag q) eqn:E.
  - rewrite (filter_cons_False _ (a, q)), (filter_cons_False _ q) by (simpl; congruence).
    apply IH.
  - rewrite (filter_cons_True _ (a, q)), (filter_cons_True _ q) by (simpl; congruence).
    simpl. by rewrite IH.
Qed.

Lemma Forall_filter_keep {A} (P Q : A -> Prop) `{forall x, Decision (Q x)} (l : list A) :
  Forall P l -> Forall P (filter Q l).
Proof.
  rewrite !Forall_forall. intros HP x Hx. apply list_elem_of_filter in Hx as [_ Hx]. auto.
Qed.

Lemma Forall_zip_snd {A B} (P : B -> Prop) (l1 : list A) (l2 : list B) :
  Forall P l2 -> Forall (fun p => P p.2) (zip l1 l2).
Proof.
  intros H. revert l1. induction H as [|y l2 Hy H IH]; intros [|x l1]; simpl; try constructor; auto.
Qed.

Lemma length_zip_le {A B} (l1 : list A) (l2 : list B) : length (zip l1 l2) <= length l1.
Proof. revert l2. induction l1 as [|x l1 IH]; intros [|y l2]; simpl; try lia. specialize (IH l2). lia. Qed.

(** X19. [rankhist_accum] takes, for a histogram with one bin more than
    members, every batch of forecasts with that many members and one
    observation for each forecast: the call returns, the histogram keeps its
    bins, its members and its threshold, no count goes down, and the counts
    go up by at most the number of pairs in all, whatever the random draws.
    *)
Theorem rankhist_accum_keeps_bins draws rh X_f X_o :
  wf_rankhist rh -> Z.of_nat (members X_f) = num_ens_members rh ->
  wf_forecasts X_f -> length (rows X_f) = length X_o ->
  exists rh',
    rankhist_accum draws rh X_f X_o = Ok rh' /\ wf_rankhist rh' /\
    num_ens_members rh' = num_ens_members rh /\ X_min rh' = X_min rh /\
    (forall b c, n rh !! b = Some c -> exists c', n rh' !! b = Some c' /\ c <= c') /\
    total rh <= total rh' <= total rh + length X_o.
Proof.
  intros Hwf Hm Hrows Hlen. unfold rankhist_accum.
  rewrite Hm, Z.eqb_refl, Hlen, Nat.eqb_refl. cbn [negb]. cbv iota zeta.
  set (m := members X_f) in *.
  set (finite := filter _ (zip X_o (rows X_f))).
  assert (Hfin : Forall (fun p : num * list num => length p.2 = m) finite).
  { apply Forall_filter_keep. by apply (Forall_zip_snd (fun f => length f = m)), Hrows. }
  set (sorted := (fun p => _) <$> finite).
  assert (Hsorted : Forall (fun q : bool * (num * list num) => length q.2.2 = m) sorted).
  { apply Forall_fmap. eapply Forall_impl; [exact Hfin|].
    intros [v f] Hp. simpl in *. by rewrite length_sort_row. }
  set (bin_idx := (fun q => _) <$> filter _ sorted).
  assert (Hbins : Forall (fun b => b < S m) bin_idx).
  { apply Forall_fmap, Forall_filter_keep. eapply Forall_impl; [exact Hsorted|].
    intros [b [v f]] Hq. simpl in *. pose proof (digitize_le v f). lia. }
  set (pairs := (fun q => _) <$> filter _ (zip (seq 0 (length sorted)) sorted)).
  assert (Hpairs : Forall (fun p : nat * (num * list num) => length p.2.2 = m) pairs).
  { apply Forall_fmap, Forall_filter_keep.
    by apply (Forall_zip_snd (fun q : bool * (num * list num) => length q.2.2 = m)). }
  destruct (tie_bins_ok draws (X_min rh) pairs m Hpairs) as (ties & -> & Hties & Htlen).
  rewrite bind_ok.
  assert (HnS : length (n rh) = S m) by (unfold wf_rankhist in Hwf; lia).
  destruct (increment_ok (bin_idx ++ ties) (n rh)) as (l' & -> & Hl' & Hmono & Hsum).
  { rewrite HnS. by apply Forall_app. }
  rewrite bind_ok. eexists. split; [done|].
  split; [unfold wf_rankhist in *; cbn; by rewrite Hl'|].
  do 3 (split; [done|]). unfold total. cbn [n]. rewrite Hsum, length_app.
  assert (length bin_idx + length ties <= length X_o); [|lia].
  unfold bin_idx. rewrite length_fmap.
  assert (length pairs = length (filter (fun q : bool * (num * list num) => q.1 = false) sorted))
    as Hp.
  { unfold pairs. rewrite length_fmap.
    apply (filter_zip_seq_length (fun q : bool * (num * list num) => q.1)). }
  pose proof (filter_flag_partition (fun q : bool * (num * list num) => q.1) sorted) as Hpart.
  assert (length sorted <= length X_o).
  { unfold sorted. rewrite length_fmap. unfold finite.
    etransitivity; [apply length_filter|]. apply length_zip_le. }
  lia.
Qed.

Lemma nle_trans a b c : nle a b = true -> nle b c = true -> nle a c = true.
Proof.
  destruct a as [x|], b as [y|], c as [z|]; simpl; try done.
  rewrite !Qle_bool_iff. apply Qle_trans.
Qed.

Lemma nle_total a b : nle a b = false -> nle b a = true.
Proof.
  destruct a as [x|], b as [y|]; simpl; try done.
  intros H. apply Qle_bool_iff, Qlt_le_weak, Qnot_le_lt. intros Hle.
  apply Qle_bool_iff in Hle. congruence.
Qed.

Lemma insert_sorted_perm x l : insert_sorted x l ≡ₚ x :: l.
Proof.
  induction l as [|y r IH]; simpl; [done|].
  destruct (nle x y); [done|]. rewrite IH. apply Permutation_swap.
Qed.

Lemma sort_row_perm f : sort_row f ≡ₚ f.
Proof.
  induction f as [|x f IH]; simpl; [done|].
  by rewrite insert_sorted_perm, IH.
Qed.

Lemma insert_sorted_sorted x l :
  StronglySorted (fun a b => nle a b = true) l ->
  StronglySorted (fun a b => nle a b = true) (insert_sorted x l).
Proof.
  induction 1 as [|y r Hr IH Hy]; simpl; [repeat constructor|].
  destruct (nle x y) eqn:E.
  - constructor; [by constructor|]. constructor; [done|].
    eapply Forall_impl; [exact Hy|]. intros z Hz. by eapply nle_trans.
  - constructor; [done|].
    rewrite insert_sorted_perm. constructor; [by apply nle_total|done].
Qed.

Lemma sort_row_sorted f : StronglySorted (fun a b => nle a b = true) (sort_row f).
Proof.
  induction f as [|x f IH]; simpl; [constructor|]. by apply insert_sorted_sorted.
Qed.

(** In an ascending row [digitize] counts the elements that are not above
    the value. *)
Lemma digitize_sorted v l :
  StronglySorted (fun a b => nle a b = true) l ->
  digitize v l = length (filter (fun b => nle b v = true) l).
Proof.
  induction 1 as [|b r Hr IH Hb]; simpl; [done|].
  destruct (nle b v) eqn:E.
  - rewrite (filter_cons_True _ b) by done. simpl. by rewrite IH.
  - rewrite (filter_cons_False _ b) by congruence.
    assert (Hnone : Forall (fun c => nle c v = false) r).
    { eapply Forall_impl; [exact Hb|]. intros c Hc.
      destruct (nle c v) eqn:Ec; [|done].
      pose proof (nle_trans b c v Hc Ec). congruence. }
    clear -Hnone. induction Hnone as [|c r Hc _ IH]; [done|].
    rewrite (filter_cons_False _ c) by congruence. done.
Qed.

Lemma digitize_sort_row v f :
  digitize v (sort_row f) = length (filter (fun b => nle b v = true) f).
Proof.
  rewrite digitize_sorted by apply sort_row_sorted.
  apply Permutation_length. apply filter_Permutation, sort_row_perm.
Qed.

Lemma filter_fmap_S (P : nat -> Prop) `{forall j, Decision (P j)} (l : list nat) :
  filter P (S <$> l) = S <$> filter (fun j => P (S j)) l.
Proof.
  induction l as [|j l IH]; [done|]. rewrite fmap_cons.
  destruct (decide (P (S j))).
  - rewrite (filter_cons_True P (S j)), (filter_cons_True _ j) by done.
    by rewrite fmap_cons, IH.
  - rewrite (filter_cons_False P (S j)), (filter_cons_False _ j) by done. done.
Qed.

Lemma where_below_cons x b r :
  where_below x (b :: r)
  = ((if nlt b x then [0] else []) ++ (S <$> where_below x r))%list.
Proof.
  unfold where_below. cbn [length seq].
  rewrite <- fmap_S_seq.
  destruct (nlt b x) eqn:E.
  - rewrite (filter_cons_True _ 0) by done. by rewrite filter_fmap_S.
  - rewrite (filter_cons_False _ 0) by (simpl; congruence). by rewrite filter_fmap_S.
Qed.

Lemma nlt_mono x a b : nle a b = true -> nlt b x = true -> nlt a x = true.
Proof.
  destruct a as [p|], b as [q|]; simpl; try done.
  unfold Qlt_bool. rewrite !negb_true_iff. intros Hab Hb.
  apply Qle_bool_iff in Hab.
  destruct (Qle_bool x p) eqn:E; [|done]. apply Qle_bool_iff in E.
  assert (Qle_bool x q = true) by (apply Qle_bool_iff; by apply (Qle_trans _ p)). congruence.
Qed.

(** In an ascending row the elements below the threshold come first. *)
Lemma where_below_sorted x l :
  StronglySorted (fun a b => nle a b = true) l ->
  where_below x l = seq 0 (length (filter (fun a => nlt a x = true) l)).
Proof.
  induction 1 as [|b r Hr IH Hb]; [done|].
  rewrite where_below_cons, IH. destruct (nlt b x) eqn:E.
  - rewrite (filter_cons_True _ b) by done. simpl. by rewrite fmap_S_seq.
  - rewrite (filter_cons_False _ b) by congruence.
    assert (Hnone : Forall (fun c => nlt c x = false) r).
    { eapply Forall_impl; [exact Hb|]. intros c Hc.
      destruct (nlt c x) eqn:Ec; [|done].
      pose proof (nlt_mono x b c Hc Ec). congruence. }
    assert (filter (fun a => nlt a x = true) r = []) as ->; [|done].
    clear -Hnone. induction Hnone as [|c r Hc _ IH]; [done|].
    by rewrite (filter_cons_False _ c) by congruence.
Qed.

Lemma fold_min_seq a k : fold_left Nat.min (seq (S a) k) a = a.
Proof.
  assert (H : forall b c, c <= b -> fold_left Nat.min (seq b k) c = c).
  { induction k as [|k IH]; intros b c Hbc; simpl; [done|].
    replace (Nat.min c b) with c by lia. apply IH. lia. }
  apply H. lia.
Qed.

Lemma fold_max_seq a k : fold_left Nat.max (seq (S a) k) a = a + k.
Proof.
  revert a. induction k as [|k IH]; intros a; simpl; [lia|].
  replace (Nat.max a (S a)) with (S a) by lia. rewrite IH. lia.
Qed.

Lemma below_le_length x (f : list num) :
  length (filter (fun a => nlt a x = true) f) <= length f.
Proof. apply length_filter. Qed.

Lemma forallb_nge_below x f :
  Forall (fun a => isfinite a = true) f ->
  forallb (fun a => nge a x) f = (length (filter (fun a => nlt a x = true) f) =? 0).
Proof.
  induction 1 as [|a f Ha _ IH]; [done|]. cbn [forallb].
  destruct a as [q|]; [|done]. simpl nge.
  destruct (Qle_bool x q) eqn:E.
  - rewrite (filter_cons_False _ (Fin q)) by (simpl; unfold Qlt_bool; rewrite E; done).
    by rewrite IH.
  - rewrite (filter_cons_True _ (Fin q)) by (simpl; unfold Qlt_bool; rewrite E; done).
    done.
Qed.

Lemma existsb_nge_below x f :
  Forall (fun a => isfinite a = true) f ->
  existsb (fun a => nge a x) f
  = (length (filter (fun a => nlt a x = true) f) <? length f).
Proof.
  induction 1 as [|a f Ha _ IH]; [done|]. cbn [existsb length].
  pose proof (below_le_length x f) as Hle.
  destruct a as [q|]; [|done]. simpl nge.
  destruct (Qle_bool x q) eqn:E.
  - rewrite (filter_cons_False _ (Fin q)) by (simpl; unfold Qlt_bool; rewrite E; done).
    simpl. symmetry. apply Nat.ltb_lt. lia.
  - rewrite (filter_cons_True _ (Fin q)) by (simpl; unfold Qlt_bool; rewrite E; done).
    simpl. rewrite IH. done.
Qed.

Lemma sort_row_finite f :
  Forall (fun a => isfinite a = true) f -> Forall (fun a => isfinite a = true) (sort_row f).
Proof. intros H. by rewrite sort_row_perm. Qed.

Lemma below_sort_row x f :
  length (filter (fun a => nlt a x = true) (sort_row f))
  = length (filter (fun a => nlt a x = true) f).
Proof. apply Permutation_length, filter_Permutation, sort_row_perm. Qed.

Lemma insert_alter_S (l : list nat) b c : l !! b = Some c -> <[b := S c]> l = alter S b l.
Proof.
  intros H. apply list_eq. intros j. destruct (decide (b = j)) as [<-|Hne].
  - rewrite list_lookup_insert_eq by (by eapply lookup_lt_Some).
    by rewrite list_lookup_alter_eq, H.
  - by rewrite list_lookup_insert_ne, list_lookup_alter_ne.
Qed.

Lemma alter_S_comm (a b : nat) (l : list nat) :
  alter S a (alter S b l) = alter S b (alter S a l).
Proof.
  destruct (decide (a = b)) as [->|Hne]; [done|]. by apply list_alter_alter_ne.
Qed.

Lemma foldr_alter_S_comm b bins (l : list nat) :
  foldr (alter S) (alter S b l) bins = alter S b (foldr (alter S) l bins).
Proof.
  induction bins as [|a r IH]; simpl; [done|]. by rewrite IH, alter_S_comm.
Qed.

Lemma foldr_alter_S_perm bins bins' (l : list nat) :
  bins ≡ₚ bins' -> foldr (alter S) l bins = foldr (alter S) l bins'.
Proof.
  intros H. apply (foldr_permutation_proper eq (alter S) l); [|done].
  intros a b l'. apply alter_S_comm.
Qed.

Lemma increment_alter bins l :
  Forall (fun b => b < length l) bins -> increment bins l = Ok (foldr (alter S) l bins).
Proof.
  revert l. induction bins as [|b r IH]; intros l H; simpl; [done|].
  apply Forall_cons in H as [Hb H].
  destruct (lookup_lt_is_Some_2 l b Hb) as [c Hc]. rewrite Hc.
  rewrite IH by (by rewrite length_insert).
  by rewrite (insert_alter_S _ _ _ Hc), foldr_alter_S_comm.
Qed.

Lemma pair_bin_counted x d v f :
  Forall (fun a => isfinite a = true) f ->
  nge v x || forallb (fun a => nge a x) f = true ->
  pair_bin x d (v, f) = Some (digitize v (sort_row f)).
Proof.
  intros Hf Hflag. unfold pair_bin. cbn [fst snd].
  rewrite <- forallb_nge_below, Hflag by done. by rewrite digitize_sort_row.
Qed.

Lemma pair_bin_tie x d v f :
  isfinite v = true -> Forall (fun a => isfinite a = true) f ->
  nge v x || forallb (fun a => nge a x) f = false ->
  (if existsb (fun a => nge a x) (sort_row f) then
     if (1 <? length (where_below x (sort_row f))) && nlt v x then
       low ← index_min (where_below x (sort_row f));
       high ← index_max (where_below x (sort_row f));
       bi ← randint d low (high + 1); Ok [bi]
     else Ok []
   else Ok []) = Ok (option_list (pair_bin x d (v, f))).
Proof.
  intros Hv Hf Hflag. unfold pair_bin. cbn [fst snd].
  rewrite <- forallb_nge_below, Hflag by done.
  apply orb_false_elim in Hflag as [Hge _].
  assert (Hlt : nlt v x = true).
  { destruct v as [q|]; [|done]. simpl in *. unfold Qlt_bool. by rewrite Hge. }
  rewrite existsb_nge_below by (by apply sort_row_finite).
  rewrite where_below_sorted by apply sort_row_sorted.
  rewrite below_sort_row, length_sort_row, length_seq, Hlt, andb_true_r.
  set (below := length (filter _ f)).
  destruct (below <? length f); [|by rewrite andb_false_r].
  rewrite andb_true_r. destruct (Nat.ltb_spec 1 below) as [H1|]; [|done].
  destruct below as [|[|k]]; [lia|lia|].
  change (seq 0 (S (S k))) with (0 :: seq 1 (S k)).
  cbn [index_min index_max]. rewrite fold_min_seq, fold_max_seq, !bind_ok.
  unfold randint. destruct (Nat.leb_spec (0 + S k + 1) 0); [lia|].
  rewrite bind_ok. cbn [option_list].
  replace (0 + S k + 1 - 0) with (S (S k)) by lia. done.
Qed.

(** The bins that [rankhist_accum] increments are those of the pairs. *)
Lemma accum_bins draws x ps a :
  Forall (fun p : num * list num =>
            isfinite p.1 = true /\ Forall (fun a => isfinite a = true) p.2) ps ->
  let entries := (fun p : num * list num =>
                    (nge p.1 x || forallb (fun a => nge a x) p.2, (p.1, sort_row p.2)))
                   <$> ps in
  exists ties,
    tie_bins draws x
      ((fun q : nat * (bool * (num * list num)) => (q.1, q.2.2)) <$>
         filter (fun q : nat * (bool * (num * list num)) => q.2.1 = false)
                (zip (seq a (length entries)) entries)) = Ok ties /\
    (((fun q : bool * (num * list num) => digitize q.2.1 q.2.2) <$>
        filter (fun q : bool * (num * list num) => q.1 = true) entries) ++ ties)%list
    ≡ₚ omap (fun q : nat * (num * list num) => pair_bin x (draws q.1) q.2)
            (zip (seq a (length ps)) ps).
Proof.
  intros H. revert a. induction H as [|[v f] ps [Hv Hf] _ IH]; intros a; cbv zeta.
  { exists []. done. }
  cbn [fst snd] in Hv, Hf.
  destruct (IH (S a)) as (ties & Hties & Hperm). cbv zeta in Hties, Hperm.
  rewrite !fmap_cons. cbn [length seq zip zip_with fst snd].
  destruct (nge v x || forallb (fun a => nge a x) f) eqn:Hflag.
  - rewrite (filter_cons_True _ (true, _)) by done.
    rewrite (filter_cons_False _ (a, (true, _))) by (simpl; congruence).
    exists ties. split; [exact Hties|].
    cbn [omap list_omap fst snd]. rewrite (pair_bin_counted x _ v f Hf Hflag).
    rewrite fmap_cons. cbn [fst snd]. simpl app. by constructor.
  - rewrite (filter_cons_False _ (false, _)) by (simpl; congruence).
    rewrite (filter_cons_True _ (a, (false, _))) by done.
    rewrite fmap_cons. cbn [fst snd tie_bins].
    rewrite (pair_bin_tie x (draws a) v f Hv Hf Hflag), bind_ok, Hties, bind_ok.
    eexists. split; [done|].
    cbn [omap list_omap fst snd].
    destruct (pair_bin x (draws a) (v, f)) as [b|]; simpl option_list; simpl app.
    + rewrite <- Permutation_middle. by constructor.
    + done.
Qed.

Lemma forallb_Forall {A} (g : A -> bool) (l : list A) :
  forallb g l = true -> Forall (fun a => g a = true) l.
Proof.
  induction l as [|a l IH]; simpl; [constructor|].
  intros H. apply andb_prop in H as [Ha H]. constructor; auto.
Qed.

Lemma finite_pairs_finite X_f X_o :
  Forall (fun p : num * list num =>
            isfinite p.1 = true /\ Forall (fun a => isfinite a = true) p.2)
         (finite_pairs X_f X_o).
Proof.
  apply Forall_forall. intros p Hp. apply list_elem_of_filter in Hp as [Hp _].
  apply andb_prop in Hp as [H1 H2]. split; [done|]. by apply forallb_Forall.
Qed.

(** X20. What a call of [rankhist_accum] does to the histogram: the bin of
    every pair without a NaN goes up by one, the pair at position [i] among
    these being counted with the draw [draws i]. *)
Theorem rankhist_accum_counts draws rh X_f X_o :
  wf_rankhist rh -> Z.of_nat (members X_f) = num_ens_members rh ->
  wf_forecasts X_f -> length (rows X_f) = length X_o ->
  rankhist_accum draws rh X_f X_o
  = Ok (RankHist (num_ens_members rh)
          (foldr (alter S) (n rh) (batch_bins draws (X_min rh) (finite_pairs X_f X_o)))
          (X_min rh)).
Proof.
  intros Hwf Hm Hrows Hlen. unfold rankhist_accum.
  rewrite Hm, Z.eqb_refl, Hlen, Nat.eqb_refl. cbn [negb]. cbv iota zeta.
  fold (finite_pairs X_f X_o).
  set (m := members X_f) in *.
  assert (Hfin : Forall (fun p : num * list num => length p.2 = m) (finite_pairs X_f X_o)).
  { apply Forall_filter_keep. by apply (Forall_zip_snd (fun f => length f = m)), Hrows. }
  destruct (accum_bins draws (X_min rh) (finite_pairs X_f X_o) 0 (finite_pairs_finite X_f X_o))
    as (ties & Hties & Hperm).
  set (sorted := (fun p => _) <$> finite_pairs X_f X_o) in *.
  assert (Hsorted : Forall (fun q : bool * (num * list num) => length q.2.2 = m) sorted).
  { apply Forall_fmap. eapply Forall_impl; [exact Hfin|].
    intros [v f] Hp. simpl in *. by rewrite length_sort_row. }
  set (bin_idx := (fun q => _) <$> filter _ sorted) in *.
  assert (Hbins : Forall (fun b => b < S m) bin_idx).
  { apply Forall_fmap, Forall_filter_keep. eapply Forall_impl; [exact Hsorted|].
    intros [b [v f]] Hq. simpl in *. pose proof (digitize_le v f). lia. }
  set (pairs := (fun q => _) <$> filter _ (zip (seq 0 (length sorted)) sorted)) in *.
  assert (Hpairs : Forall (fun p : nat * (num * list num) => length p.2.2 = m) pairs).
  { apply Forall_fmap, Forall_filter_keep.
    by apply (Forall_zip_snd (fun q : bool * (num * list num) => length q.2.2 = m)). }
  destruct (tie_bins_ok draws (X_min rh) pairs m Hpairs) as (ties' & Hties' & Hbound & _).
  rewrite Hties in Hties'. injection Hties' as <-.
  rewrite Hties, bind_ok.
  assert (HnS : length (n rh) = S m) by (unfold wf_rankhist in Hwf; lia).
  rewrite increment_alter, bind_ok by (rewrite HnS; by apply Forall_app).
  do 2 f_equal. by apply foldr_alter_S_perm.
Qed.

Lemma filter_twice {A} (P : A -> Prop) `{forall a, Decision (P a)} (l : list A) :
  filter P (filter P l) = filter P l.
Proof.
  induction l as [|a l IH]; [done|]. destruct (decide (P a)).
  - rewrite !(filter_cons_True P a) by done. by rewrite IH.
  - by rewrite (filter_cons_False P a) by done.
Qed.

(** X21. [rankhist_accum] leaves the pairs with a NaN, in the observation or
    in a member, out of the count: the call on a batch does what the call on
    the other pairs of the batch does. *)
Theorem rankhist_accum_ignores_nan draws rh X_f X_o :
  length (rows X_f) = length X_o ->
  rankhist_accum draws rh X_f X_o
  = rankhist_accum draws rh
      (Forecasts (members X_f) (finite_pairs X_f X_o).*2) (finite_pairs X_f X_o).*1.
Proof.
  intros Hlen. unfold rankhist_accum. cbn [members rows].
  destruct (negb _); [done|].
  rewrite Hlen, Nat.eqb_refl, !length_fmap, Nat.eqb_refl. cbn [negb]. cbv iota zeta.
  rewrite zip_fst_snd. fold (finite_pairs X_f X_o).
  assert (filter (fun p : num * list num => isfinite p.1 && forallb isfinite p.2 = true)
                 (finite_pairs X_f X_o) = finite_pairs X_f X_o) as ->; [|done].
  unfold finite_pairs. apply filter_twice.
Qed.

(** X22. [rankhist_init] with a number of members from -1 on gives a
    histogram with one empty bin more than members, which [rankhist_accum]
    takes; a smaller number is refused by [np.zeros]. *)
Theorem rankhist_init_bins (m : Z) x :
  match rankhist_init m x with
  | Ok rh => (-1 <= m)%Z /\ wf_rankhist rh /\ total rh = 0 /\
             Forall (fun c => c = 0) (n rh) /\
             num_ens_members rh = m /\ X_min rh = x
  | Raise e => (m < -1)%Z /\ e = ValueError "negative dimensions are not allowed" []
  end.
Proof.
  unfold rankhist_init, extent. destruct (Z.ltb_spec (m + 1) 0) as [Hneg|Hpos].
  - rewrite bind_raise. split; [lia|done].
  - rewrite bind_ok. split; [lia|]. unfold wf_rankhist, total. cbn [n num_ens_members X_min].
    split; [rewrite length_replicate; lia|].
    split; [|split; [apply Forall_replicate|]; done].
    induction (Z.to_nat (m + 1)) as [|k IH]; simpl; [done|]. by rewrite IH.
Qed.

Lemma sum_frequencies (cs : list nat) (T : nat) acc :
  0 < T ->
  exists s, fold_left nadd ((fun c => ndivn (Fin (inject_Z (Z.of_nat c))) T) <$> cs) (Fin acc)
            = Fin s /\
            (s == acc + inject_Z (Z.of_nat (foldr Nat.add 0%nat cs)) / inject_Z (Z.of_nat T))%Q.
Proof.
  intros HT. revert acc. induction cs as [|c cs IH]; intros acc; simpl.
  { exists acc. split; [done|]. unfold Qdiv.
    change (inject_Z (Z.of_nat 0)) with 0%Q. ring. }
  destruct T as [|T']; [lia|]. cbn [ndivn nadd].
  destruct (IH (acc + inject_Z (Z.of_nat c) / inject_Z (Z.of_nat (S T')))%Q) as (s & Hs & Heq).
  exists s. split; [exact Hs|]. rewrite Heq.
  rewrite Nat2Z.inj_add, inject_Z_plus. unfold Qdiv. ring.
Qed.

(** X23. With a pair counted, [rankhist_compute] with normalization returns
    for each bin its count divided by the number of pairs counted, and these
    sum to one in exact arithmetic; without normalization the counts come
    back as they are. *)
Theorem rankhist_compute_normalized rh :
  0 < total rh ->
  rankhist_compute rh false = Counts (n rh) /\
  exists f s,
    rankhist_compute rh true = Frequencies f /\
    (forall b c, n rh !! b = Some c ->
       f !! b = Some (Fin (inject_Z (Z.of_nat c) / inject_Z (Z.of_nat (total rh)))%Q)) /\
    np_sum f = Fin s /\ (s == 1)%Q.
Proof.
  intros HT. split; [done|]. unfold rankhist_compute. fold (total rh).
  set (T := total rh) in *.
  assert (Hsum : exists s,
    np_sum ((fun c => ndivn (Fin (inject_Z (Z.of_nat c))) T) <$> n rh) = Fin s /\ (s == 1)%Q).
  { unfold T, total in *. destruct (n rh) as [|c cs]; [simpl in HT; lia|].
    rewrite fmap_cons. cbn [np_sum].
    remember (foldr Nat.add 0 (c :: cs)) as T' eqn:HT'.
    destruct T' as [|T'']; [lia|]. cbn [ndivn].
    destruct (sum_frequencies cs (S T'')
                (inject_Z (Z.of_nat c) / inject_Z (Z.of_nat (S T'')))%Q ltac:(lia))
      as (s & Hs & Heq).
    exists s. split; [exact Hs|]. rewrite Heq.
    assert (HTq : ~ (inject_Z (Z.of_nat (S T'')) == 0)%Q).
    { change 0%Q with (inject_Z 0). rewrite inject_Z_injective. lia. }
    simpl in HT'. 
    assert (Hadd : (inject_Z (Z.of_nat c) + inject_Z (Z.of_nat (foldr Nat.add 0%nat cs))
                    == inject_Z (Z.of_nat (S T'')))%Q).
    { rewrite <- inject_Z_plus, <- Nat2Z.inj_add, <- HT'. reflexivity. }
    rewrite <- Hadd in HTq |- *. field. exact HTq. }
  destruct Hsum as (s & Hs & Hone).
  eexists _, s. split; [done|]. split; [|done].
  intros b c Hb. rewrite list_lookup_fmap, Hb. simpl. f_equal.
  destruct T; [lia|done].
Qed.

Lemma rankhist_accum_keeps_bins_witness :
  exists rh',
    rankhist_accum (fun _ => 0) sample_rankhist sample_forecasts sample_observations = Ok rh' /\
    wf_rankhist rh' /\
    num_ens_members rh' = num_ens_members sample_rankhist /\
    X_min rh' = X_min sample_rankhist /\
    (forall b c, n sample_rankhist !! b = Some c -> exists c', n rh' !! b = Some c' /\ c <= c') /\
    total sample_rankhist <= total rh' <= total sample_rankhist + length sample_observations.
Proof.
  apply (rankhist_accum_keeps_bins (fun _ => 0) sample_rankhist sample_forecasts
           sample_observations).
  - reflexivity.
  - reflexivity.
  - repeat constructor.
  - reflexivity.
Defined.

Lemma rankhist_accum_counts_witness :
  rankhist_accum (fun _ => 0) sample_rankhist sample_forecasts sample_observations
  = Ok (RankHist (num_ens_members sample_rankhist)
          (foldr (alter S) (n sample_rankhist)
             (batch_bins (fun _ => 0) (X_min sample_rankhist)
                (finite_pairs sample_forecasts sample_observations)))
          (X_min sample_rankhist)).
Proof.
  apply (rankhist_accum_counts (fun _ => 0) sample_rankhist sample_forecasts
           sample_observations).
  - reflexivity.
  - reflexivity.
  - repeat constructor.
  - reflexivity.
Defined.

Lemma rankhist_accum_ignores_nan_witness :
  rankhist_accum (fun _ => 0) sample_rankhist sample_forecasts sample_observations
  = rankhist_accum (fun _ => 0) sample_rankhist
      (Forecasts (members sample_forecasts)
         (finite_pairs sample_forecasts sample_observations).*2)
      (finite_pairs sample_forecasts sample_observations).*1.
Proof.
  apply (rankhist_accum_ignores_nan (fun _ => 0) sample_rankhist sample_forecasts
           sample_observations).
  reflexivity.
Defined.

Lemma rankhist_compute_normalized_witness :
  rankhist_compute counted_rankhist false = Counts (n counted_rankhist) /\
  exists f s,
    rankhist_compute counted_rankhist true = Frequencies f /\
    (forall b c, n counted_rankhist !! b = Some c ->
       f !! b = Some (Fin (inject_Z (Z.of_nat c)
                           / inject_Z (Z.of_nat (total counted_rankhist)))%Q)) /\
    np_sum f = Fin s /\ (s == 1)%Q.
Proof.
  apply (rankhist_compute_normalized counted_rankhist).
  vm_compute. lia.
Defined.

(** The sample batch: the first pair, with one member below the
    observation, goes to bin 1, the pair with a NaN is left out, and the
    pair with everything below the threshold is not counted. *)
Example sample_batch_counts :
  rankhist_accum (fun _ => 0) sample_rankhist sample_forecasts sample_observations
  = Ok (RankHist 2 [0; 1; 0] (1 # 10)).
Proof. vm_compute. reflexivity. Qed.
End RankHistograms.
